(** * AutoLearn: cross-tab orchestration and response extraction

    A shallow embedding of the parts of the extension that carry its
    control flow:
    - [background/background.js]: [sendMessageWithRetry], [focusTab],
      [findAndStoreTabs], [shouldFocusTabs], [processQuestion];
    - the textbook content script: [generateRandomDelay], [cleanAnswer],
      [parseQuestion], [processChatGPTResponse] and its grading callback;
    - the Gemini and DeepSeek content scripts: [resetObservation],
      [insertQuestion], [startObserving], [processResponse],
      [checkForResponse] and the MutationObserver callback;
    - the answer delay of the textbook content script, with its countdown
      and its timers, [extractCorrectAnswer] and [waitForElement];
    - the other handlers of [background/background.js]:
      [processResponse], [injectContentScript], [initialize] and the
      listeners;
    - the calls of [injectContentScript] that are not awaited, counted
      with the run that starts them (module [Injection]);
    - the delay, turbo mode, update and website name handlers of
      [settings/script.js].

    JavaScript strings are sequences of UTF-16 code units, JavaScript
    values are a small inductive type, and the built-ins the scripts call
    ([String.prototype.trim], [JSON.parse], [JSON.stringify], the regular
    expressions that occur literally in the scripts) are modelled by
    executable functions in module [JS].  JavaScript numbers are IEEE 754
    doubles: the whole numbers of the scripts are modelled as integers,
    and the one product with a fraction, that with [Math.random()], is
    rounded as module [Double] says. *)

From Stdlib Require Import List ZArith NArith Lia Bool String Ascii.
From Stdlib Require Import QArith Qround Qpower Lqa.
From Stdlib Require Import DecimalString DecimalNat.
Import ListNotations.

Set Implicit Arguments.
#[local] Set Warnings "-register-all".

(* ===================================================================== *)
(** * JavaScript strings and values                                       *)
(* ===================================================================== *)

Module JS.

Local Open Scope N_scope.

(** A JavaScript string: its UTF-16 code units, each below 65536. *)
Definition jsstring := list N.

(** An ASCII literal as a JavaScript string. *)
Definition lit (s : string) : jsstring :=
  map N_of_ascii (list_ascii_of_string s).

(** The same, with every apostrophe of the literal standing for the
    double quote U+0022; used to write JSON texts readably. *)
Definition litq (s : string) : jsstring :=
  map (fun c => if c =? 39 then 34 else c) (lit s).

Fixpoint eqb (a b : jsstring) : bool :=
  match a, b with
  | [], [] => true
  | x :: a', y :: b' => (x =? y) && eqb a' b'
  | _, _ => false
  end.

(** [WhiteSpace] and [LineTerminator] of ECMAScript: what [trim] removes
    and what [\s] matches. *)
Definition isWhiteSpace (c : N) : bool :=
  (c =? 9) || (c =? 10) || (c =? 11) || (c =? 12) || (c =? 13)
  || (c =? 32) || (c =? 160) || (c =? 5760)
  || ((8192 <=? c) && (c <=? 8202))
  || (c =? 8232) || (c =? 8233) || (c =? 8239) || (c =? 8287)
  || (c =? 12288) || (c =? 65279).

Definition isDigit (c : N) : bool := (48 <=? c) && (c <=? 57).

Fixpoint dropWhile (p : N -> bool) (s : jsstring) : jsstring :=
  match s with
  | [] => []
  | c :: s' => if p c then dropWhile p s' else s
  end.

Fixpoint takeWhile (p : N -> bool) (s : jsstring) : jsstring :=
  match s with
  | [] => []
  | c :: s' => if p c then c :: takeWhile p s' else []
  end.

Definition trimStart (s : jsstring) : jsstring := dropWhile isWhiteSpace s.
Definition trimEnd (s : jsstring) : jsstring :=
  rev (dropWhile isWhiteSpace (rev s)).

(** [s.trim()] *)
Definition trim (s : jsstring) : jsstring := trimEnd (trimStart s).

(** [s.startsWith(pat)]; on success the rest of [s] after [pat]. *)
Fixpoint stripPrefix (pat s : jsstring) : option jsstring :=
  match pat, s with
  | [], _ => Some s
  | p :: pat', c :: s' => if p =? c then stripPrefix pat' s' else None
  | _ :: _, [] => None
  end.

(** [s.indexOf(pat)]: the text before the first occurrence of [pat] and
    the text after it, or [None] when [pat] does not occur. *)
Fixpoint splitAt (pat s : jsstring) : option (jsstring * jsstring) :=
  match stripPrefix pat s with
  | Some rest => Some ([], rest)
  | None =>
      match s with
      | [] => None
      | c :: s' =>
          match splitAt pat s' with
          | Some (before, after) => Some (c :: before, after)
          | None => None
          end
      end
  end.

(** [s.includes(pat)] *)
Definition includes (pat s : jsstring) : bool :=
  match splitAt pat s with Some _ => true | None => false end.

(** [s.split(pat)[0]] for a non-empty [pat]. *)
Definition splitFirst (pat s : jsstring) : jsstring :=
  match splitAt pat s with Some (before, _) => before | None => s end.

(** The text up to and including the last occurrence of the code unit [c],
    or [None] when [c] does not occur. *)
Fixpoint uptoLast (c : N) (s : jsstring) : option jsstring :=
  match s with
  | [] => None
  | x :: s' =>
      match uptoLast c s' with
      | Some t => Some (x :: t)
      | None => if x =? c then Some [x] else None
      end
  end.

(** [a.join(sep)] on an array of strings. *)
Fixpoint join (sep : jsstring) (l : list jsstring) : jsstring :=
  match l with
  | [] => []
  | [x] => x
  | x :: l' => x ++ sep ++ join sep l'
  end.

(** ** Values *)

(** A JavaScript value, as far as the scripts meet them: what [JSON.parse]
    builds, and [undefined].  A number is kept as the exact decimal
    [m * 10^e] that its literal denotes. *)
Inductive value : Type :=
| VUndefined
| VNull
| VBool (b : bool)
| VNum (m e : Z)
| VStr (s : jsstring)
| VArr (l : list value)
| VObj (members : list (jsstring * value)).

(** Whether the double nearest to [m * 10^e] is zero: the decimal is zero,
    or it lies within [2^-1075] of zero and rounds to it. *)
Definition numIsZero (m e : Z) : bool :=
  if (0 <=? e)%Z then (m =? 0)%Z
  else (Z.abs m * 2 ^ 1075 <=? 10 ^ (- e))%Z.

(** [ToBoolean]: what [if (v)], [!v] and [v && ...] test. *)
Definition truthy (v : value) : bool :=
  match v with
  | VUndefined | VNull => false
  | VBool b => b
  | VNum m e => negb (numIsZero m e)
  | VStr s => match s with [] => false | _ => true end
  | VArr _ | VObj _ => true
  end.

(** The member of an object under [k]; of a repeated key the last wins. *)
Fixpoint lookupLast (k : jsstring) (ms : list (jsstring * value))
  : option value :=
  match ms with
  | [] => None
  | (k', v) :: ms' =>
      match lookupLast k ms' with
      | Some v' => Some v'
      | None => if eqb k k' then Some v else None
      end
  end.

(** [v.k] for a key [k] that names no built-in property (such as
    [answer]): [None] stands for the [TypeError] that reading a property
    of [null] or [undefined] throws. *)
Definition getField (k : jsstring) (v : value) : option value :=
  match v with
  | VUndefined | VNull => None
  | VObj ms =>
      Some (match lookupLast k ms with Some x => x | None => VUndefined end)
  | _ => Some VUndefined
  end.

(** [Array.isArray(v)] *)
Definition isArray (v : value) : bool :=
  match v with VArr _ => true | _ => false end.

(** ** [JSON.parse] *)

Definition isJsonWs (c : N) : bool :=
  (c =? 32) || (c =? 9) || (c =? 10) || (c =? 13).

Definition skipWs (s : jsstring) : jsstring := dropWhile isJsonWs s.

Definition hexVal (c : N) : option N :=
  if isDigit c then Some (c - 48)
  else if (97 <=? c) && (c <=? 102) then Some (c - 87)
  else if (65 <=? c) && (c <=? 70) then Some (c - 55)
  else None.

Definition hex4 (a b c d : N) : option N :=
  match hexVal a, hexVal b, hexVal c, hexVal d with
  | Some x, Some y, Some z, Some w => Some (((x * 16 + y) * 16 + z) * 16 + w)
  | _, _, _, _ => None
  end.

(** The single-character escapes of a JSON string. *)
Definition simpleEscape (c : N) : option N :=
  if c =? 34 then Some 34           (* quote *)
  else if c =? 92 then Some 92      (* backslash *)
  else if c =? 47 then Some 47      (* solidus *)
  else if c =? 98 then Some 8       (* b *)
  else if c =? 102 then Some 12     (* f *)
  else if c =? 110 then Some 10     (* n *)
  else if c =? 114 then Some 13     (* r *)
  else if c =? 116 then Some 9      (* t *)
  else None.

Definition consFst (c : N) (r : option (jsstring * jsstring))
  : option (jsstring * jsstring) :=
  match r with Some (str, rest) => Some (c :: str, rest) | None => None end.

(** A JSON string after its opening quote: the decoded string and the text
    after the closing quote. *)
Fixpoint parseStringBody (s : jsstring) : option (jsstring * jsstring) :=
  match s with
  | [] => None
  | c :: s1 =>
      if c =? 34 then Some ([], s1)
      else if c =? 92 then
        match s1 with
        | [] => None
        | e :: s2 =>
            if e =? 117 then
              match s2 with
              | h1 :: h2 :: h3 :: h4 :: s3 =>
                  match hex4 h1 h2 h3 h4 with
                  | Some u => consFst u (parseStringBody s3)
                  | None => None
                  end
              | _ => None
              end
            else
              match simpleEscape e with
              | Some u => consFst u (parseStringBody s2)
              | None => None
              end
        end
      else if c <? 32 then None
      else consFst c (parseStringBody s1)
  end.

Definition digitsToZ (ds : jsstring) : Z :=
  fold_left (fun acc d => (acc * 10 + (Z.of_N d - 48))%Z) ds 0%Z.

(** A JSON number: an optional minus sign; then either a single zero or
    a non-zero digit followed by digits; then optionally a point and at
    least one digit; then optionally [e] or [E], an optional sign and at
    least one digit. *)
Definition parseNumber (s : jsstring) : option (value * jsstring) :=
  let '(neg, s1) :=
    match s with
    | c :: r => if c =? 45 then (true, r) else (false, s)
    | [] => (false, s)
    end in
  let ip := takeWhile isDigit s1 in
  let s2 := dropWhile isDigit s1 in
  match ip with
  | [] => None
  | d :: ds =>
      if (d =? 48) && negb (match ds with [] => true | _ => false end)
      then None
      else
        let fracPart :=
          match s2 with
          | c :: r =>
              if c =? 46 then
                match takeWhile isDigit r with
                | [] => None
                | fp => Some (fp, dropWhile isDigit r)
                end
              else Some ([], s2)
          | [] => Some ([], s2)
          end in
        match fracPart with
        | None => None
        | Some (fp, s3) =>
            let expPart :=
              match s3 with
              | c :: r =>
                  if (c =? 101) || (c =? 69) then
                    let '(eneg, r1) :=
                      match r with
                      | g :: r' =>
                          if g =? 45 then (true, r')
                          else if g =? 43 then (false, r')
                          else (false, r)
                      | [] => (false, r)
                      end in
                    match takeWhile isDigit r1 with
                    | [] => None
                    | ep =>
                        Some ((if eneg then - digitsToZ ep
                               else digitsToZ ep)%Z,
                              dropWhile isDigit r1)
                    end
                  else Some (0%Z, s3)
              | [] => Some (0%Z, s3)
              end in
            match expPart with
            | None => None
            | Some (ex, s4) =>
                let m := digitsToZ (ip ++ fp) in
                Some (VNum (if neg then - m else m)%Z
                           (ex - Z.of_nat (List.length fp))%Z, s4)
            end
        end
  end.

Definition parseLiteral (word : string) (v : value) (s : jsstring)
  : option (value * jsstring) :=
  match stripPrefix (lit word) s with
  | Some r => Some (v, r)
  | None => None
  end.

(** A JSON value at the head of [s] (leading white space already skipped)
    and the text after it.  Every recursive call is made after at least
    one code unit was consumed or one unit of [fuel] below a call that
    consumed one, so [fuel] of twice the length of the text is never
    exhausted. *)
Fixpoint parseValue (fuel : nat) (s : jsstring) {struct fuel}
  : option (value * jsstring) :=
  match fuel with
  | O => None
  | S f =>
      match s with
      | [] => None
      | c :: r =>
          if c =? 123 then
            match skipWs r with
            | [] => None
            | c' :: r' =>
                if c' =? 125 then Some (VObj [], r')
                else parseMembers f (c' :: r') []
            end
          else if c =? 91 then
            match skipWs r with
            | [] => None
            | c' :: r' =>
                if c' =? 93 then Some (VArr [], r')
                else parseElements f (c' :: r') []
            end
          else if c =? 34 then
            match parseStringBody r with
            | Some (str, r') => Some (VStr str, r')
            | None => None
            end
          else if c =? 116 then parseLiteral "true" (VBool true) s
          else if c =? 102 then parseLiteral "false" (VBool false) s
          else if c =? 110 then parseLiteral "null" VNull s
          else parseNumber s
      end
  end
with parseElements (fuel : nat) (s : jsstring) (acc : list value)
  {struct fuel} : option (value * jsstring) :=
  match fuel with
  | O => None
  | S f =>
      match parseValue f s with
      | None => None
      | Some (v, r) =>
          match skipWs r with
          | [] => None
          | c :: r' =>
              if c =? 44 then parseElements f (skipWs r') (v :: acc)
              else if c =? 93 then Some (VArr (rev (v :: acc)), r')
              else None
          end
      end
  end
with parseMembers (fuel : nat) (s : jsstring)
  (acc : list (jsstring * value)) {struct fuel}
  : option (value * jsstring) :=
  match fuel with
  | O => None
  | S f =>
      match s with
      | [] => None
      | q :: r0 =>
          if q =? 34 then
            match parseStringBody r0 with
            | None => None
            | Some (key, r1) =>
                match skipWs r1 with
                | [] => None
                | c :: r2 =>
                    if c =? 58 then
                      match parseValue f (skipWs r2) with
                      | None => None
                      | Some (v, r3) =>
                          match skipWs r3 with
                          | [] => None
                          | c' :: r4 =>
                              if c' =? 44
                              then parseMembers f (skipWs r4)
                                     ((key, v) :: acc)
                              else if c' =? 125
                              then Some (VObj (rev ((key, v) :: acc)), r4)
                              else None
                          end
                      end
                    else None
                end
            end
          else None
      end
  end.

(** [JSON.parse(text)]: [None] stands for the [SyntaxError]. *)
Definition JSON_parse (text : jsstring) : option value :=
  match parseValue (2 * List.length text + 2) (skipWs text) with
  | Some (v, r) => match skipWs r with [] => Some v | _ => None end
  | None => None
  end.

(** ** [JSON.stringify] of a string *)

Definition hexDigit (n : N) : N := if n <? 10 then 48 + n else 87 + n.

Definition unicodeEscape (c : N) : jsstring :=
  [92; 117; hexDigit (c / 4096 mod 16); hexDigit (c / 256 mod 16);
   hexDigit (c / 16 mod 16); hexDigit (c mod 16)].

Definition isHighSurrogate (c : N) : bool := (55296 <=? c) && (c <=? 56319).
Definition isLowSurrogate (c : N) : bool := (56320 <=? c) && (c <=? 57343).

Definition quoteUnit (c : N) : jsstring :=
  if c =? 34 then [92; 34]
  else if c =? 92 then [92; 92]
  else if c =? 8 then [92; 98]
  else if c =? 9 then [92; 116]
  else if c =? 10 then [92; 110]
  else if c =? 12 then [92; 102]
  else if c =? 13 then [92; 114]
  else if c <? 32 then unicodeEscape c
  else [c].

Fixpoint quoteBody (s : jsstring) : jsstring :=
  match s with
  | [] => []
  | c :: s1 =>
      if isHighSurrogate c then
        match s1 with
        | d :: s2 =>
            if isLowSurrogate d then c :: d :: quoteBody s2
            else unicodeEscape c ++ quoteBody s1
        | [] => unicodeEscape c
        end
      else if isLowSurrogate c then unicodeEscape c ++ quoteBody s1
      else quoteUnit c ++ quoteBody s1
  end.

(** [JSON.stringify(s)] for a string [s]. *)
Definition quoteJSONString (s : jsstring) : jsstring :=
  [34] ++ quoteBody s ++ [34].

End JS.

(* ===================================================================== *)
(** * Numbers                                                             *)
(* ===================================================================== *)

(** A JavaScript number is an IEEE 754 binary64 value, a double.  The
    whole numbers that the scripts compute with (seconds, milliseconds,
    tab ids, counts) are far below [2 ** 53], where sums, differences and
    products of whole numbers are exact; they are modelled as integers.
    A number that is no whole number is a rational, and the result of an
    operation on it is rounded to the nearest double, to the one with the
    even significand when two are equally near.  Numbers of magnitude
    [2 ** 1024] and more, which round to [Infinity], do not occur. *)
Module Double.

Local Open Scope Q_scope.

(** [2 ** e] *)
Definition pow2 (e : Z) : Q := 2 ^ e.

(** [Math.floor(Math.log2(x))] for a positive [x]. *)
Definition ilog2 (x : Q) : Z :=
  let e := (Z.log2 (Qnum x) - Z.log2 (Zpos (Qden x)))%Z in
  if Qle_bool (pow2 e) x then e else (e - 1)%Z.

(** The integer nearest to [x]; of two that are equally near, the even
    one. *)
Definition nearestEven (x : Q) : Z :=
  let f := Qfloor x in
  match Qcompare (x - inject_Z f) (1 # 2) with
  | Lt => f
  | Gt => (f + 1)%Z
  | Eq => if Z.even f then f else (f + 1)%Z
  end.

(** The double nearest to a positive [x]: a significand of 53 bits times
    the unit in the last place, which is [2 ** (ilog2 x - 52)] for a
    normal number and [2 ** -1074] for a subnormal one. *)
Definition roundPositive (x : Q) : Q :=
  let e := Z.max (ilog2 x - 52) (-1074) in
  inject_Z (nearestEven (x / pow2 e)) * pow2 e.

(** The double nearest to [x], ties to even. *)
Definition round (x : Q) : Q :=
  match Qcompare x 0 with
  | Eq => 0
  | Gt => roundPositive x
  | Lt => - roundPositive (- x)
  end.

(** [x] is a double. *)
Definition isDouble (x : Q) : bool := Qeq_bool (round x) x.

End Double.

(* ===================================================================== *)
(** * The textbook content script                                         *)
(* ===================================================================== *)

Module Education.

Import JS.

(** ** The answer delay *)

Local Open Scope Z_scope.

(** [generateRandomDelay(minSeconds, maxSeconds)].  [random] is the value
    that [Math.random()] returns, a double in the interval from 0
    (included) to 1 (excluded).  The seconds are whole numbers, and so
    are the milliseconds and their difference, which are exact; the
    product of [random] with that whole number is a double product and
    is rounded, then [Math.floor] and the last sum are exact again. *)
Definition generateRandomDelay (random : Q) (minSeconds maxSeconds : Z) : Z :=
  if (minSeconds =? 0) && (maxSeconds =? 0) then 0
  else
    let minSeconds :=
      if minSeconds >? maxSeconds then maxSeconds else minSeconds in
    let minDelay := minSeconds * 1000 in
    let maxDelay := maxSeconds * 1000 in
    if (minDelay =? 0) && (maxDelay =? 0) then 0
    else
      Qfloor (Double.round (random * inject_Z (maxDelay - minDelay + 1)))
      + minDelay.

(** What the storage callback of [applyRandomDelayIfEnabled] does once the
    settings are read: it sends the question at once
    ([sendQuestionIfReady(); resolve()]) or arms the delay timer
    ([setupDelayTimer(delay, resolve)]). *)
Inductive DelayAction : Type :=
| SendNow
| SetupDelayTimer (delay : Z).

(** The callback of [chrome.storage.sync.get(["minDelay", "maxDelay"])] in
    [applyRandomDelayIfEnabled]; an absent setting is [None]. *)
Definition applyRandomDelayIfEnabled (random : Q)
  (storedMin storedMax : option Z) : DelayAction :=
  let minDelay := match storedMin with Some v => v | None => 22 end in
  let maxDelay := match storedMax with Some v => v | None => 97 end in
  if (minDelay =? 0) && (maxDelay =? 0) then SendNow
  else
    let delay := generateRandomDelay random minDelay maxDelay in
    if delay =? 0 then SendNow else SetupDelayTimer delay.

Local Close Scope Z_scope.
Local Open Scope N_scope.

(** ** Correction context *)

(** A revealed correct answer: one string, or one string per field. *)
Inductive answer : Type :=
| AStr (s : jsstring)
| AArr (l : list jsstring).

(** [s.replace(/^Field \d+:\s*/, empty)]: the literal [Field ], one or more
    digits, a colon and all white space after it are removed from the
    start of [s]; any other [s] is returned unchanged. *)
Definition stripFieldPrefix (s : jsstring) : jsstring :=
  match stripPrefix (lit "Field ") s with
  | None => s
  | Some r =>
      match takeWhile isDigit r with
      | [] => s
      | _ :: _ =>
          match dropWhile isDigit r with
          | c :: r' => if c =? 58 then dropWhile isWhiteSpace r' else s
          | [] => s
          end
      end
  end.

(** [cleanAnswer(answer)] on a string. *)
Definition cleanString (answer : jsstring) : jsstring :=
  match answer with
  | [] => answer
  | _ :: _ =>
      let cleanedAnswer := trim answer in
      let cleanedAnswer := stripFieldPrefix cleanedAnswer in
      if includes (lit " or ") cleanedAnswer
      then trim (splitFirst (lit " or ") cleanedAnswer)
      else cleanedAnswer
  end.

(** [cleanAnswer(answer)]: an array is cleaned item by item. *)
Definition cleanAnswer (a : answer) : answer :=
  match a with
  | AStr s => AStr (cleanString s)
  | AArr l => AArr (map cleanString l)
  end.

(** The variables of the script that the question flow reads and writes. *)
Record Script : Type := {
  isAutomating : bool;
  lastIncorrectQuestion : option jsstring;
  lastCorrectAnswer : option answer
}.

(** What [extractCorrectAnswer()] returns when it finds a correction. *)
Record CorrectionData : Type := {
  cd_question : jsstring;
  cd_answer : answer;
  cd_type : jsstring
}.

Definition answerTruthy (a : answer) : bool :=
  match a with
  | AStr [] => false
  | _ => true
  end.

(** The timer callback that runs one second after the confidence button was
    clicked, up to the point where it waits for the next button.
    [incorrectMarker] tells whether [.awd-probe-correctness.incorrect] is
    on the page, [correctionData] is the result of
    [extractCorrectAnswer()]. *)
Definition gradingCallback (incorrectMarker : bool)
  (correctionData : option CorrectionData) (s : Script) : Script :=
  if incorrectMarker then
    match correctionData with
    | Some d =>
        if answerTruthy (cd_answer d) then
          {| isAutomating := isAutomating s;
             lastIncorrectQuestion := Some (cd_question d);
             lastCorrectAnswer := Some (cleanAnswer (cd_answer d)) |}
        else s
    | None => s
    end
  else s.

(** ** The question sent to the assistant *)

Inductive Options : Type :=
| OList (l : list jsstring)
| OMatching (prompts choices : list jsstring).

Record PreviousCorrection : Type := {
  pc_question : jsstring;
  pc_correctAnswer : option answer
}.

Record QuestionData : Type := {
  q_type : jsstring;
  q_question : jsstring;
  q_options : Options;
  q_previousCorrection : option PreviousCorrection
}.

(** The question container [.probe-container] as the script reads it. *)
Inductive inputKind : Type := Radio | Checkbox.

(** A radio button or checkbox of the container.  [c_name] identifies the
    radio group (the [name] attribute within the form; the empty name
    forms no group).  [c_label] is [None] when the input has no enclosing
    [label], [Some None] when the label has no [.choiceText] element, and
    otherwise the text content of that element. *)
Record Choice : Type := {
  c_kind : inputKind;
  c_name : jsstring;
  c_checked : bool;
  c_disabled : bool;
  c_label : option (option jsstring)
}.

Record Container : Type := {
  hasMultipleChoice : bool;      (* .awd-probe-type-multiple_choice *)
  hasTrueFalse : bool;           (* .awd-probe-type-true_false *)
  hasMultipleSelect : bool;      (* .awd-probe-type-multiple_select *)
  hasFillInTheBlank : bool;      (* .awd-probe-type-fill_in_the_blank *)
  hasMatching : bool;            (* .awd-probe-type-matching *)
  (* text content of [.prompt], if there is one *)
  promptText : option jsstring;
  (* text content of the clone of [.prompt] in which the decoration spans
     are removed and every [input.fitb-input] is replaced by [BLANK] *)
  promptBlankText : option jsstring;
  choiceTexts : list jsstring;   (* text of every .choiceText *)
  matchPrompts : list jsstring;  (* text of every .match-prompt .content *)
  matchChoices : list jsstring;  (* text of every .choices-container .content *)
  (* the value last assigned to each input.fitb-input *)
  fitbInputs : list value;
  choices : list Choice
}.

Definition questionType (c : Container) : jsstring :=
  if hasMultipleChoice c then lit "multiple_choice"
  else if hasTrueFalse c then lit "true_false"
  else if hasMultipleSelect c then lit "multiple_select"
  else if hasFillInTheBlank c then lit "fill_in_the_blank"
  else if hasMatching c then lit "matching"
  else [].

(** [parseQuestion()]; [None] when there is no container (the script then
    alerts and returns [null]). *)
Definition parseQuestion (s : Script) (container : option Container)
  : option QuestionData :=
  match container with
  | None => None
  | Some c =>
      let questionType := questionType c in
      let questionText :=
        if eqb questionType (lit "fill_in_the_blank") then
          match promptText c, promptBlankText c with
          | Some _, Some t => trim t
          | _, _ => []
          end
        else match promptText c with Some t => trim t | None => [] end in
      let options :=
        if eqb questionType (lit "matching")
        then OMatching (map trim (matchPrompts c)) (map trim (matchChoices c))
        else if negb (eqb questionType (lit "fill_in_the_blank"))
        then OList (map trim (choiceTexts c))
        else OList [] in
      Some {| q_type := questionType;
              q_question := questionText;
              q_options := options;
              q_previousCorrection :=
                match lastIncorrectQuestion s with
                | Some (u :: q) =>
                    Some {| pc_question := u :: q;
                            pc_correctAnswer := lastCorrectAnswer s |}
                | _ => None
                end |}
  end.

(** ** Applying an answer *)

(** [s.replace(/\.$/, empty)]: one full stop at the very end is removed. *)
Definition stripTrailingPeriod (s : jsstring) : jsstring :=
  match rev s with
  | c :: r => if c =? 46 then rev r else s
  | [] => s
  end.

(** The body of the callback of [answers.some] in
    [processChatGPTResponse], for a candidate answer that is a string. *)
Definition matchesAnswer (choiceText ans : jsstring) : bool :=
  if eqb choiceText ans then true
  else
    let choiceWithoutPeriod := stripTrailingPeriod choiceText in
    let answerWithoutPeriod := stripTrailingPeriod ans in
    if eqb choiceWithoutPeriod answerWithoutPeriod then true
    else if eqb choiceText (ans ++ [46]) then true
    else false.

(** [shouldBeSelected]: [answers.some(...)].  A candidate that is not a
    string is never identical to the option text, and calling its
    [replace] throws a [TypeError], for which [None] stands. *)
Fixpoint shouldBeSelected (choiceText : jsstring) (answers : list value)
  : option bool :=
  match answers with
  | [] => Some false
  | VStr ans :: rest =>
      if matchesAnswer choiceText ans then Some true
      else shouldBeSelected choiceText rest
  | _ :: _ => None
  end.

(** How one click changes the [checked] state of one input. *)
Inductive bitop : Type := Keep | Set1 | Set0 | Flip.

Definition applyOp (o : bitop) (b : bool) : bool :=
  match o with
  | Keep => b
  | Set1 => true
  | Set0 => false
  | Flip => negb b
  end.

Definition setChecked (b : bool) (c : Choice) : Choice :=
  {| c_kind := c_kind c; c_name := c_name c; c_checked := b;
     c_disabled := c_disabled c; c_label := c_label c |}.

(** Whether [target] is a radio button of the group of the radio button
    [clicked]. *)
Definition inGroup (clicked target : Choice) : bool :=
  match c_kind target, c_name clicked with
  | Radio, _ :: _ => eqb (c_name clicked) (c_name target)
  | _, _ => false
  end.

(** The activation behaviour of [click()] on the input [clicked], seen
    from the input [target] ([same] tells whether they are one element):
    a disabled input ignores the click, a checkbox is toggled, a radio
    button becomes checked and the others of its group unchecked.
    Handlers that the page itself attaches are outside the model. *)
Definition clickEffect (clicked target : Choice) (same : bool) : bitop :=
  if c_disabled clicked then Keep
  else
    match c_kind clicked with
    | Checkbox => if same then Flip else Keep
    | Radio =>
        if same then Set1
        else if inGroup clicked target then Set0
        else Keep
    end.

Fixpoint mapi {A B : Type} (f : nat -> A -> B) (i : nat) (l : list A)
  : list B :=
  match l with
  | [] => []
  | x :: l' => f i x :: mapi f (S i) l'
  end.

(** [choices[i].click()] *)
Definition click (i : nat) (cs : list Choice) : list Choice :=
  match nth_error cs i with
  | None => cs
  | Some clicked =>
      mapi (fun j target =>
              setChecked
                (applyOp (clickEffect clicked target (Nat.eqb j i))
                         (c_checked target))
                target) 0 cs
  end.

(** The decision the callback of [choices.forEach] takes for one input:
    [Some false] to leave it alone, [Some true] to click it, [None] when
    the decision throws. *)
Definition wanted (answers : list value) (choice : Choice) : option bool :=
  match c_label choice with
  | None => Some false
  | Some None => Some false
  | Some (Some text) =>
      match trim text with
      | [] => Some false
      | choiceText => shouldBeSelected choiceText answers
      end
  end.

(** [choices.forEach(...)] over the inputs at the positions [idxs]: the
    inputs afterwards, and whether the loop ran to its end ([false] when
    an exception ended it). *)
Fixpoint forEachChoice (answers : list value) (idxs : list nat)
  (cs : list Choice) : list Choice * bool :=
  match idxs with
  | [] => (cs, true)
  | i :: rest =>
      match nth_error cs i with
      | None => forEachChoice answers rest cs
      | Some choice =>
          match wanted answers choice with
          | None => (cs, false)
          | Some true => forEachChoice answers rest (click i cs)
          | Some false => forEachChoice answers rest cs
          end
      end
  end.

(** The choice-selection step of [processChatGPTResponse]. *)
Definition selectChoices (answers : list value) (cs : list Choice)
  : list Choice * bool :=
  forEachChoice answers (seq 0 (List.length cs)) cs.

(** The page as [processChatGPTResponse] reads it. *)
Record Page : Type := {
  (* [countdownElement] exists and is displayed *)
  countdownShown : bool;
  (* text of the next button of a topic overview, if there is one *)
  overviewButton : option jsstring;
  (* .forced-learning .alert-error *)
  forcedLearningAlert : bool;
  (* [data-automation-id=lr-tray_reading-button] *)
  readButton : bool;
  container : option Container
}.

(** What the script does to the world besides changing the inputs. *)
Inductive Effect : Type :=
| SetCountdownText (text : jsstring)
| ClickOverviewContinue        (* and a timer for [checkForNextStep] *)
| ClickReadButton              (* and the forced-learning promise chain *)
| AlertMatching (answers : list value)
| DispatchInput (index : nat)
| WaitForConfidenceButton      (* the grading promise chain *)
| LogError.

Definition toLowerUnit (c : N) : N :=
  if (65 <=? c) && (c <=? 90) then c + 32 else c.

(** [s.toLowerCase()], exact on the letters A to Z; no other code unit is
    mapped to a letter of the words the scripts search for. *)
Definition toLowerCase (s : jsstring) : jsstring := map toLowerUnit s.

(** [handleTopicOverview()] returns [true]. *)
Definition handleTopicOverview (p : Page) : bool :=
  match overviewButton p with
  | Some text => includes (lit "continue") (toLowerCase (trim text))
  | None => false
  end.

(** [handleForcedLearning()] returns [true]. *)
Definition handleForcedLearning (p : Page) : bool :=
  forcedLearningAlert p && readButton p.

(** [inputs.forEach((input, index) => ...)] of the fill-in-the-blank
    branch: input [index] receives [answers[index]] when that is truthy. *)
Fixpoint fillBlanks (answers : list value) (index : nat)
  (inputs : list value) : list value * list Effect :=
  match inputs with
  | [] => ([], [])
  | old :: inputs' =>
      let '(rest, effs) := fillBlanks answers (S index) inputs' in
      match nth_error answers index with
      | Some a =>
          if truthy a then (a :: rest, DispatchInput index :: effs)
          else (old :: rest, effs)
      | None => (old :: rest, effs)
      end
  end.

Definition withFitbInputs (c : Container) (v : list value) : Container :=
  {| hasMultipleChoice := hasMultipleChoice c;
     hasTrueFalse := hasTrueFalse c;
     hasMultipleSelect := hasMultipleSelect c;
     hasFillInTheBlank := hasFillInTheBlank c;
     hasMatching := hasMatching c;
     promptText := promptText c;
     promptBlankText := promptBlankText c;
     choiceTexts := choiceTexts c;
     matchPrompts := matchPrompts c;
     matchChoices := matchChoices c;
     fitbInputs := v;
     choices := choices c |}.

Definition withChoices (c : Container) (cs : list Choice) : Container :=
  {| hasMultipleChoice := hasMultipleChoice c;
     hasTrueFalse := hasTrueFalse c;
     hasMultipleSelect := hasMultipleSelect c;
     hasFillInTheBlank := hasFillInTheBlank c;
     hasMatching := hasMatching c;
     promptText := promptText c;
     promptBlankText := promptBlankText c;
     choiceTexts := choiceTexts c;
     matchPrompts := matchPrompts c;
     matchChoices := matchChoices c;
     fitbInputs := fitbInputs c;
     choices := cs |}.

Definition withContainer (p : Page) (c : Container) : Page :=
  {| countdownShown := countdownShown p;
     overviewButton := overviewButton p;
     forcedLearningAlert := forcedLearningAlert p;
     readButton := readButton p;
     container := Some c |}.

Definition clearCorrection (s : Script) : Script :=
  {| isAutomating := isAutomating s;
     lastIncorrectQuestion := None;
     lastCorrectAnswer := None |}.

(** [Array.isArray(response.answer) ? response.answer : [response.answer]];
    [None] when reading [response.answer] throws. *)
Definition answersOf (response : value) : option (list value) :=
  match getField (lit "answer") response with
  | None => None
  | Some (VArr l) => Some l
  | Some v => Some [v]
  end.

(** [processChatGPTResponse(responseText)], its synchronous part: the
    script variables and the page afterwards, and the effects in order. *)
Definition processChatGPTResponse (responseText : jsstring)
  (s : Script) (p : Page) : Script * Page * list Effect :=
  let shown :=
    if countdownShown p then [SetCountdownText (lit "Answered")] else [] in
  if handleTopicOverview p then (s, p, shown ++ [ClickOverviewContinue])
  else if handleForcedLearning p then (s, p, shown ++ [ClickReadButton])
  else
    match JSON_parse responseText with
    | None => (s, p, shown ++ [LogError])
    | Some response =>
        match answersOf response with
        | None => (s, p, shown ++ [LogError])
        | Some answers =>
            match container p with
            | None => (s, p, shown)
            | Some c =>
                let s := clearCorrection s in
                if hasMatching c then
                  (s, p, shown ++ [AlertMatching answers])
                else if hasFillInTheBlank c then
                  let '(inputs, effs) :=
                    fillBlanks answers 0 (fitbInputs c) in
                  (s, withContainer p (withFitbInputs c inputs),
                   shown ++ effs)
                else
                  let '(cs, finished) := selectChoices answers (choices c) in
                  let p := withContainer p (withChoices c cs) in
                  if finished then
                    if isAutomating s
                    then (s, p, shown ++ [WaitForConfidenceButton])
                    else (s, p, shown)
                  else (s, p, shown ++ [LogError])
            end
        end
    end.

End Education.

(* ===================================================================== *)
(** * The assistant content scripts                                       *)
(* ===================================================================== *)

(** What the Gemini and the DeepSeek script have in common, word for word:
    the prompt that [insertQuestion] composes, the clean-up of a reply
    text, and the regular expressions. *)
Module Assistant.

Import JS.
Import Education.

Local Open Scope N_scope.

Definition decimal (n : nat) : jsstring :=
  lit (DecimalString.NilEmpty.string_of_uint (Nat.to_uint n)).

(** [items.map((x, i) => `${i + 1}. ${x}`).join("\n")] *)
Definition numbered (items : list jsstring) : jsstring :=
  join [10] (mapi (fun i x => decimal (i + 1) ++ lit ". " ++ x) 0 items).

(** [JSON.stringify(correctAnswer)] *)
Definition stringifyAnswer (a : answer) : jsstring :=
  match a with
  | AStr s => quoteJSONString s
  | AArr l => [91] ++ join [44] (map quoteJSONString l) ++ [93]
  end.

(** The correction preamble of [insertQuestion], for the question [q] and
    the answer [a] of the previous correction. *)
Definition correctionPreamble (q : jsstring) (a : answer) : jsstring :=
  lit "CORRECTION FROM PREVIOUS ANSWER: For the question " ++ [34] ++ q
  ++ [34] ++ lit ", your answer was incorrect. The correct answer was: "
  ++ stringifyAnswer a ++ [10; 10] ++ lit "Now answer this new question:"
  ++ [10; 10].

Definition jsonInstruction : jsstring :=
  [10; 10]
  ++ litq "Please provide your answer in JSON format with keys 'answer' and 'explanation'. Explanations should be no more than one sentence. DO NOT acknowledge the correction in your response, only answer the new question.".

(** The text that [insertQuestion(questionData)] types into the input
    area; [None] when composing it throws (a matching question without
    prompt and choice lists). *)
Definition insertQuestionText (questionData : QuestionData)
  : option jsstring :=
  let type := q_type questionData in
  let question := q_question questionData in
  let options := q_options questionData in
  let text := lit "Type: " ++ type ++ [10] ++ lit "Question: " ++ question in
  let text :=
    match q_previousCorrection questionData with
    | Some {| pc_question := (u :: q') as pq;
              pc_correctAnswer := Some a |} =>
        if answerTruthy a then correctionPreamble pq a ++ text else text
    | _ => text
    end in
  let text :=
    if eqb type (lit "matching") then
      match options with
      | OMatching prompts choices =>
          Some (text ++ [10] ++ lit "Prompts:" ++ [10] ++ numbered prompts
                ++ [10] ++ lit "Choices:" ++ [10] ++ numbered choices
                ++ [10; 10]
                ++ lit "Please match each prompt with the correct choice. Format your answer as an array where each element is 'Prompt -> Choice'.")
      | OList _ => None
      end
    else if eqb type (lit "fill_in_the_blank") then
      Some (text ++ [10; 10]
            ++ lit "This is a fill in the blank question. If there are multiple blanks, provide answers as an array in order of appearance. For a single blank, you can provide a string.")
    else
      match options with
      | OList (o :: os) =>
          Some (text ++ [10] ++ lit "Options:" ++ [10] ++ numbered (o :: os)
                ++ [10; 10]
                ++ lit "IMPORTANT: Your answer must EXACTLY match one of the above options. Do not include numbers in your answer. If there are periods, include them.")
      | _ => Some text
      end in
  match text with
  | Some text => Some (text ++ jsonInstruction)
  | None => None
  end.

(** [s.replace(/[\u200B-\u200D\uFEFF]/g, empty)]: the zero-width code
    units are removed. *)
Definition removeZeroWidth (s : jsstring) : jsstring :=
  filter (fun c => negb (((8203 <=? c) && (c <=? 8205)) || (c =? 65279))) s.

(** [s.replace(/\n\s*/g, " ")]: every line feed, together with the white
    space that follows it, becomes one space.  [skipping] is set while the
    white space after a line feed is being dropped. *)
Fixpoint collapseFrom (skipping : bool) (s : jsstring) : jsstring :=
  match s with
  | [] => []
  | c :: s' =>
      if c =? 10 then
        if skipping then collapseFrom true s' else 32 :: collapseFrom true s'
      else if skipping && isWhiteSpace c then collapseFrom true s'
      else c :: collapseFrom false s'
  end.

Definition collapseNewlines (s : jsstring) : jsstring := collapseFrom false s.

(** The clean-up both scripts apply before [JSON.parse]. *)
Definition cleanText (s : jsstring) : jsstring :=
  trim (collapseNewlines (removeZeroWidth s)).

(** [s.match(/\{[\s\S]*\}/)]: from the first opening brace to the last
    closing brace after it. *)
Definition matchBraces (s : jsstring) : option jsstring :=
  match splitAt [123] s with
  | Some (_, r) =>
      match uptoLast 125 r with
      | Some body => Some (123 :: body)
      | None => None
      end
  | None => None
  end.

(** [s.match(/\{[\s\S]*?"answer"[\s\S]*?\}/)]: from the first opening
    brace, over the first ["answer"] after it, to the first closing brace
    after that. *)
Definition matchAnswer (s : jsstring) : option jsstring :=
  match splitAt [123] s with
  | Some (_, r0) =>
      match splitAt (litq "'answer'") r0 with
      | Some (b1, r1) =>
          match splitAt [125] r1 with
          | Some (b2, _) => Some ([123] ++ b1 ++ litq "'answer'" ++ b2 ++ [125])
          | None => None
          end
      | None => None
      end
  | None => None
  end.

(** [s.match(/\{[\s\S]*?"answer"[\s\S]*?"explanation"[\s\S]*?\}/)] *)
Definition matchAnswerExplanation (s : jsstring) : option jsstring :=
  match splitAt [123] s with
  | Some (_, r0) =>
      match splitAt (litq "'answer'") r0 with
      | Some (b1, r1) =>
          match splitAt (litq "'explanation'") r1 with
          | Some (b2, r2) =>
              match splitAt [125] r2 with
              | Some (b3, _) =>
                  Some ([123] ++ b1 ++ litq "'answer'" ++ b2
                        ++ litq "'explanation'" ++ b3 ++ [125])
              | None => None
              end
          | None => None
          end
      | None => None
      end
  | None => None
  end.

(** A message sent to the background script with
    [chrome.runtime.sendMessage]. *)
Record Emission : Type := {
  e_type : jsstring;
  e_response : jsstring
}.

(** Whether a text is a reply that the direct path accepts: it parses as
    JSON and the [answer] of the parsed value is truthy. *)
Definition parsesWithAnswer (text : jsstring) : bool :=
  match JSON_parse text with
  | Some parsed =>
      match getField (lit "answer") parsed with
      | Some a => truthy a
      | None => false
      end
  | None => false
  end.

End Assistant.

(** ** Gemini *)

Module Gemini.

Import JS.
Import Assistant.

Local Open Scope N_scope.

(** A [pre code] element of a reply. *)
Record CodeBlock : Type := {
  cb_className : jsstring;
  cb_inCodeBlock : bool;          (* block.closest(".code-block") *)
  cb_textContent : jsstring
}.

(** A [model-response] element. *)
Record ModelResponse : Type := {
  mr_codeBlocks : list CodeBlock; (* querySelectorAll("pre code") *)
  mr_textContent : jsstring;
  mr_cursor : bool;               (* querySelector(".cursor") *)
  mr_generating : bool            (* classList.contains("generating") *)
}.

(** [document.querySelectorAll("model-response")] *)
Definition Document := list ModelResponse.

(** The variables of the script.  [observationTimeout] is the time at
    which the pending timer is due, [None] when no timer is pending;
    [observer] tells whether a MutationObserver is connected; [pending]
    counts the [sendMessage] promises that are not settled yet. *)
Record State : Type := {
  hasResponded : bool;
  messageCountAtQuestion : nat;
  observationStartTime : Z;
  observationTimeout : option Z;
  observer : bool;
  pending : nat
}.

Definition initial : State :=
  {| hasResponded := false; messageCountAtQuestion := 0;
     observationStartTime := 0; observationTimeout := None;
     observer := false; pending := 0 |}.

(** [resetObservation()] *)
Definition resetObservation (s : State) : State :=
  {| hasResponded := false;
     messageCountAtQuestion := messageCountAtQuestion s;
     observationStartTime := observationStartTime s;
     observationTimeout := None;
     observer := false;
     pending := pending s |}.

(** [startObserving()] at the time [now]. *)
Definition startObserving (now : Z) (s : State) : State :=
  {| hasResponded := hasResponded s;
     messageCountAtQuestion := messageCountAtQuestion s;
     observationStartTime := now;
     observationTimeout := Some (now + 180000)%Z;
     observer := true;
     pending := pending s |}.

(** What happens in the page.  The two 300 ms timers of [insertQuestion]
    are folded into [Submit]: the background script sends the next
    question only after this one is acknowledged, and the acknowledgement
    is sent after [startObserving] ran. *)
Inductive Event : Type :=
| Submit (question : Education.QuestionData) (doc : Document)
         (inputArea sendButton : bool) (now : Z)
| Mutation (doc : Document) (now : Z)
| TimeoutFires (now : Z)
| SendSettled (fulfilled : bool).

(** The loop over the code blocks: the trimmed text of the first block
    that is highlighted or lies in a [.code-block]. *)
Fixpoint firstCodeBlock (blocks : list CodeBlock) : jsstring :=
  match blocks with
  | [] => []
  | block :: rest =>
      if includes (lit "hljs-") (cb_className block) || cb_inCodeBlock block
      then trim (cb_textContent block)
      else firstCodeBlock rest
  end.

(** The reply text that the observer callback hands to [JSON.parse]. *)
Definition extractResponseText (latestMessage : ModelResponse) : jsstring :=
  let responseText := firstCodeBlock (mr_codeBlocks latestMessage) in
  let responseText :=
    match responseText with
    | [] =>
        let responseText := trim (mr_textContent latestMessage) in
        match matchBraces responseText with
        | Some m => m
        | None => responseText
        end
    | _ :: _ => responseText
    end in
  cleanText responseText.

Definition markResponded (s : State) : State :=
  {| hasResponded := true;
     messageCountAtQuestion := messageCountAtQuestion s;
     observationStartTime := observationStartTime s;
     observationTimeout := observationTimeout s;
     observer := observer s;
     pending := pending s |}.

Definition addPending (s : State) : State :=
  {| hasResponded := hasResponded s;
     messageCountAtQuestion := messageCountAtQuestion s;
     observationStartTime := observationStartTime s;
     observationTimeout := observationTimeout s;
     observer := observer s;
     pending := S (pending s) |}.

Definition geminiResponse (text : jsstring) : Emission :=
  {| e_type := lit "geminiResponse"; e_response := text |}.

(** The part of the observer callback after the [try] block: the
    extraction from the raw text. *)
Definition fallback (latestMessage : ModelResponse) (now : Z) (s : State)
  : State * list Emission :=
  let isGenerating := mr_cursor latestMessage || mr_generating latestMessage in
  if isGenerating || (now - observationStartTime s <=? 30000)%Z then (s, [])
  else
    let responseText2 := trim (mr_textContent latestMessage) in
    match matchAnswerExplanation responseText2 with
    | Some m =>
        if negb (hasResponded s)
        then (resetObservation (markResponded s), [geminiResponse m])
        else (s, [])
    | None => (s, [])
    end.

(** The callback of the MutationObserver. *)
Definition observerCallback (doc : Document) (now : Z) (s : State)
  : State * list Emission :=
  if hasResponded s then (s, [])
  else
    match last (map Some doc) None with
    | None => (s, [])
    | Some latestMessage =>
        if (List.length doc <=? messageCountAtQuestion s)%nat then (s, [])
        else
          let responseText := extractResponseText latestMessage in
          match JSON_parse responseText with
          | Some parsed =>
              match getField (lit "answer") parsed with
              | Some a =>
                  if truthy a && negb (hasResponded s)
                  then (addPending (markResponded s),
                        [geminiResponse responseText])
                  else (s, [])
              | None => fallback latestMessage now s
              end
          | None => fallback latestMessage now s
          end
    end.

(** One event handled to its end. *)
Definition step (s : State) (ev : Event) : State * list Emission :=
  match ev with
  | Submit question doc inputArea sendButton now =>
      let s := resetObservation s in
      let s :=
        {| hasResponded := false;
           messageCountAtQuestion := List.length doc;
           observationStartTime := observationStartTime s;
           observationTimeout := observationTimeout s;
           observer := observer s;
           pending := pending s |} in
      match insertQuestionText question with
      | Some _ =>
          if inputArea && sendButton then (startObserving now s, [])
          else (s, [])
      | None => (s, [])
      end
  | Mutation doc now =>
      if observer s then observerCallback doc now s else (s, [])
  | TimeoutFires now =>
      match observationTimeout s with
      | Some due =>
          if (due <=? now)%Z then
            if negb (hasResponded s) then (resetObservation s, [])
            else
              ({| hasResponded := hasResponded s;
                  messageCountAtQuestion := messageCountAtQuestion s;
                  observationStartTime := observationStartTime s;
                  observationTimeout := None;
                  observer := observer s;
                  pending := pending s |}, [])
          else (s, [])
      | None => (s, [])
      end
  | SendSettled fulfilled =>
      match pending s with
      | O => (s, [])
      | S n =>
          let s :=
            {| hasResponded := hasResponded s;
               messageCountAtQuestion := messageCountAtQuestion s;
               observationStartTime := observationStartTime s;
               observationTimeout := observationTimeout s;
               observer := observer s;
               pending := n |} in
          if fulfilled then (resetObservation s, []) else (s, [])
      end
  end.

(** A sequence of events, and everything sent during it. *)
Fixpoint run (s : State) (evs : list Event) : State * list Emission :=
  match evs with
  | [] => (s, [])
  | ev :: evs' =>
      let '(s1, out1) := step s ev in
      let '(s2, out2) := run s1 evs' in
      (s2, out1 ++ out2)
  end.

Definition isSubmit (ev : Event) : bool :=
  match ev with Submit _ _ _ _ _ => true | _ => false end.

(** The cycle is live: a connected observer that has not responded. *)
Definition observing (s : State) : bool :=
  observer s && negb (hasResponded s).

End Gemini.

(** ** DeepSeek *)

Module DeepSeek.

Import JS.
Import Assistant.

Local Open Scope N_scope.

(** A code block of a reply.  [b_infoTexts] is [None] when the block has
    no ancestor [.md-code-block], [.code-block] or [.ds-markdown];
    otherwise it lists the text of every info element of that ancestor. *)
Record Block : Type := {
  b_infoTexts : option (list jsstring);
  b_textContent : jsstring
}.

(** A reply element: its code blocks under each of the five selectors of
    [codeBlockSelectors], in that order, and its text. *)
Record Message : Type := {
  m_blocks : list (list Block);
  m_textContent : jsstring
}.

(** The reply elements under each of the four selectors of
    [messageSelectors], in that order. *)
Definition Document := list (list Message).

(** The variables of the script; as for Gemini, and [checkIntervalId]
    tells whether the one-second interval is running. *)
Record State : Type := {
  hasResponded : bool;
  messageCountAtQuestion : nat;
  observationStartTime : Z;
  observationTimeout : option Z;
  checkIntervalId : bool;
  observer : bool;
  pending : nat
}.

Definition initial : State :=
  {| hasResponded := false; messageCountAtQuestion := 0;
     observationStartTime := 0; observationTimeout := None;
     checkIntervalId := false; observer := false; pending := 0 |}.

(** [resetObservation()] *)
Definition resetObservation (s : State) : State :=
  {| hasResponded := false;
     messageCountAtQuestion := messageCountAtQuestion s;
     observationStartTime := observationStartTime s;
     observationTimeout := None;
     checkIntervalId := false;
     observer := false;
     pending := pending s |}.

(** [startObserving()] at the time [now]. *)
Definition startObserving (now : Z) (s : State) : State :=
  {| hasResponded := hasResponded s;
     messageCountAtQuestion := messageCountAtQuestion s;
     observationStartTime := now;
     observationTimeout := Some (now + 180000)%Z;
     checkIntervalId := true;
     observer := true;
     pending := pending s |}.

(** What happens in the page.  [count] is the number of elements under
    the combined selector that the message listener counts.  [Check] is a
    call of [checkForResponse], by the observer or by the interval. *)
Inductive Event : Type :=
| Submit (question : Education.QuestionData) (count : nat)
         (chatInput sendButton : bool) (now : Z)
| Check (byObserver : bool) (doc : Document) (now : Z)
| TimeoutFires (now : Z)
| SendSettled (fulfilled : bool).

Definition deepseekResponse (text : jsstring) : Emission :=
  {| e_type := lit "deepseekResponse"; e_response := text |}.

Definition markResponded (s : State) : State :=
  {| hasResponded := true;
     messageCountAtQuestion := messageCountAtQuestion s;
     observationStartTime := observationStartTime s;
     observationTimeout := observationTimeout s;
     checkIntervalId := checkIntervalId s;
     observer := observer s;
     pending := pending s |}.

Definition addPending (s : State) : State :=
  {| hasResponded := hasResponded s;
     messageCountAtQuestion := messageCountAtQuestion s;
     observationStartTime := observationStartTime s;
     observationTimeout := observationTimeout s;
     checkIntervalId := checkIntervalId s;
     observer := observer s;
     pending := S (pending s) |}.

(** [processResponse(responseText)]: [None] when it returns [false],
    otherwise the state and the message it sends. *)
Definition processResponse (responseText : jsstring) (s : State)
  : option (State * Emission) :=
  let cleanedText := cleanText responseText in
  match JSON_parse cleanedText with
  | Some parsed =>
      if negb (truthy parsed) then None
      else
        match getField (lit "answer") parsed with
        | Some a =>
            if negb (truthy a) || hasResponded s then None
            else Some (addPending (markResponded s),
                       deepseekResponse cleanedText)
        | None => None
        end
  | None => None
  end.

(** The messages of the first selector that finds any. *)
Fixpoint firstNonEmpty (doc : Document) : list Message :=
  match doc with
  | [] => []
  | found :: rest =>
      match found with
      | [] => firstNonEmpty rest
      | _ :: _ => found
      end
  end.

(** Whether the loop over the code blocks hands the block to
    [processResponse]. *)
Definition blockCandidate (block : Block) : option jsstring :=
  match b_infoTexts block with
  | None => None
  | Some infoTexts =>
      let hasJsonInfo :=
        existsb (fun t => includes (lit "json") (Education.toLowerCase t))
                infoTexts in
      if negb hasJsonInfo && negb (Nat.eqb (List.length infoTexts) 0)
      then None
      else
        let responseText := trim (b_textContent block) in
        if includes [123] responseText
           && includes (litq "'answer'") responseText
        then Some responseText
        else None
  end.

(** The texts handed to [processResponse] for one message, in order: the
    code blocks selector by selector, then the slice of the text. *)
Definition candidates (message : Message) : list jsstring :=
  flat_map (fun block =>
              match blockCandidate block with
              | Some t => [t]
              | None => []
              end) (List.concat (m_blocks message))
  ++ match matchAnswer (trim (m_textContent message)) with
     | Some m => [m]
     | None => []
     end.

(** The first text that [processResponse] accepts. *)
Fixpoint firstAccepted (texts : list jsstring) (s : State)
  : option (State * Emission) :=
  match texts with
  | [] => None
  | t :: rest =>
      match processResponse t s with
      | Some r => Some r
      | None => firstAccepted rest s
      end
  end.

(** The loop of [checkForResponse] over the new messages. *)
Fixpoint checkMessages (newMessages : list Message) (now : Z) (s : State)
  : State * list Emission :=
  match newMessages with
  | [] => (s, [])
  | message :: rest =>
      match firstAccepted (candidates message) s with
      | Some (s', e) => (s', [e])
      | None =>
          if (now - observationStartTime s <=? 30000)%Z
          then checkMessages rest now s
          else
            match matchAnswerExplanation (trim (m_textContent message)) with
            | Some m =>
                if hasResponded s then checkMessages rest now s
                else (resetObservation (markResponded s),
                      [deepseekResponse m])
            | None => checkMessages rest now s
            end
      end
  end.

(** [checkForResponse()] *)
Definition checkForResponse (doc : Document) (now : Z) (s : State)
  : State * list Emission :=
  if hasResponded s then (s, [])
  else
    let messages := firstNonEmpty doc in
    if (List.length messages <=? messageCountAtQuestion s)%nat then (s, [])
    else checkMessages (skipn (messageCountAtQuestion s) messages) now s.

(** One event handled to its end. *)
Definition step (s : State) (ev : Event) : State * list Emission :=
  match ev with
  | Submit question count chatInput sendButton now =>
      let s := resetObservation s in
      let s :=
        {| hasResponded := false;
           messageCountAtQuestion := count;
           observationStartTime := observationStartTime s;
           observationTimeout := observationTimeout s;
           checkIntervalId := checkIntervalId s;
           observer := observer s;
           pending := pending s |} in
      match insertQuestionText question with
      | Some _ =>
          if chatInput && sendButton then (startObserving now s, [])
          else (s, [])
      | None => (s, [])
      end
  | Check byObserver doc now =>
      if (if byObserver then observer s else checkIntervalId s)
      then checkForResponse doc now s
      else (s, [])
  | TimeoutFires now =>
      match observationTimeout s with
      | Some due =>
          if (due <=? now)%Z then
            if negb (hasResponded s) then (resetObservation s, [])
            else
              ({| hasResponded := hasResponded s;
                  messageCountAtQuestion := messageCountAtQuestion s;
                  observationStartTime := observationStartTime s;
                  observationTimeout := None;
                  checkIntervalId := checkIntervalId s;
                  observer := observer s;
                  pending := pending s |}, [])
          else (s, [])
      | None => (s, [])
      end
  | SendSettled fulfilled =>
      match pending s with
      | O => (s, [])
      | S n =>
          let s :=
            {| hasResponded := hasResponded s;
               messageCountAtQuestion := messageCountAtQuestion s;
               observationStartTime := observationStartTime s;
               observationTimeout := observationTimeout s;
               checkIntervalId := checkIntervalId s;
               observer := observer s;
               pending := n |} in
          if fulfilled then (resetObservation s, []) else (s, [])
      end
  end.

Fixpoint run (s : State) (evs : list Event) : State * list Emission :=
  match evs with
  | [] => (s, [])
  | ev :: evs' =>
      let '(s1, out1) := step s ev in
      let '(s2, out2) := run s1 evs' in
      (s2, out1 ++ out2)
  end.

Definition isSubmit (ev : Event) : bool :=
  match ev with Submit _ _ _ _ _ => true | _ => false end.

(** The cycle is live: the observer or the interval still calls
    [checkForResponse], and it has not responded. *)
Definition observing (s : State) : bool :=
  (observer s || checkIntervalId s) && negb (hasResponded s).

End DeepSeek.

(* ===================================================================== *)
(** * The background script                                               *)
(* ===================================================================== *)

Module Background.

Import JS.

Local Open Scope Z_scope.

(** A browser tab as [chrome.tabs.query] and [chrome.tabs.get] report
    it. *)
Record Tab : Type := {
  tab_id : Z;
  tab_windowId : Z
}.

(** The variables of the script that these functions use.  (The set
    [injectedTabs], which only [injectContentScript] uses, is with that
    function in module [Handlers].) *)
Record Globals : Type := {
  textbookTabId : option Z;
  aiTabId : option Z;
  aiType : option jsstring;
  lastActiveTabId : option Z;
  processingQuestion : bool;
  textbookWindowId : option Z;
  aiWindowId : option Z;
  currentWebsiteUrl : jsstring
}.

(** [!id] is false: the variable holds a number other than zero. *)
Definition idTruthy (id : option Z) : bool :=
  match id with
  | Some n => negb (n =? 0)
  | None => false
  end.

(** The message objects that the background script sends to tabs. *)
Inductive Message : Type :=
| AlertMessage (message : jsstring)
| ReceiveQuestion (question : Education.QuestionData)
| Ping.

(** What [chrome.storage.sync.get(["websiteUrl", "aiModel"])] yields. *)
Record StorageData : Type := {
  sd_websiteUrl : option jsstring;
  sd_aiModel : option jsstring
}.

(** The calls into the browser, each with the type of its result.  The
    last two are not calls into the browser but starts of other code of
    the script: [InjectContentScript tabId] is [injectContentScript(tabId)]
    called without [await], which starts that function
    ([Handlers.injectContentScript]) and goes on; the calls that the
    started function makes, a ping to the tab among them, are its own
    and are accounted for in module [Injection].  [ScheduleRefocus] arms
    the timer that moves the focus back. *)
Inductive Op : Type -> Type :=
| StorageSyncGet : Op StorageData
| StorageLocalGet : Op (option jsstring)
| StorageSyncSet (websiteUrl : jsstring) : Op unit
| TabsQuery (url : jsstring) : Op (list Tab)
| TabsGet (tabId : Z) : Op Tab
| TabsSendMessage (tabId : Z) (message : Message) : Op value
| TabsUpdateActive (tabId : Z) : Op unit
| WindowsUpdateFocused (windowId : Z) : Op unit
| Sleep (ms : Z) : Op unit
| InjectContentScript (tabId : Z) : Op unit
| ScheduleRefocus : Op unit.

(** An asynchronous function of the script.  Between two suspensions the
    code runs without interruption; at [Await] it is suspended until the
    browser answers, with [None] for a rejected promise (or, for
    [chrome.tabs.sendMessage], for [chrome.runtime.lastError]).  [Call] is
    a call whose result the script does not wait for: what is called is
    started and the function goes on at once. *)
Inductive Prog (A : Type) : Type :=
| Ret (a : A)
| Throw
| Get (k : Globals -> Prog A)
| Put (g : Globals) (k : Prog A)
| Call (op : Op unit) (k : Prog A)
| Await (R : Type) (op : Op R) (k : option R -> Prog A).

Arguments Ret {A} a.
Arguments Throw {A}.
Arguments Get {A} k.
Arguments Put {A} g k.
Arguments Call {A} op k.
Arguments Await {A R} op k.

Fixpoint bind {A B : Type} (p : Prog A) (f : A -> Prog B) : Prog B :=
  match p with
  | Ret a => f a
  | Throw => Throw
  | Get k => Get (fun g => bind (k g) f)
  | Put g k => Put g (bind k f)
  | Call op k => Call op (bind k f)
  | Await op k => Await op (fun r => bind (k r) f)
  end.

(** [try { p } catch (error) { handler }] *)
Fixpoint tryCatch {A : Type} (p : Prog A) (handler : Prog A) : Prog A :=
  match p with
  | Ret a => Ret a
  | Throw => handler
  | Get k => Get (fun g => tryCatch (k g) handler)
  | Put g k => Put g (tryCatch k handler)
  | Call op k => Call op (tryCatch k handler)
  | Await op k => Await op (fun r => tryCatch (k r) handler)
  end.

(** [try { p } finally { fin }] *)
Fixpoint tryFinally {A : Type} (p : Prog A) (fin : Prog unit) : Prog A :=
  match p with
  | Ret a => bind fin (fun _ => Ret a)
  | Throw => bind fin (fun _ => Throw)
  | Get k => Get (fun g => tryFinally (k g) fin)
  | Put g k => Put g (tryFinally k fin)
  | Call op k => Call op (tryFinally k fin)
  | Await op k => Await op (fun r => tryFinally (k r) fin)
  end.

Notation "x <- p ;; k" := (bind p (fun x => k))
  (at level 61, p at next level, right associativity).
Notation "p ;;; k" := (bind p (fun _ => k))
  (at level 61, right associativity).

(** [await op] *)
Definition await {R : Type} (op : Op R) : Prog R :=
  Await op (fun r => match r with Some x => Ret x | None => Throw end).

Definition modify (f : Globals -> Globals) : Prog unit :=
  Get (fun g => Put (f g) (Ret tt)).

Definition setProcessingQuestion (b : bool) (g : Globals) : Globals :=
  {| textbookTabId := textbookTabId g; aiTabId := aiTabId g;
     aiType := aiType g; lastActiveTabId := lastActiveTabId g;
     processingQuestion := b;
     textbookWindowId := textbookWindowId g; aiWindowId := aiWindowId g;
     currentWebsiteUrl := currentWebsiteUrl g |}.

Definition setTextbookTab (id window : option Z) (g : Globals) : Globals :=
  {| textbookTabId := id; aiTabId := aiTabId g;
     aiType := aiType g; lastActiveTabId := lastActiveTabId g;
     processingQuestion := processingQuestion g;
     textbookWindowId := window; aiWindowId := aiWindowId g;
     currentWebsiteUrl := currentWebsiteUrl g |}.

Definition setAiTab (id window : option Z) (g : Globals) : Globals :=
  {| textbookTabId := textbookTabId g; aiTabId := id;
     aiType := aiType g; lastActiveTabId := lastActiveTabId g;
     processingQuestion := processingQuestion g;
     textbookWindowId := textbookWindowId g; aiWindowId := window;
     currentWebsiteUrl := currentWebsiteUrl g |}.

Definition setAiType (t : jsstring) (g : Globals) : Globals :=
  {| textbookTabId := textbookTabId g; aiTabId := aiTabId g;
     aiType := Some t; lastActiveTabId := lastActiveTabId g;
     processingQuestion := processingQuestion g;
     textbookWindowId := textbookWindowId g; aiWindowId := aiWindowId g;
     currentWebsiteUrl := currentWebsiteUrl g |}.

Definition setCurrentWebsiteUrl (u : jsstring) (g : Globals) : Globals :=
  {| textbookTabId := textbookTabId g; aiTabId := aiTabId g;
     aiType := aiType g; lastActiveTabId := lastActiveTabId g;
     processingQuestion := processingQuestion g;
     textbookWindowId := textbookWindowId g; aiWindowId := aiWindowId g;
     currentWebsiteUrl := u |}.

(** [attemptSend] of [sendMessageWithRetry]; [remaining] is the number of
    attempts left after this one. *)
Fixpoint attemptSend (remaining : nat) (tabId : Z) (message : Message)
  (delay : Z) : Prog value :=
  Await (TabsSendMessage tabId message)
    (fun r =>
       match r with
       | Some response => Ret response
       | None =>
           match remaining with
           | O => Throw
           | S n =>
               Await (Sleep delay)
                 (fun _ => attemptSend n tabId message delay)
           end
       end).

(** [sendMessageWithRetry(tabId, message, maxAttempts, delay)].  Without a
    tab id [chrome.tabs.sendMessage] throws and the promise is rejected
    before anything is sent. *)
Definition sendMessageWithRetry (tabId : option Z) (message : Message)
  (maxAttempts : nat) (delay : Z) : Prog value :=
  match tabId with
  | None => Throw
  | Some t => attemptSend (maxAttempts - 1) t message delay
  end.

(** [chrome.windows.WINDOW_ID_CURRENT] *)
Definition WINDOW_ID_CURRENT : Z := -2.

(** [focusTab(tabId)] *)
Definition focusTab (tabId : option Z) : Prog bool :=
  match tabId with
  | None => Ret false
  | Some t =>
      if t =? 0 then Ret false
      else
        tryCatch
          (tab <- await (TabsGet t) ;;
           (if negb (tab_windowId tab =? WINDOW_ID_CURRENT)
            then await (WindowsUpdateFocused (tab_windowId tab))
            else Ret tt) ;;;
           await (TabsUpdateActive t) ;;;
           Ret true)
          (Ret false)
  end.

(** [x || fallback] for a stored string. *)
Definition orElse (x : option jsstring) (fallback : jsstring) : jsstring :=
  match x with
  | Some (c :: r) => c :: r
  | _ => fallback
  end.

Definition textbookPattern (websiteUrl : jsstring) : jsstring :=
  lit "https://learning." ++ websiteUrl ++ lit ".com/*".

(** [aiUrlMap[aiModel]], the three entries of the object literal.  The
    settings page stores one of these three names; a stored name that is
    a property every object inherits (such as constructor) is taken,
    like any other unknown name, to have no entry. *)
Definition aiUrlMap (aiModel : jsstring) : option jsstring :=
  if eqb aiModel (lit "chatgpt") then Some (lit "https://chatgpt.com/*")
  else if eqb aiModel (lit "gemini")
  then Some (lit "https://gemini.google.com/*")
  else if eqb aiModel (lit "deepseek")
  then Some (lit "https://chat.deepseek.com/*")
  else None.

(** [findAndStoreTabs()] *)
Definition findAndStoreTabs : Prog unit :=
  storageData <- await StorageSyncGet ;;
  websiteUrl <-
    match sd_websiteUrl storageData with
    | Some (c :: r) => Ret (Some (c :: r))
    | stored =>
        localData <- await StorageLocalGet ;;
        match localData with
        | Some (c :: r) =>
            Call (StorageSyncSet (c :: r)) (Ret (Some (c :: r)))
        | _ => Ret stored
        end
    end ;;
  modify (setCurrentWebsiteUrl (orElse websiteUrl (lit "textbook"))) ;;;
  g <- Get Ret ;;
  textbookTabs <- await (TabsQuery (textbookPattern (currentWebsiteUrl g))) ;;
  match textbookTabs with
  | tab :: _ =>
      modify (setTextbookTab (Some (tab_id tab)) (Some (tab_windowId tab))) ;;;
      Call (InjectContentScript (tab_id tab)) (Ret tt)
  | [] => Ret tt
  end ;;;
  let aiModel := orElse (sd_aiModel storageData) (lit "chatgpt") in
  modify (setAiType aiModel) ;;;
  match aiUrlMap aiModel with
  | None => Ret tt
  | Some aiUrl =>
      tabs <- await (TabsQuery aiUrl) ;;
      match tabs with
      | [] => Ret tt
      | tab :: _ =>
          modify (setAiTab (Some (tab_id tab)) (Some (tab_windowId tab)))
      end
  end.

Definition optZ_eqb (a b : option Z) : bool :=
  match a, b with
  | Some x, Some y => x =? y
  | None, None => true
  | _, _ => false
  end.

(** [shouldFocusTabs()] *)
Definition shouldFocusTabs : Prog bool :=
  findAndStoreTabs ;;;
  g <- Get Ret ;;
  Ret (optZ_eqb (textbookWindowId g) (aiWindowId g)).

(** The text of a template literal for a variable that may be [null]. *)
Definition show (x : option jsstring) : jsstring :=
  match x with Some t => t | None => lit "null" end.

Definition pleaseOpen (aiType : option jsstring) : jsstring :=
  lit "Please open " ++ show aiType
  ++ lit " in another tab before using automation.".

Definition errorCommunicating (aiType : option jsstring) : jsstring :=
  lit "Error communicating with " ++ show aiType
  ++ lit ". Please make sure it is open in another tab (You may need to refresh the page)".

(** The message that the listener hands to [processQuestion]. *)
Record QuestionMessage : Type := {
  question : Education.QuestionData;
  sourceTabId : option Z
}.

(** [processQuestion(message)] *)
Definition processQuestion (message : QuestionMessage) : Prog unit :=
  g <- Get Ret ;;
  if processingQuestion g then Ret tt
  else
    modify (setProcessingQuestion true) ;;;
    tryFinally
      (tryCatch
         (findAndStoreTabs ;;;
          g <- Get Ret ;;
          if negb (idTruthy (aiTabId g)) then
            sendMessageWithRetry (textbookTabId g)
              (AlertMessage (pleaseOpen (aiType g))) 3 1000 ;;;
            modify (setProcessingQuestion false)
          else
            (if negb (idTruthy (textbookTabId g))
             then modify (setTextbookTab (sourceTabId message)
                                         (textbookWindowId g))
             else Ret tt) ;;;
            sameWindow <- shouldFocusTabs ;;
            (if sameWindow : bool then
               g <- Get Ret ;;
               focusTab (aiTabId g) ;;;
               await (Sleep 300)
             else Ret tt) ;;;
            g <- Get Ret ;;
            sendMessageWithRetry (aiTabId g)
              (ReceiveQuestion (question message)) 3 1000 ;;;
            if negb sameWindow then Ret tt
            else
              g <- Get Ret ;;
              if negb (idTruthy (lastActiveTabId g)) then Ret tt
              else if optZ_eqb (lastActiveTabId g) (aiTabId g) then Ret tt
              else Call ScheduleRefocus (Ret tt))
         (g <- Get Ret ;;
          if negb (idTruthy (textbookTabId g))
          then modify (setProcessingQuestion false)
          else
            sendMessageWithRetry (textbookTabId g)
              (AlertMessage (errorCommunicating (aiType g))) 3 1000 ;;;
            Ret tt))
      (modify (setProcessingQuestion false)).

(** ** Running a function against the browser *)

(** A call that the function made itself.  (The calls of a function that
    it started with [Call] are not among them.) *)
Inductive Action : Type :=
| Did (R : Type) (op : Op R).

(** The browser and the other handlers of the script.  Both may depend on
    everything that happened so far, the history [h] of the calls made:
    [respond] is the answer to an awaited call, and [interfere] is what
    the handlers that run while the function is suspended in that call do
    to the variables. *)
Record World : Type := {
  respond : forall R : Type, list Action -> Op R -> option R;
  interfere : list Action -> Globals -> Globals
}.

(** The run of [p] from the variables [g] after the history [h]: the value
    returned ([None] for an exception that escapes), the variables at the
    end, and the history at the end. *)
Fixpoint exec {A : Type} (w : World) (p : Prog A) (h : list Action)
  (g : Globals) : option A * Globals * list Action :=
  match p with
  | Ret a => (Some a, g, h)
  | Throw => (None, g, h)
  | Get k => exec w (k g) h g
  | Put g' k => exec w k h g'
  | Call op k => exec w k (h ++ [Did op]) g
  | Await op k =>
      exec w (k (respond w h op)) (h ++ [Did op]) (interfere w h g)
  end.

(** The messages that the calls of [h] send to tabs, in order.  An
    injection that [h] starts sends its ping itself, so that the ping is
    not among them: [Injection.allSent] has both. *)
Fixpoint sent (h : list Action) : list (Z * Message) :=
  match h with
  | [] => []
  | Did (TabsSendMessage tabId m) :: h' => (tabId, m) :: sent h'
  | Did _ :: h' => sent h'
  end.

(** A call that neither moves the focus nor arms a timer.  (No call of
    an injection does either: [InjectionSpec.runs].) *)
Definition quiet (a : Action) : bool :=
  match a with
  | Did (TabsUpdateActive _) => false
  | Did (WindowsUpdateFocused _) => false
  | Did (Sleep _) => false
  | Did ScheduleRefocus => false
  | Did _ => true
  end.

End Background.

(* ===================================================================== *)
(** * The answer delay of the textbook content script                     *)
(* ===================================================================== *)

(** The countdown and the timers behind it: [formatCountdown],
    [updateCountdownDisplay], [hideControlButtons], [clearCountdown],
    [skipCurrentDelay], [applyRandomDelayIfEnabled] with
    [sendQuestionIfReady] and [setupDelayTimer], [checkForNextStep], and
    the click handler of the assistant button. *)
Module Countdown.

Import JS.
Import Education.

Local Open Scope Z_scope.

(** [n.toString()] for an integer [n]. *)
Definition toStringZ (n : Z) : jsstring :=
  if n <? 0 then 45%N :: Assistant.decimal (Z.to_nat (- n))
  else Assistant.decimal (Z.to_nat n).

(** [s.padStart(targetLength, pad)] for a [pad] of one code unit. *)
Definition padStart (targetLength : nat) (pad : N) (s : jsstring)
  : jsstring :=
  repeat pad (targetLength - List.length s) ++ s.

(** [formatCountdown(seconds)] for a whole number of seconds:
    [Math.floor] rounds down, [%] takes the sign of [seconds]. *)
Definition formatCountdown (seconds : Z) : jsstring :=
  let minutes := seconds / 60 in
  let remainingSeconds := Z.rem seconds 60 in
  toStringZ minutes ++ [58%N] ++ padStart 2 48%N (toStringZ remainingSeconds).

(** An element of the header: whether it is displayed, and its text. *)
Record Display : Type := {
  d_shown : bool;
  d_text : jsstring
}.

(** The variables of the script that the delay uses, and the part of the
    browser they refer to.  A timer is named by the number that
    [setInterval] or [setTimeout] returned, which is never zero; a promise
    by a number of its own, and [currentDelayResolver] holds the number of
    the promise that it resolves.  [intervals] lists the running
    intervals, each with the [remainingSeconds] of its callback;
    [timeouts] the timeouts that have not fired; [requests] the promises
    whose storage read has not called back; [next] is the next unused
    number. *)
Record State : Type := {
  script : Script;
  countdownTimer : option nat;
  currentDelayTimeout : option nat;
  currentDelayResolver : option nat;
  countdownElement : option Display;
  skipButton : option bool;
  intervals : list (nat * Z);
  timeouts : list nat;
  requests : list nat;
  next : nat
}.

Definition initial : State :=
  {| script := {| isAutomating := false; lastIncorrectQuestion := None;
                  lastCorrectAnswer := None |};
     countdownTimer := None; currentDelayTimeout := None;
     currentDelayResolver := None;
     countdownElement := None; skipButton := None;
     intervals := []; timeouts := []; requests := []; next := 1 |}.

(** What the handlers do besides changing the state. *)
Inductive Output : Type :=
| SendQuestion (qData : QuestionData)  (* sendQuestionToChatGPT *)
| Resolve (promise : nat)
| TypeError                            (* a call of [null] *)
| ClickContinue                        (* [handleTopicOverview] *)
| ClickRead.                           (* [handleForcedLearning] *)

(** The page as the delay handlers read it: [forcedLearning] tells
    whether the container holds a [.forced-learning] element. *)
Record View : Type := {
  page : Page;
  forcedLearning : bool
}.

Definition setAutomating (b : bool) (s : State) : State :=
  {| script := {| isAutomating := b;
                  lastIncorrectQuestion := lastIncorrectQuestion (script s);
                  lastCorrectAnswer := lastCorrectAnswer (script s) |};
     countdownTimer := countdownTimer s;
     currentDelayTimeout := currentDelayTimeout s;
     currentDelayResolver := currentDelayResolver s;
     countdownElement := countdownElement s; skipButton := skipButton s;
     intervals := intervals s; timeouts := timeouts s;
     requests := requests s; next := next s |}.

Definition setCorrection (question : option jsstring)
  (correctAnswer : option answer) (s : State) : State :=
  {| script := {| isAutomating := isAutomating (script s);
                  lastIncorrectQuestion := question;
                  lastCorrectAnswer := correctAnswer |};
     countdownTimer := countdownTimer s;
     currentDelayTimeout := currentDelayTimeout s;
     currentDelayResolver := currentDelayResolver s;
     countdownElement := countdownElement s; skipButton := skipButton s;
     intervals := intervals s; timeouts := timeouts s;
     requests := requests s; next := next s |}.

Definition setElements (c : option Display) (b : option bool) (s : State)
  : State :=
  {| script := script s;
     countdownTimer := countdownTimer s;
     currentDelayTimeout := currentDelayTimeout s;
     currentDelayResolver := currentDelayResolver s;
     countdownElement := c; skipButton := b;
     intervals := intervals s; timeouts := timeouts s;
     requests := requests s; next := next s |}.

Definition setResolver (r : option nat) (s : State) : State :=
  {| script := script s;
     countdownTimer := countdownTimer s;
     currentDelayTimeout := currentDelayTimeout s;
     currentDelayResolver := r;
     countdownElement := countdownElement s; skipButton := skipButton s;
     intervals := intervals s; timeouts := timeouts s;
     requests := requests s; next := next s |}.

(** [updateCountdownDisplay(remainingSeconds)] *)
Definition updateCountdownDisplay (remainingSeconds : Z) (s : State)
  : State :=
  match countdownElement s with
  | None => s
  | Some _ =>
      setElements
        (Some {| d_shown := true;
                 d_text := lit "Answering In "
                           ++ formatCountdown remainingSeconds |})
        (match skipButton s with
         | None => None
         | Some _ => Some true
         end) s
  end.

(** [hideControlButtons()] *)
Definition hideControlButtons (s : State) : State :=
  match skipButton s with
  | None => s
  | Some _ => setElements (countdownElement s) (Some false) s
  end.

(** [clearInterval(countdownTimer); countdownTimer = null]; nothing
    changes when the variable is [null]. *)
Definition clearIntervalTimer (s : State) : State :=
  match countdownTimer s with
  | None => s
  | Some id =>
      {| script := script s;
         countdownTimer := None;
         currentDelayTimeout := currentDelayTimeout s;
         currentDelayResolver := currentDelayResolver s;
         countdownElement := countdownElement s; skipButton := skipButton s;
         intervals :=
           filter (fun t => negb (Nat.eqb (fst t) id)) (intervals s);
         timeouts := timeouts s;
         requests := requests s; next := next s |}
  end.

(** [clearTimeout(currentDelayTimeout); currentDelayTimeout = null];
    nothing changes when the variable is [null]. *)
Definition clearTimeoutTimer (s : State) : State :=
  match currentDelayTimeout s with
  | None => s
  | Some id =>
      {| script := script s;
         countdownTimer := countdownTimer s;
         currentDelayTimeout := None;
         currentDelayResolver := currentDelayResolver s;
         countdownElement := countdownElement s; skipButton := skipButton s;
         intervals := intervals s;
         timeouts := filter (fun t => negb (Nat.eqb t id)) (timeouts s);
         requests := requests s; next := next s |}
  end.

(** [clearCountdown(hideDisplay)] *)
Definition clearCountdown (hideDisplay : bool) (s : State) : State :=
  let s := clearIntervalTimer s in
  let s := clearTimeoutTimer s in
  if negb hideDisplay then setResolver None s
  else
    let s :=
      match countdownElement s with
      | None => s
      | Some d =>
          setElements (Some {| d_shown := false; d_text := d_text d |})
                      (skipButton s) s
      end in
    let s := hideControlButtons s in
    setResolver None s.

(** The test and the message that [skipCurrentDelay] and
    [sendQuestionIfReady] share; the latter sends only while the
    automation runs. *)
Definition sendQuestion (needAutomating : bool) (v : View) (s : State)
  : list Output :=
  match container (page v) with
  | None => []
  | Some c =>
      if forcedLearning v || (needAutomating && negb (isAutomating (script s)))
      then []
      else
        match parseQuestion (script s) (Some c) with
        | Some qData => [SendQuestion qData]
        | None => []
        end
  end.

(** [sendQuestionIfReady()] *)
Definition sendQuestionIfReady (v : View) (s : State) : list Output :=
  sendQuestion true v s.

(** [skipCurrentDelay()] *)
Definition skipCurrentDelay (v : View) (s : State) : State * list Output :=
  let s := clearCountdown false s in
  (s, sendQuestion false v s).

(** [setupDelayTimer(delay, resolve)]: the countdown starts at
    [Math.ceil(delay / 1000)]; the interval and the timeout are given the
    next two numbers. *)
Definition setupDelayTimer (delay : Z) (s : State) : State :=
  let remainingSeconds := - ((- delay) / 1000) in
  let s := updateCountdownDisplay remainingSeconds s in
  {| script := script s;
     countdownTimer := Some (next s);
     currentDelayTimeout := Some (S (next s));
     currentDelayResolver := currentDelayResolver s;
     countdownElement := countdownElement s; skipButton := skipButton s;
     intervals := intervals s ++ [(next s, remainingSeconds)];
     timeouts := timeouts s ++ [S (next s)];
     requests := requests s; next := S (S (next s)) |}.

(** [applyRandomDelayIfEnabled()] up to the storage read: the promise is
    created and its resolver stored; [storage] tells whether
    [chrome.storage.sync] is there. *)
Definition applyRandomDelayIfEnabled (storage : bool) (s : State)
  : State * list Output :=
  let promise := next s in
  let s :=
    {| script := script s;
       countdownTimer := countdownTimer s;
       currentDelayTimeout := currentDelayTimeout s;
       currentDelayResolver := Some promise;
       countdownElement := countdownElement s; skipButton := skipButton s;
       intervals := intervals s; timeouts := timeouts s;
       requests := if storage then requests s ++ [promise] else requests s;
       next := S (next s) |} in
  (s, if storage then [] else [Resolve promise]).

(** The callback of the storage read of the promise [promise]. *)
Definition storageCallback (promise : nat) (lastError : bool)
  (storedMin storedMax : option Z) (random : Q) (v : View) (s : State)
  : State * list Output :=
  if lastError then (s, [Resolve promise])
  else
    match Education.applyRandomDelayIfEnabled random storedMin storedMax with
    | SendNow =>
        let s := clearCountdown true s in
        (s, sendQuestionIfReady v s ++ [Resolve promise])
    | SetupDelayTimer delay =>
        let s := clearCountdown true s in
        (setupDelayTimer delay s, [])
    end.

(** The callback of the countdown interval whose [remainingSeconds] is
    [r] before the call. *)
Definition tick (id : nat) (r : Z) (s : State) : State :=
  let remainingSeconds := r - 1 in
  let s :=
    {| script := script s;
       countdownTimer := countdownTimer s;
       currentDelayTimeout := currentDelayTimeout s;
       currentDelayResolver := currentDelayResolver s;
       countdownElement := countdownElement s; skipButton := skipButton s;
       intervals :=
         map (fun t => if Nat.eqb (fst t) id then (id, remainingSeconds)
                       else t) (intervals s);
       timeouts := timeouts s;
       requests := requests s; next := next s |} in
  let s := updateCountdownDisplay remainingSeconds s in
  if remainingSeconds <=? 0
  then updateCountdownDisplay 0 (clearIntervalTimer s)
  else s.

(** The callback of the delay timeout. *)
Definition delayElapsed (v : View) (s : State) : State * list Output :=
  let resolver := currentDelayResolver s in
  let s := clearIntervalTimer s in
  let s := clearTimeoutTimer s in
  let s := setResolver None s in
  (s, sendQuestionIfReady v s
      ++ [match resolver with
          | Some promise => Resolve promise
          | None => TypeError
          end]).

(** [checkForNextStep()] up to its [await]. *)
Definition checkForNextStep (v : View) (storage : bool) (s : State)
  : State * list Output :=
  if negb (isAutomating (script s)) then (s, [])
  else if handleTopicOverview (page v) then (s, [ClickContinue])
  else if handleForcedLearning (page v) then (s, [ClickRead])
  else
    match container (page v) with
    | None => (s, [])
    | Some _ =>
        if forcedLearning v then (s, [])
        else applyRandomDelayIfEnabled storage s
    end.

(** What happens in the page. *)
Inductive Event : Type :=
| BuildUI               (* the header elements are created *)
| ToggleClick (proceed : bool) (v : View) (storage : bool)
                        (* a click on the assistant button; [proceed] is
                           the answer to [confirm] *)
| NextStep (v : View) (storage : bool)
                        (* a timer calls [checkForNextStep] *)
| StorageCallback (promise : nat) (lastError : bool)
                  (storedMin storedMax : option Z) (random : Q) (v : View)
| Tick (id : nat)       (* the interval [id] fires *)
| TimeoutFires (id : nat) (v : View)
| SkipClick (v : View)
| Answered              (* [processChatGPTResponse] marks the countdown *)
| Corrected (question : option jsstring) (correctAnswer : option answer)
                        (* the answer flow assigns [lastIncorrectQuestion]
                           and [lastCorrectAnswer] *)
| ModelChanged          (* the stored provider changes *)
| AutomationError       (* a wait of the answer flow is rejected *)
| Unload.

(** One event handled to its end.  A callback runs only if the browser
    still holds its timer or its request, a click only on an element that
    exists. *)
Definition step (s : State) (ev : Event) : State * list Output :=
  match ev with
  | BuildUI =>
      match countdownElement s with
      | Some _ => (s, [])
      | None =>
          (setElements (Some {| d_shown := false; d_text := [] |})
                       (Some false) s, [])
      end
  | ToggleClick proceed v storage =>
      match countdownElement s with
      | None => (s, [])
      | Some _ =>
          if isAutomating (script s) then
            let s := setAutomating false s in
            let s := clearCountdown true s in
            (hideControlButtons s, [])
          else if proceed then checkForNextStep v storage (setAutomating true s)
          else (s, [])
      end
  | NextStep v storage => checkForNextStep v storage s
  | StorageCallback promise lastError storedMin storedMax random v =>
      if existsb (Nat.eqb promise) (requests s) then
        let s :=
          {| script := script s;
             countdownTimer := countdownTimer s;
             currentDelayTimeout := currentDelayTimeout s;
             currentDelayResolver := currentDelayResolver s;
             countdownElement := countdownElement s;
             skipButton := skipButton s;
             intervals := intervals s; timeouts := timeouts s;
             requests :=
               filter (fun p => negb (Nat.eqb p promise)) (requests s);
             next := next s |} in
        storageCallback promise lastError storedMin storedMax random v s
      else (s, [])
  | Tick id =>
      match find (fun t => Nat.eqb (fst t) id) (intervals s) with
      | Some (_, r) => (tick id r s, [])
      | None => (s, [])
      end
  | TimeoutFires id v =>
      if existsb (Nat.eqb id) (timeouts s) then
        let s :=
          {| script := script s;
             countdownTimer := countdownTimer s;
             currentDelayTimeout := currentDelayTimeout s;
             currentDelayResolver := currentDelayResolver s;
             countdownElement := countdownElement s;
             skipButton := skipButton s;
             intervals := intervals s;
             timeouts := filter (fun t => negb (Nat.eqb t id)) (timeouts s);
             requests := requests s; next := next s |} in
        delayElapsed v s
      else (s, [])
  | SkipClick v =>
      match skipButton s with
      | None => (s, [])
      | Some _ => skipCurrentDelay v s
      end
  | Answered =>
      match countdownElement s with
      | Some d =>
          if d_shown d
          then (setElements (Some {| d_shown := true;
                                     d_text := lit "Answered" |})
                            (skipButton s) s, [])
          else (s, [])
      | None => (s, [])
      end
  | ModelChanged =>
      match countdownElement s with
      | None => (s, [])
      | Some _ =>
          if isAutomating (script s) then (s, [])
          else (hideControlButtons (clearCountdown true s), [])
      end
  | Corrected question correctAnswer =>
      (setCorrection question correctAnswer s, [])
  | AutomationError => (setAutomating false s, [])
  | Unload => (clearCountdown true s, [])
  end.

(** A sequence of events, and everything done during it. *)
Fixpoint run (s : State) (evs : list Event) : State * list Output :=
  match evs with
  | [] => (s, [])
  | ev :: evs' =>
      let '(s1, out1) := step s ev in
      let '(s2, out2) := run s1 evs' in
      (s2, out1 ++ out2)
  end.

End Countdown.

(** ** The revealed answer *)

(** [extractCorrectAnswer], which reads the correct answer off the page
    once a question is marked incorrect. *)
Module Grading.

Import JS.
Import Education.

Local Open Scope N_scope.

(** [LineTerminator] of ECMAScript: what the dot of a regular expression
    does not match. *)
Definition isLineTerminator (c : N) : bool :=
  (c =? 10) || (c =? 13) || (c =? 8232) || (c =? 8233).

(** The first group of the pattern, colon, white space, one or more
    characters up to the end, when the match starts at a colon that is
    followed by [r].  The white space is taken greedily; the group is
    what follows it, which must be free of line terminators.  When only
    white space follows the colon, the white space gives back its last
    character to the group. *)
Definition afterColon (r : jsstring) : option jsstring :=
  match dropWhile isWhiteSpace r with
  | c :: d =>
      if forallb (fun x => negb (isLineTerminator x)) (c :: d)
      then Some (c :: d) else None
  | [] =>
      match rev r with
      | c :: _ => if isLineTerminator c then None else Some [c]
      | [] => None
      end
  end.

(** The first group of the first match of that pattern in [s]: the
    match starts at the first colon at which it succeeds. *)
Fixpoint colonRest (s : jsstring) : option jsstring :=
  match s with
  | [] => None
  | c :: s' =>
      if c =? 58 then
        match afterColon s' with
        | Some g => Some g
        | None => colonRest s'
        end
      else colonRest s'
  end.

(** An element that reveals an answer: the text of the child that is
    looked for in it, if it has one, and its own text. *)
Record Revealed : Type := {
  r_inner : option jsstring;
  r_textContent : jsstring
}.

(** The page as [extractCorrectAnswer] reads it. *)
Record Feedback : Type := {
  (* [.probe-container]: its type markers and its [.prompt] *)
  probe : Container;
  (* [.awd-probe-correctness.incorrect] *)
  incorrectMarker : bool;
  (* the text of the clone of [.prompt] in which the decoration spans and
     the response containers are removed and every [input.fitb-input] is
     replaced by [BLANK] *)
  promptAnswerText : jsstring;
  (* [.answer-container .choiceText] *)
  answerChoiceText : option jsstring;
  (* [.correct-answer-container]: its [.choiceText] and its [.choice] *)
  correctAnswerContainer : option (option jsstring * option jsstring);
  (* every [.correct-answer-container .choice], with its [.choiceText] *)
  correctChoices : list Revealed;
  (* every [.correct-answers], with its [.correct-answer] *)
  correctAnswers : list Revealed
}.

(** The text after the label of a revealed field:
    [match ? match[1].trim() : answerText]. *)
Definition afterLabel (answerText : jsstring) : jsstring :=
  match colonRest answerText with
  | Some m => trim m
  | None => answerText
  end.

(** The callback of the [map] over several [.correct-answers]. *)
Definition fieldAnswer (field : Revealed) : jsstring :=
  match r_inner field with
  | Some t => trim t
  | None => afterLabel (trim (r_textContent field))
  end.

(** The callback of the [map] over the correct choices. *)
Definition choiceAnswer (el : Revealed) : jsstring :=
  match r_inner el with
  | Some t => trim t
  | None => trim (r_textContent el)
  end.

(** [correctAnswer] when the function reaches its end; [None] stands for
    [null] and for the early [return null]. *)
Definition correctAnswer (questionType : jsstring) (f : Feedback)
  : option answer :=
  if eqb questionType (lit "multiple_choice")
     || eqb questionType (lit "true_false")
  then
    match answerChoiceText f with
    | Some t => Some (AStr (trim t))
    | None =>
        match correctAnswerContainer f with
        | None => None
        | Some (Some t, _) => Some (AStr (trim t))
        | Some (None, Some t) => Some (AStr (trim t))
        | Some (None, None) => None
        end
    end
  else if eqb questionType (lit "multiple_select") then
    match correctChoices f with
    | [] => None
    | l => Some (AArr (map choiceAnswer l))
    end
  else if eqb questionType (lit "fill_in_the_blank") then
    match correctAnswers f with
    | [] => None
    | [one] =>
        match r_inner one with
        | Some t => Some (AStr (trim t))
        | None =>
            match trim (r_textContent one) with
            | [] => None
            | answerText => Some (AStr (afterLabel answerText))
            end
        end
    | l => Some (AArr (map fieldAnswer l))
    end
  else None.

(** [extractCorrectAnswer()]; the page is [None] when it has no
    [.probe-container]. *)
Definition extractCorrectAnswer (page : option Feedback)
  : option CorrectionData :=
  match page with
  | None => None
  | Some f =>
      if negb (incorrectMarker f) then None
      else
        let questionType := questionType (probe f) in
        let questionText :=
          match promptText (probe f) with
          | Some t =>
              if eqb questionType (lit "fill_in_the_blank")
              then trim (promptAnswerText f) else trim t
          | None => []
          end in
        match correctAnswer questionType f with
        | None => None
        | Some a =>
            if eqb questionType (lit "matching") then None
            else Some {| cd_question := questionText;
                         cd_answer := a;
                         cd_type := questionType |}
        end
  end.

End Grading.

(** ** Waiting for an element *)

Module Polling.

(** How the promise of [waitForElement] is settled. *)
Inductive Settled (E : Type) : Type :=
| Resolved (el : E)
| Rejected.

Arguments Rejected {E}.

Local Open Scope Z_scope.

(** [waitForElement(selector, timeout)] started at [startTime].  [polls]
    lists the calls of the interval callback: the time of the call and
    what [document.querySelector(selector)] finds then.  The result is
    [None] while the promise is pending. *)
Fixpoint waitForElement {E : Type} (timeout startTime : Z)
  (polls : list (Z * option E)) : option (Settled E) :=
  match polls with
  | [] => None
  | (now, found) :: rest =>
      match found with
      | Some el => Some (Resolved el)
      | None =>
          if now - startTime >? timeout then Some Rejected
          else waitForElement timeout startTime rest
      end
  end.

End Polling.

(* ===================================================================== *)
(** * The other handlers of the background script                         *)
(* ===================================================================== *)

(** [processResponse], [injectContentScript], [isTextbookUrl],
    [initialize], [injectContentScriptsIntoExistingTabs] and the
    listeners.  They use the functions of module [Background] and a few
    more calls into the browser, and they share the set [injectedTabs]
    with it. *)
Module Handlers.

Import JS.
Import Background.

Local Open Scope Z_scope.

(** The calls into the browser: those of module [Background], the
    delivery of a reply to a tab, the injection of the content script,
    and the opening of a tab. *)
Inductive Request : Type -> Type :=
| Base (R : Type) (op : Op R) : Request R
| SendReply (tabId : Z) (response : jsstring) : Request value
| ExecuteScript (tabId : Z) : Request unit
| TabsCreate (url : jsstring) : Request unit
| StorageSyncGetWebsiteUrl : Request (option jsstring).

Arguments Base {R} op.

(** The variables of the script. *)
Record Vars : Type := {
  globals : Globals;
  injectedTabs : list Z
}.

(** An asynchronous function over these variables and calls; as
    [Background.Prog]. *)
Inductive Task (A : Type) : Type :=
| Done (a : A)
| Fail
| Read (k : Vars -> Task A)
| Write (v : Vars) (k : Task A)
| Fire (op : Request unit) (k : Task A)
| Wait (R : Type) (op : Request R) (k : option R -> Task A).

Arguments Done {A} a.
Arguments Fail {A}.
Arguments Read {A} k.
Arguments Write {A} v k.
Arguments Fire {A} op k.
Arguments Wait {A R} op k.

Fixpoint andThen {A B : Type} (t : Task A) (f : A -> Task B) : Task B :=
  match t with
  | Done a => f a
  | Fail => Fail
  | Read k => Read (fun v => andThen (k v) f)
  | Write v k => Write v (andThen k f)
  | Fire op k => Fire op (andThen k f)
  | Wait op k => Wait op (fun r => andThen (k r) f)
  end.

(** [try { t } catch (error) { handler }] *)
Fixpoint catch {A : Type} (t : Task A) (handler : Task A) : Task A :=
  match t with
  | Done a => Done a
  | Fail => handler
  | Read k => Read (fun v => catch (k v) handler)
  | Write v k => Write v (catch k handler)
  | Fire op k => Fire op (catch k handler)
  | Wait op k => Wait op (fun r => catch (k r) handler)
  end.

Notation "x <~ t ;; k" := (andThen t (fun x => k))
  (at level 61, t at next level, right associativity).
Notation "t ;;~ k" := (andThen t (fun _ => k))
  (at level 61, right associativity).

(** A function of module [Background] run over the variables of this
    module. *)
Fixpoint lift {A : Type} (p : Prog A) : Task A :=
  match p with
  | Ret a => Done a
  | Throw => Fail
  | Get k => Read (fun v => lift (k (globals v)))
  | Put g k =>
      Read (fun v =>
              Write {| globals := g; injectedTabs := injectedTabs v |}
                    (lift k))
  | Call op k => Fire (Base op) (lift k)
  | Await op k => Wait (Base op) (fun r => lift (k r))
  end.

(** [await op] *)
Definition wait {R : Type} (op : Request R) : Task R :=
  Wait op (fun r => match r with Some x => Done x | None => Fail end).

Definition update (f : Vars -> Vars) : Task unit :=
  Read (fun v => Write (f v) (Done tt)).

Definition setGlobals (f : Globals -> Globals) (v : Vars) : Vars :=
  {| globals := f (globals v); injectedTabs := injectedTabs v |}.

(** [injectedTabs.has], [add], [delete] and [clear]. *)
Definition has (tabId : Z) (v : Vars) : bool :=
  existsb (Z.eqb tabId) (injectedTabs v).

Definition add (tabId : Z) (v : Vars) : Vars :=
  {| globals := globals v;
     injectedTabs :=
       if has tabId v then injectedTabs v else injectedTabs v ++ [tabId] |}.

Definition delete (tabId : Z) (v : Vars) : Vars :=
  {| globals := globals v;
     injectedTabs :=
       filter (fun t => negb (Z.eqb t tabId)) (injectedTabs v) |}.

Definition clear (v : Vars) : Vars :=
  {| globals := globals v; injectedTabs := [] |}.

(** [sendMessageWithRetry] for the reply message; [remaining] as in
    [Background.attemptSend]. *)
Fixpoint attemptReply (remaining : nat) (tabId : Z) (response : jsstring)
  (delay : Z) : Task value :=
  Wait (SendReply tabId response)
    (fun r =>
       match r with
       | Some answer => Done answer
       | None =>
           match remaining with
           | O => Fail
           | S n =>
               Wait (Base (Sleep delay))
                 (fun _ => attemptReply n tabId response delay)
           end
       end).

Definition sendReplyWithRetry (tabId : option Z) (response : jsstring)
  (maxAttempts : nat) (delay : Z) : Task value :=
  match tabId with
  | None => Fail
  | Some t => attemptReply (maxAttempts - 1) t response delay
  end.

(** [processResponse(message)] for a message whose [response] is
    [response]. *)
Definition processResponse (response : jsstring) : Task unit :=
  catch
    (v <~ Read Done ;;
     proceed <~
       (if negb (idTruthy (textbookTabId (globals v))) then
          lift findAndStoreTabs ;;~
          v <~ Read Done ;;
          Done (idTruthy (textbookTabId (globals v)))
        else Done true) ;;
     if proceed : bool then
       sameWindow <~ lift shouldFocusTabs ;;
       (if sameWindow : bool then
          v <~ Read Done ;;
          lift (focusTab (textbookTabId (globals v))) ;;~
          wait (Base (Sleep 300))
        else Done tt) ;;~
       v <~ Read Done ;;
       sendReplyWithRetry (textbookTabId (globals v)) response 3 1000 ;;~
       Done tt
     else Done tt)
    (Done tt).

(** [injectContentScript(tabId)] *)
Definition injectContentScript (tabId : Z) : Task unit :=
  catch
    (wait (Base (TabsGet tabId)) ;;~
     v <~ Read Done ;;
     active <~
       (if has tabId v then
          catch
            (lift (sendMessageWithRetry (Some tabId) Ping 1 1000) ;;~
             Done true)
            (update (delete tabId) ;;~ Done false)
        else Done false) ;;
     if active : bool then Done tt
     else
       wait (ExecuteScript tabId) ;;~
       update (add tabId))
    (update (delete tabId)).

(** A tab as a listener is told about it: [hostname] is the host name of
    its URL, [None] when the URL cannot be parsed. *)
Record Sender : Type := {
  s_id : Z;
  s_windowId : Z;
  s_url : jsstring;
  s_hostname : option jsstring
}.

(** [isTextbookUrl(url)] *)
Definition isTextbookUrl (tab : Sender) (g : Globals) : bool :=
  match s_hostname tab with
  | Some hostname =>
      eqb hostname (lit "learning." ++ currentWebsiteUrl g ++ lit ".com")
  | None => false
  end.

Definition recordAssistant (tab : Sender) (name : string) (g : Globals)
  : Globals :=
  setAiType (lit name) (setAiTab (Some (s_id tab)) (Some (s_windowId tab)) g).

(** The listener of [chrome.tabs.onActivated]. *)
Definition onActivated (tabId : Z) (v : Vars) : Vars :=
  setGlobals
    (fun g =>
       {| textbookTabId := textbookTabId g; aiTabId := aiTabId g;
          aiType := aiType g; lastActiveTabId := Some tabId;
          processingQuestion := processingQuestion g;
          textbookWindowId := textbookWindowId g;
          aiWindowId := aiWindowId g;
          currentWebsiteUrl := currentWebsiteUrl g |}) v.

(** The listener of [chrome.tabs.onRemoved]. *)
Definition onRemoved (tabId : Z) (v : Vars) : Vars :=
  let g := globals v in
  let g :=
    if optZ_eqb (Some tabId) (textbookTabId g)
    then setTextbookTab None (textbookWindowId g) g else g in
  let g :=
    if optZ_eqb (Some tabId) (aiTabId g)
    then setAiTab None (aiWindowId g) g else g in
  delete tabId {| globals := g; injectedTabs := injectedTabs v |}.

(** The listener of [chrome.tabs.onUpdated] for a page that has loaded
    completely and has a URL. *)
Definition onUpdated (tab : Sender) : Task unit :=
  v <~ Read Done ;;
  if isTextbookUrl tab (globals v) then
    update (setGlobals (setTextbookTab (Some (s_id tab))
                                       (Some (s_windowId tab)))) ;;~
    injectContentScript (s_id tab)
  else if includes (lit "chatgpt.com") (s_url tab) then
    update (setGlobals (recordAssistant tab "chatgpt"))
  else if includes (lit "gemini.google.com") (s_url tab) then
    update (setGlobals (recordAssistant tab "gemini"))
  else if includes (lit "chat.deepseek.com") (s_url tab) then
    update (setGlobals (recordAssistant tab "deepseek"))
  else Done tt.

(** The messages that the script receives. *)
Inductive Incoming : Type :=
| ContentScriptReady
| SendQuestionToChatGPT (question : Education.QuestionData)
| AssistantResponse (response : jsstring)
                        (* chatGPTResponse, geminiResponse,
                           deepseekResponse *)
| OpenSettings
| UpdateWebsiteUrl (websiteUrl : jsstring)
| Other.

(** What the message listener starts without waiting for it. *)
Inductive Started : Type :=
| StartProcessQuestion (message : QuestionMessage)
| StartProcessResponse (response : jsstring)
| StartInjectContentScript (tabId : Z)
| StartTabsCreate.

(** The part of the message listener that looks at the sender: the
    variables afterwards, and whether the content script is injected. *)
Definition noteSender (message : Incoming) (tab : Sender) (v : Vars)
  : Vars * list Started :=
  let v :=
    match message with
    | ContentScriptReady => add (s_id tab) v
    | _ => v
    end in
  let '(v, started) :=
    if isTextbookUrl tab (globals v)
    then (setGlobals (setTextbookTab (Some (s_id tab))
                                     (Some (s_windowId tab))) v,
          [StartInjectContentScript (s_id tab)])
    else (v, []) in
  let v :=
    if includes (lit "chatgpt.com") (s_url tab)
    then setGlobals (recordAssistant tab "chatgpt") v else v in
  let v :=
    if includes (lit "gemini.google.com") (s_url tab)
    then setGlobals (recordAssistant tab "gemini") v else v in
  let v :=
    if includes (lit "chat.deepseek.com") (s_url tab)
    then setGlobals (recordAssistant tab "deepseek") v else v in
  (v, started).

(** The listener of [chrome.runtime.onMessage]: the variables
    afterwards, what it starts, and the [received] of its answer. *)
Definition onMessage (message : Incoming) (sender : option Sender)
  (v : Vars) : Vars * list Started * bool :=
  let '(v, started) :=
    match sender with
    | Some tab => noteSender message tab v
    | None => (v, [])
    end in
  let sourceTabId :=
    match sender with Some tab => Some (s_id tab) | None => None end in
  match message with
  | SendQuestionToChatGPT q =>
      (v, started ++ [StartProcessQuestion
                        {| question := q; sourceTabId := sourceTabId |}],
       true)
  | AssistantResponse response =>
      (v, started ++ [StartProcessResponse response], true)
  | OpenSettings => (v, started ++ [StartTabsCreate], true)
  | UpdateWebsiteUrl websiteUrl =>
      (clear (setGlobals (setCurrentWebsiteUrl websiteUrl) v), started, true)
  | ContentScriptReady | Other => (v, started, false)
  end.

(** [injectContentScriptsIntoExistingTabs()]: the injections are started
    and not waited for. *)
Definition injectContentScriptsIntoExistingTabs : Task unit :=
  v <~ Read Done ;;
  existingTabs <~
    wait (Base (TabsQuery (textbookPattern (currentWebsiteUrl (globals v))))) ;;
  fold_right
    (fun tab k => Fire (Base (InjectContentScript (tab_id tab))) k)
    (Done tt) existingTabs.

(** [initialize()] *)
Definition initialize : Task unit :=
  syncData <~ wait StorageSyncGetWebsiteUrl ;;
  match syncData with
  | Some (c :: u) =>
      update (setGlobals (setCurrentWebsiteUrl (c :: u))) ;;~
      lift findAndStoreTabs ;;~
      (* started and not awaited; nothing follows it in [initialize], so
         the calls and the variables are the same *)
      injectContentScriptsIntoExistingTabs
  | _ =>
      localData <~ wait (Base StorageLocalGet) ;;
      match localData with
      | Some (c :: u) =>
          Fire (Base (StorageSyncSet (c :: u)))
               (update (setGlobals (setCurrentWebsiteUrl (c :: u))))
      | _ => update (setGlobals (setCurrentWebsiteUrl (lit "textbook")))
      end ;;~
      lift findAndStoreTabs ;;~
      injectContentScriptsIntoExistingTabs
  end.

(** ** Running a task against the browser *)

Inductive Did : Type :=
| Asked (R : Type) (op : Request R).

Record Browser : Type := {
  answer : forall R : Type, list Did -> Request R -> option R;
  meanwhile : list Did -> Vars -> Vars
}.

Fixpoint exec {A : Type} (w : Browser) (t : Task A) (h : list Did)
  (v : Vars) : option A * Vars * list Did :=
  match t with
  | Done a => (Some a, v, h)
  | Fail => (None, v, h)
  | Read k => exec w (k v) h v
  | Write v' k => exec w k h v'
  | Fire op k => exec w k (h ++ [Asked op]) v
  | Wait op k =>
      exec w (k (answer w h op)) (h ++ [Asked op]) (meanwhile w h v)
  end.

End Handlers.

(** ** The injections that a function starts *)

(** [findAndStoreTabs] and [injectContentScriptsIntoExistingTabs] call
    [injectContentScript(tabId)] without [await].  The call starts the
    function and the caller goes on at once; the function started then
    runs on its own, suspended at its awaits like every other handler,
    and its calls into the browser (Handlers.injectContentScript: a
    look at the tab, a ping to it if it is tracked, the injection) are
    its own and appear in no history of the caller.  What a run of the
    script causes is therefore what its own calls do together with what
    the injections do that it starts. *)
Module Injection.

Import JS.
Import Background.
Import Handlers.

(** A message that the script sends to a tab: one of those of module
    [Background], or the reply handed to the textbook tab. *)
Inductive TabMessage : Type :=
| Plain (message : Message)
| Reply (response : jsstring).

(** The messages that the calls of [h] send to tabs, in order. *)
Fixpoint sent (h : list Did) : list (Z * TabMessage) :=
  match h with
  | [] => []
  | Asked (Base (TabsSendMessage tabId m)) :: h' =>
      (tabId, Plain m) :: sent h'
  | Asked (SendReply tabId response) :: h' =>
      (tabId, Reply response) :: sent h'
  | Asked _ :: h' => sent h'
  end.

(** The tabs for which the calls of [h] start [injectContentScript], in
    order. *)
Fixpoint started (h : list Did) : list Z :=
  match h with
  | [] => []
  | Asked (Base (InjectContentScript tabId)) :: h' => tabId :: started h'
  | Asked _ :: h' => started h'
  end.

(** The calls of a function of module [Background] as calls of this
    module. *)
Definition ofBackground (h : list Action) : list Did :=
  map (fun a => match a with Background.Did op => Asked (Base op) end) h.

(** What a started injection meets: the browser, the calls made before
    it goes on, and the variables. *)
Definition Meets : Type := Browser * list Did * Vars.

(** The calls of the injection started for [tabId]. *)
Definition calls (m : Meets) (tabId : Z) : list Did :=
  let '(w, h, v) := m in
  skipn (List.length h) (snd (exec w (injectContentScript tabId) h v)).

(** All the messages that a run with the calls [h] causes: those of its
    own calls, and then those of the injections it starts, of which the
    one started at position [i] meets [meets i].  (The injections run
    interleaved with the caller; that their messages are listed last
    says nothing about the time at which they are sent.) *)
Definition allSent (meets : nat -> Meets) (h : list Did)
  : list (Z * TabMessage) :=
  sent h
  ++ List.concat
       (Education.mapi (fun i tabId => sent (calls (meets i) tabId)) 0
          (started h)).

End Injection.

(* ===================================================================== *)
(** * The settings page                                                   *)
(* ===================================================================== *)

(** The handlers of [settings/script.js] that write what the other
    scripts read: the delay inputs, the turbo mode, and the comparison of
    versions of [checkForUpdates]. *)
Module Settings.

Local Open Scope Z_scope.

(** [x || fallback] for a number [x]; [None] stands for [NaN] and for
    [undefined]. *)
Definition orNumber (x : option Z) (fallback : Z) : Z :=
  match x with
  | Some n => if n =? 0 then fallback else n
  | None => fallback
  end.

(** The keys of [chrome.storage.sync] that the delay settings use; a key
    that is not stored is [None]. *)
Record Stored : Type := {
  minDelay : option Z;
  maxDelay : option Z;
  originalMinDelay : option Z;
  originalMaxDelay : option Z;
  turboMode : option bool
}.

(** The two delay inputs, each as [parseInt] reads its value. *)
Record Inputs : Type := {
  minValue : option Z;
  maxValue : option Z
}.

(** [saveDelayValues(minDelay, maxDelay)] *)
Definition saveDelayValues (minVal maxVal : Z) (st : Stored) : Stored :=
  {| minDelay := Some minVal; maxDelay := Some maxVal;
     originalMinDelay := originalMinDelay st;
     originalMaxDelay := originalMaxDelay st;
     turboMode := turboMode st |}.

(** The [input] listener of either delay input. *)
Definition onInput (i : Inputs) (st : Stored) : Stored :=
  let minVal := orNumber (minValue i) 0 in
  let maxVal := orNumber (maxValue i) 0 in
  saveDelayValues minVal maxVal st.

(** The [blur] listener of either delay input; the [bool] tells whether
    it alerts. *)
Definition onBlur (i : Inputs) (st : Stored) : Inputs * Stored * bool :=
  let minVal := orNumber (minValue i) 0 in
  let maxVal := orNumber (maxValue i) 0 in
  if (minVal <=? 0) || (minVal <=? maxVal) then (i, st, false)
  else
    ({| minValue := minValue i; maxValue := Some minVal |},
     saveDelayValues minVal minVal st, true).


(** [parts[i] || 0] for the parts of a version, each as [Number] reads
    it. *)
Definition part (parts : list (option Z)) (i : nat) : Z :=
  orNumber (nth i parts None) 0.

(** The loop of [checkForUpdates] from position [i], with [n] positions
    to go. *)
Fixpoint newerFrom (n i : nat) (currentVersionParts
  latestVersionParts : list (option Z)) : bool :=
  match n with
  | O => false
  | S n' =>
      let current := part currentVersionParts i in
      let latest := part latestVersionParts i in
      if latest >? current then true
      else if current >? latest then false
      else newerFrom n' (S i) currentVersionParts latestVersionParts
  end.

(** [isUpdateAvailable] at the end of the loop. *)
Definition isUpdateAvailable (currentVersionParts
  latestVersionParts : list (option Z)) : bool :=
  newerFrom (Nat.max (List.length currentVersionParts)
                     (List.length latestVersionParts))
            0 currentVersionParts latestVersionParts.

End Settings.

(* ===================================================================== *)
(** * The website name of the settings page                               *)
(* ===================================================================== *)

(** The part of regular expressions that the validation of the website
    name is written in, matched by backtracking as a regular expression
    engine does. *)
Module Pattern.

Import JS.

Inductive Regex : Type :=
| Class (p : N -> bool)            (* a character class *)
| Seq (a b : Regex)                (* a b *)
| Opt (a : Regex)                  (* a? *)
| AtMost (n : nat) (a : Regex).    (* a{0,n} *)

(** [matchK r s k]: [r] matches at the start of [s] and [k] accepts what
    follows the match.  A quantifier is greedy: it tries one more
    instance before it tries to stop. *)
Fixpoint matchK (r : Regex) (s : jsstring) (k : jsstring -> bool) : bool :=
  match r with
  | Class p =>
      match s with
      | c :: s' => p c && k s'
      | [] => false
      end
  | Seq a b => matchK a s (fun s' => matchK b s' k)
  | Opt a => matchK a s k || k s
  | AtMost n a =>
      (fix rep (n : nat) (s : jsstring) : bool :=
         match n with
         | O => k s
         | S n' => matchK a s (fun s' => rep n' s') || k s
         end) n s
  end.

(** [/^r$/.test(s)] *)
Definition test (r : Regex) (s : jsstring) : bool :=
  matchK r s (fun rest => match rest with [] => true | _ :: _ => false end).

End Pattern.

(** [initializeWebsiteSettings] of [settings/script.js]: the validation
    and the saving of the website name. *)
Module Website.

Import JS.
Import Pattern.

Local Open Scope N_scope.

(** [[a-zA-Z0-9]] *)
Definition alnum (c : N) : bool :=
  ((97 <=? c) && (c <=? 122)) || ((65 <=? c) && (c <=? 90))
  || ((48 <=? c) && (c <=? 57)).

(** [[a-zA-Z0-9-]] *)
Definition alnumHyphen (c : N) : bool :=
  ((97 <=? c) && (c <=? 122)) || ((65 <=? c) && (c <=? 90))
  || ((48 <=? c) && (c <=? 57)) || (c =? 45).

(** [subdomainRegex] without its anchors. *)
Definition subdomainRegex : Regex :=
  Seq (Class alnum)
      (Opt (Seq (AtMost 61 (Class alnumHyphen)) (Class alnum))).

(** What the handlers do. *)
Inductive Effect : Type :=
| StorageLocalSet (websiteUrl : jsstring)
| StorageSyncSet (websiteUrl : jsstring)
| Alert (text : jsstring)
| ShowSaved                 (* the button reads Saved! for two seconds *)
| SendUpdateWebsiteUrl (websiteUrl : jsstring).

(** [saveWebsiteUrlWithValidation(websiteUrl, showVisualFeedback)] with
    the callback of the write to sync storage; [lastError] tells whether
    that write failed. *)
Definition saveWebsiteUrlWithValidation (websiteUrl : jsstring)
  (showVisualFeedback : bool) (lastError : bool) : bool * list Effect :=
  let trimmedUrl := trim websiteUrl in
  match trimmedUrl with
  | [] => (false, [])
  | _ :: _ =>
      if negb (test subdomainRegex trimmedUrl) then (false, [])
      else
        (true,
         [StorageLocalSet trimmedUrl; StorageSyncSet trimmedUrl]
         ++ (if lastError then
               if showVisualFeedback
               then [Alert (lit "Error saving website URL. Please try again.")]
               else []
             else
               (if showVisualFeedback then [ShowSaved] else [])
               ++ [SendUpdateWebsiteUrl trimmedUrl]))
  end.

(** The [click] listener of the save button; [value] is the value of the
    input. *)
Definition onSaveClick (value : jsstring) (lastError : bool) : list Effect :=
  let websiteUrl := trim value in
  match websiteUrl with
  | [] => [Alert (lit "Please enter a website URL")]
  | _ :: _ =>
      if negb (test subdomainRegex websiteUrl)
      then [Alert (lit "Please enter a valid subdomain (e.g., 'textbook' for learning.textbook.com)")]
      else snd (saveWebsiteUrlWithValidation websiteUrl true lastError)
  end.

(** The autosave, one second after the last [input] event. *)
Definition onAutosave (value : jsstring) (lastError : bool) : list Effect :=
  snd (saveWebsiteUrlWithValidation value false lastError).

End Website.

(* ===================================================================== *)
(** * Specifications                                                      *)
(* ===================================================================== *)

(** The words of the specification as definitions of their own, the
    notions the statements below are phrased in, and the concrete pages,
    browsers and replies at which they are instantiated. *)

Import JS.

Unset Implicit Arguments.

Module MatchingSpec.

Import Education.

Local Open Scope N_scope.

(** The specification's words: [stripped o s] says that [s] is [o] with
    one trailing period stripped, which is [o] itself when [o] does not
    end in a period. *)
Inductive stripped : jsstring -> jsstring -> Prop :=
| stripped_period (s : jsstring) : stripped (s ++ [46]) s
| stripped_same (s : jsstring) :
    (forall t, s <> t ++ [46]) -> stripped s s.

(** The three equality rules of the specification. *)
Definition matches (O A : jsstring) : Prop :=
  O = A
  \/ (exists o a, stripped O o /\ stripped A a /\ o = a)
  \/ O = A ++ [46].

End MatchingSpec.

Module CorrectionSpec.



(** A code unit that [JSON.stringify] writes as it is: neither a control
    character, a quotation mark, a backslash nor a surrogate. *)
Definition plain (c : N) : bool :=
  (32 <=? c)%N && negb (c =? 34)%N && negb (c =? 92)%N
  && negb (isHighSurrogate c) && negb (isLowSurrogate c).


End CorrectionSpec.

Module Selection.

Import Education.

(** An input with its selection state forgotten. *)
Definition skel (c : Choice) : Choice := setChecked false c.

(** [comp later earlier]: the effect of [earlier] followed by [later]. *)
Definition comp (later earlier : bitop) : bitop :=
  match later with
  | Keep => earlier
  | Set1 => Set1
  | Set0 => Set0
  | Flip =>
      match earlier with
      | Keep => Flip
      | Set1 => Set0
      | Set0 => Set1
      | Flip => Keep
      end
  end.

(** What the loop over [idxs] does to the input [target] at position [j],
    read off the inputs [sk] without their selection state. *)
Fixpoint totalOp (answers : list value) (idxs : list nat)
  (sk : list Choice) (j : nat) (target : Choice) : bitop :=
  match idxs with
  | [] => Keep
  | i :: rest =>
      match nth_error sk i with
      | None => totalOp answers rest sk j target
      | Some choice =>
          match wanted answers choice with
          | None => Keep
          | Some true =>
              comp (totalOp answers rest sk j target)
                   (clickEffect choice target (Nat.eqb j i))
          | Some false => totalOp answers rest sk j target
          end
      end
  end.

(** Whether the loop over [idxs] runs to its end. *)
Fixpoint finishes (answers : list value) (idxs : list nat)
  (sk : list Choice) : bool :=
  match idxs with
  | [] => true
  | i :: rest =>
      match nth_error sk i with
      | None => finishes answers rest sk
      | Some choice =>
          match wanted answers choice with
          | None => false
          | Some _ => finishes answers rest sk
          end
      end
  end.

End Selection.

Module GeminiCycle.

(** The [try] block of the observer callback ends in its [catch]:
    [JSON.parse(text)] throws, or reading [answer] of its result does. *)
Definition parseThrows (text : jsstring) : bool :=
  match JSON_parse text with
  | Some parsed =>
      match getField (lit "answer") parsed with
      | Some _ => false
      | None => true
      end
  | None => true
  end.

(** The conditions under which an event ends a live cycle. *)
Definition ends (s : Gemini.State) (ev : Gemini.Event) : Prop :=
  match ev with
  | Gemini.Submit _ _ _ _ _ => False
  | Gemini.Mutation doc now =>
      exists latestMessage,
        last (map Some doc) None = Some latestMessage
        /\ (Gemini.messageCountAtQuestion s < List.length doc)%nat
        /\ (Assistant.parsesWithAnswer
              (Gemini.extractResponseText latestMessage) = true
            \/ (parseThrows (Gemini.extractResponseText latestMessage) = true
                /\ Gemini.mr_cursor latestMessage = false
                /\ Gemini.mr_generating latestMessage = false
                /\ (30000 < now - Gemini.observationStartTime s)%Z
                /\ Assistant.matchAnswerExplanation
                     (trim (Gemini.mr_textContent latestMessage)) <> None))
  | Gemini.TimeoutFires now =>
      exists due, Gemini.observationTimeout s = Some due /\ (due <= now)%Z
  | Gemini.SendSettled fulfilled =>
      fulfilled = true /\ Gemini.pending s <> O
  end.

End GeminiCycle.

(** The three ways the observer callback can end. *)
Inductive GeminiOutcome (doc : Gemini.Document) (now : Z) (s : Gemini.State)
  : Gemini.State * list Assistant.Emission -> Prop :=
| gemini_ignored :
    GeminiOutcome doc now s (s, [])
| gemini_direct (latestMessage : Gemini.ModelResponse) :
    Gemini.hasResponded s = false ->
    last (map Some doc) None = Some latestMessage ->
    (Gemini.messageCountAtQuestion s < List.length doc)%nat ->
    Assistant.parsesWithAnswer (Gemini.extractResponseText latestMessage)
    = true ->
    GeminiOutcome doc now s
      (Gemini.addPending (Gemini.markResponded s),
       [Gemini.geminiResponse (Gemini.extractResponseText latestMessage)])
| gemini_fallback (latestMessage : Gemini.ModelResponse) (m : jsstring) :
    Gemini.hasResponded s = false ->
    last (map Some doc) None = Some latestMessage ->
    (Gemini.messageCountAtQuestion s < List.length doc)%nat ->
    GeminiCycle.parseThrows (Gemini.extractResponseText latestMessage)
    = true ->
    Gemini.mr_cursor latestMessage = false ->
    Gemini.mr_generating latestMessage = false ->
    (30000 < now - Gemini.observationStartTime s)%Z ->
    Assistant.matchAnswerExplanation
      (trim (Gemini.mr_textContent latestMessage)) = Some m ->
    GeminiOutcome doc now s
      (Gemini.resetObservation (Gemini.markResponded s),
       [Gemini.geminiResponse m]).

Module DeepSeekCycle.

(** A reply element that [checkForResponse] answers to: one of its texts
    is accepted by [processResponse], or the grace period is over and its
    text matches the last pattern. *)
Definition answers (now : Z) (s : DeepSeek.State)
  (message : DeepSeek.Message) : Prop :=
  (exists text, In text (DeepSeek.candidates message)
                /\ Assistant.parsesWithAnswer (Assistant.cleanText text)
                   = true)
  \/ ((30000 < now - DeepSeek.observationStartTime s)%Z
      /\ Assistant.matchAnswerExplanation
           (trim (DeepSeek.m_textContent message)) <> None).

(** The conditions under which an event ends a live cycle. *)
Definition ends (s : DeepSeek.State) (ev : DeepSeek.Event) : Prop :=
  match ev with
  | DeepSeek.Submit _ _ _ _ _ => False
  | DeepSeek.Check byObserver doc now =>
      (if byObserver then DeepSeek.observer s
       else DeepSeek.checkIntervalId s) = true
      /\ (DeepSeek.messageCountAtQuestion s
          < List.length (DeepSeek.firstNonEmpty doc))%nat
      /\ exists message,
           In message (skipn (DeepSeek.messageCountAtQuestion s)
                             (DeepSeek.firstNonEmpty doc))
           /\ answers now s message
  | DeepSeek.TimeoutFires now =>
      exists due, DeepSeek.observationTimeout s = Some due /\ (due <= now)%Z
  | DeepSeek.SendSettled fulfilled =>
      fulfilled = true /\ DeepSeek.pending s <> O
  end.

End DeepSeekCycle.

(** The three ways [checkForResponse] can end. *)
Inductive DeepSeekOutcome (messages : list DeepSeek.Message) (now : Z)
  (s : DeepSeek.State) : DeepSeek.State * list Assistant.Emission -> Prop :=
| deepseek_ignored :
    DeepSeekOutcome messages now s (s, [])
| deepseek_direct (message : DeepSeek.Message) (text : jsstring) :
    DeepSeek.hasResponded s = false ->
    In message messages ->
    In text (DeepSeek.candidates message) ->
    Assistant.parsesWithAnswer (Assistant.cleanText text) = true ->
    DeepSeekOutcome messages now s
      (DeepSeek.addPending (DeepSeek.markResponded s),
       [DeepSeek.deepseekResponse (Assistant.cleanText text)])
| deepseek_fallback (message : DeepSeek.Message) (m : jsstring) :
    DeepSeek.hasResponded s = false ->
    In message messages ->
    (30000 < now - DeepSeek.observationStartTime s)%Z ->
    Assistant.matchAnswerExplanation
      (trim (DeepSeek.m_textContent message)) = Some m ->
    DeepSeekOutcome messages now s
      (DeepSeek.resetObservation (DeepSeek.markResponded s),
       [DeepSeek.deepseekResponse m]).

Module CycleSpec.



End CycleSpec.

Module Scenario.

(** The true/false question of the specification's scenario. *)
Definition question : Education.QuestionData :=
  {| Education.q_type := lit "true_false";
     Education.q_question := lit "The sky is blue.";
     Education.q_options := Education.OList [lit "True"; lit "False"];
     Education.q_previousCorrection := None |}.

(** A finished Gemini reply without code block whose text is [text]. *)
Definition reply (text : string) : Gemini.ModelResponse :=
  {| Gemini.mr_codeBlocks := [];
     Gemini.mr_textContent := litq text;
     Gemini.mr_cursor := false;
     Gemini.mr_generating := false |}.

(** The Gemini script right after the question was submitted at time 0
    to a page without earlier replies. *)
Definition submitted : Gemini.State :=
  fst (Gemini.step Gemini.initial
         (Gemini.Submit question [] true true 0)).

(** The DeepSeek script right after the question was submitted at time 0
    to a page without earlier replies. *)
Definition asked : DeepSeek.State :=
  fst (DeepSeek.step DeepSeek.initial
         (DeepSeek.Submit question 0 true true 0)).

(** A reply element of DeepSeek without code block whose text is
    [text]. *)
Definition element (text : string) : DeepSeek.Message :=
  {| DeepSeek.m_blocks := []; DeepSeek.m_textContent := litq text |}.

End Scenario.

Module FlagSpec.

Import Background.

(** [holds p I Q g]: on every run of [p] from [g], whatever the browser
    answers and whatever handlers satisfying [I] do in between, [I] holds
    whenever [p] is suspended and [Q] holds for the result and the
    variables when [p] ends. *)
Fixpoint holds {A : Type} (p : Prog A) (I : Globals -> Prop)
  (Q : option A -> Globals -> Prop) (g : Globals) : Prop :=
  match p with
  | Ret a => Q (Some a) g
  | Throw => Q None g
  | Get k => holds (k g) I Q g
  | Put g' k => holds k I Q g'
  | Call op k => holds k I Q g
  | Await op k => I g /\ forall r g', I g' -> holds (k r) I Q g'
  end.

(** The flag is set: a question is in flight. *)
Definition inFlight (g : Globals) : Prop := processingQuestion g = true.

(** [p] keeps the flag set: started in flight, it is in flight whenever it
    is suspended and when it ends. *)
Definition keeps {A : Type} (p : Prog A) : Prop :=
  forall g, inFlight g -> holds p inFlight (fun _ g' => inFlight g') g.

End FlagSpec.

Module MissingTabSpec.

Import Background.

(** The URL patterns of the three assistants. *)
Definition assistantUrls : list jsstring :=
  [lit "https://chatgpt.com/*"; lit "https://gemini.google.com/*";
   lit "https://chat.deepseek.com/*"].

(** A browser in which no assistant tab is open, the textbook tab is open
    and its content script answers, the storage can be read, and no other
    handler of the background script changes the variables meanwhile. *)
Record calm (w : World) : Prop := {
  no_interference : forall h g, interfere w h g = g;
  storage_sync : forall h, respond w h StorageSyncGet <> None;
  storage_local : forall h, respond w h StorageLocalGet <> None;
  no_assistant_tab :
    forall h url, In url assistantUrls -> respond w h (TabsQuery url) = Some [];
  textbook_open :
    forall h site, exists tab rest,
      respond w h (TabsQuery (textbookPattern site)) = Some (tab :: rest)
      /\ tab_id tab <> 0%Z;
  textbook_listens :
    forall h tabId message, respond w h (TabsSendMessage tabId message) <> None
}.

End MissingTabSpec.

Module BrowserScenario.

Import Background.

Local Open Scope Z_scope.

(** A browser in which the textbook tab 3 is the only tab that matches a
    pattern the script asks for; the content script of a tab answers a
    message exactly when [listens] says so; Gemini is the selected
    provider. *)
Definition answer (listens : Z -> bool) (R : Type) (op : Op R) : option R :=
  match op in Op T return option T with
  | StorageSyncGet =>
      Some {| sd_websiteUrl := Some (lit "textbook");
              sd_aiModel := Some (lit "gemini") |}
  | StorageLocalGet => Some None
  | StorageSyncSet _ => Some tt
  | TabsQuery url =>
      if existsb (eqb url) MissingTabSpec.assistantUrls then Some []
      else Some [{| tab_id := 3; tab_windowId := 1 |}]
  | TabsGet tabId => Some {| tab_id := tabId; tab_windowId := 1 |}
  | TabsSendMessage tabId _ =>
      if listens tabId then Some (VObj [(lit "received", VBool true)])
      else None
  | TabsUpdateActive _ => Some tt
  | WindowsUpdateFocused _ => Some tt
  | Sleep _ => Some tt
  | InjectContentScript _ => Some tt
  | ScheduleRefocus => Some tt
  end.

Definition browser (listens : Z -> bool) : World :=
  {| respond := fun R _ op => answer listens R op;
     interfere := fun _ g => g |}.

(** The background script right after it was loaded. *)
Definition fresh : Globals :=
  {| textbookTabId := None; aiTabId := None; aiType := None;
     lastActiveTabId := None; processingQuestion := false;
     textbookWindowId := None; aiWindowId := None;
     currentWebsiteUrl := lit "textbook" |}.

(** The background script after tab 7, once recorded as the assistant
    tab, was navigated away from the assistant. *)
Definition stale : Globals :=
  {| textbookTabId := Some 3; aiTabId := Some 7;
     aiType := Some (lit "gemini");
     lastActiveTabId := Some 3; processingQuestion := false;
     textbookWindowId := Some 1; aiWindowId := Some 1;
     currentWebsiteUrl := lit "textbook" |}.

Definition message : QuestionMessage :=
  {| question := Scenario.question; sourceTabId := Some 3 |}.

End BrowserScenario.

Module Witness.

(** Two true/false radio buttons, [False] selected. *)
Definition radios : list Education.Choice :=
  [ {| Education.c_kind := Education.Radio;
       Education.c_name := lit "q1";
       Education.c_checked := false;
       Education.c_disabled := false;
       Education.c_label := Some (Some (lit " True ")) |};
    {| Education.c_kind := Education.Radio;
       Education.c_name := lit "q1";
       Education.c_checked := true;
       Education.c_disabled := false;
       Education.c_label := Some (Some (lit " False ")) |} ].

(** The page of the scenario: the question with its two radio buttons. *)
Definition page : Education.Page :=
  {| Education.countdownShown := true;
     Education.overviewButton := None;
     Education.forcedLearningAlert := false;
     Education.readButton := false;
     Education.container :=
       Some {| Education.hasMultipleChoice := false;
               Education.hasTrueFalse := true;
               Education.hasMultipleSelect := false;
               Education.hasFillInTheBlank := false;
               Education.hasMatching := false;
               Education.promptText := Some (lit "The sky is blue.");
               Education.promptBlankText := None;
               Education.choiceTexts := [lit "True"; lit "False"];
               Education.matchPrompts := [];
               Education.matchChoices := [];
               Education.fitbInputs := [];
               Education.choices := radios |} |}.

(** The script while it automates, with a correction pending. *)
Definition script : Education.Script :=
  {| Education.isAutomating := true;
     Education.lastIncorrectQuestion := Some (lit "Capital of France?");
     Education.lastCorrectAnswer := Some (Education.AStr (lit "Paris")) |}.

Definition reply1 : jsstring :=
  litq "{'answer':'True','explanation':'Common knowledge.'}".

Definition reply2 : jsstring :=
  litq "{'answer':['True'],'explanation':'Common knowledge.'}".

End Witness.

Module TextSpec.

Local Open Scope N_scope.

(** [trimmed s]: [s] neither starts nor ends with white space. *)
Definition trimmed (s : jsstring) : Prop :=
  dropWhile isWhiteSpace s = s /\ dropWhile isWhiteSpace (rev s) = rev s.

(** A code unit that the clean-up leaves in a reply: neither a line feed
    nor a zero-width character. *)
Definition plain (c : N) : Prop :=
  c <> 10 /\ ~ (8203 <= c <= 8205) /\ c <> 65279.

End TextSpec.

Module RetrySpec.

Import Background.

(** The calls of [k] attempts to deliver [message] to the tab [tabId]:
    the first attempt, then a pause and an attempt for every retry. *)
Fixpoint trace (tabId : Z) (message : Message) (delay : Z) (k : nat)
  : list Action :=
  match k with
  | O => []
  | S O => [Did (TabsSendMessage tabId message)]
  | S k' =>
      trace tabId message delay k'
      ++ [Did (Sleep delay); Did (TabsSendMessage tabId message)]
  end.

End RetrySpec.

Module Footprint.

Import Background.

(** [only P p]: every call into the browser that [p] can make, on any
    run, satisfies [P]. *)
Fixpoint only {A : Type} (P : forall R : Type, Op R -> Prop) (p : Prog A)
  : Prop :=
  match p with
  | Ret _ => True
  | Throw => True
  | Get k => forall g, only P (k g)
  | Put _ k => only P k
  | Call op k => P _ op /\ only P k
  | Await op k => P _ op /\ forall r, only P (k r)
  end.

(** Every call of the history [h] satisfies [P]. *)
Definition all (P : forall R : Type, Op R -> Prop) (h : list Action)
  : Prop :=
  Forall (fun a => match a with Did op => P _ op end) h.

(** The calls that [processQuestion] makes itself for [message]: the
    messages it sends are the question it was given or one of its two
    alerts, and it pauses for 300 ms or 1000 ms. *)
Definition relays (message : QuestionMessage) (R : Type) (op : Op R)
  : Prop :=
  match op with
  | TabsSendMessage _ m =>
      m = ReceiveQuestion (question message)
      \/ (exists aiType, m = AlertMessage (pleaseOpen aiType))
      \/ (exists aiType, m = AlertMessage (errorCommunicating aiType))
  | Sleep ms => ms = 300%Z \/ ms = 1000%Z
  | _ => True
  end.

(** A call of the tab lookup: a storage read, the copy of the website
    name into sync storage, a tab query, or the start of an injection.
    None of them is the sending of a message, moves the focus or arms a
    timer; what the started injection does is in module [Injection]. *)
Definition lookup (R : Type) (op : Op R) : Prop :=
  match op with
  | StorageSyncGet | StorageLocalGet | StorageSyncSet _ | TabsQuery _
  | InjectContentScript _ => True
  | _ => False
  end.

End Footprint.

Module SelectionSpec.

Import Education.

(** The callback of [choices.forEach] clicks the input at position [i]. *)
Definition wantedAt (answers : list value) (cs : list Choice) (i : nat)
  : bool :=
  match nth_error cs i with
  | Some c =>
      match wanted answers c with
      | Some true => true
      | _ => false
      end
  | None => false
  end.

(** The position of the last input that is clicked, if any is. *)
Definition lastWanted (answers : list value) (cs : list Choice)
  : option nat :=
  last (map Some (filter (wantedAt answers cs) (seq 0 (List.length cs))))
       None.

(** The inputs are the enabled radio buttons of one group. *)
Definition radioGroup (name : jsstring) (cs : list Choice) : Prop :=
  name <> []
  /\ forall c, In c cs ->
       c_kind c = Radio /\ c_disabled c = false /\ c_name c = name.

End SelectionSpec.

Module CountdownSpec.

Import Countdown.

(** Every timer that the browser still holds is the one that the
    script's variable names; so there is at most one of each kind. *)
Definition tidy (s : State) : Prop :=
  (intervals s = []
   \/ exists id r, intervals s = [(id, r)] /\ countdownTimer s = Some id)
  /\ (timeouts s = []
      \/ exists id, timeouts s = [id] /\ currentDelayTimeout s = Some id).

(** The event cancels the delay: the delay is skipped, the automation is
    stopped, the provider changes while the automation is idle, or the
    page is left. *)
Definition cancels (s : State) (ev : Event) : Prop :=
  match ev with
  | SkipClick _ => skipButton s <> None
  | ToggleClick _ _ _ =>
      countdownElement s <> None
      /\ Education.isAutomating (script s) = true
  | ModelChanged =>
      countdownElement s <> None
      /\ Education.isAutomating (script s) = false
  | Unload => True
  | _ => False
  end.

(** A timer of the delay fires. *)
Definition isTimer (ev : Event) : bool :=
  match ev with
  | Tick _ | TimeoutFires _ _ => true
  | _ => false
  end.

(** The settings read from storage are not negative, and the random
    number lies between 0 and 1. *)
Definition sane (ev : Event) : Prop :=
  match ev with
  | StorageCallback _ _ storedMin storedMax random _ =>
      (0 <= random)%Q /\ (random < 1)%Q
      /\ (0 <= match storedMin with Some v => v | None => 22 end)%Z
      /\ (0 <= match storedMax with Some v => v | None => 97 end)%Z
  | _ => True
  end.

(** A text that the countdown element can show. *)
Definition countdownText (t : jsstring) : Prop :=
  t = [] \/ t = lit "Answered"
  \/ exists r, (0 <= r)%Z /\ t = lit "Answering In " ++ formatCountdown r.

(** No timer of the delay is pending. *)
Definition noTimer (s : State) : Prop :=
  intervals s = [] /\ timeouts s = []
  /\ countdownTimer s = None /\ currentDelayTimeout s = None.

(** A running countdown has at least a second left, and the element
    shows a countdown text. *)
Definition good (s : State) : Prop :=
  (forall id r, In (id, r) (intervals s) -> (1 <= r)%Z)
  /\ match countdownElement s with
     | Some d => countdownText (d_text d)
     | None => True
     end.

End CountdownSpec.

Module GradingSpec.

Import Education.

(** No string of the answer has white space at either end. *)
Definition trimmedAnswer (a : answer) : Prop :=
  match a with
  | AStr t => trim t = t
  | AArr l => forall t, In t l -> trim t = t
  end.

(** No string of the answer has white space at either end or contains
    the separator [" or "]. *)
Definition cleanStored (a : answer) : Prop :=
  match a with
  | AStr t => trim t = t /\ includes (lit " or ") t = false
  | AArr l =>
      forall t, In t l -> trim t = t /\ includes (lit " or ") t = false
  end.

(** The question types for which an answer can be revealed. *)
Definition gradedTypes : list jsstring :=
  [lit "multiple_choice"; lit "true_false"; lit "multiple_select";
   lit "fill_in_the_blank"].

End GradingSpec.

Module PollingSpec.

(** A poll that finds nothing, no later than [timeout] after the
    start. *)
Definition early {E : Type} (timeout startTime : Z) (p : Z * option E)
  : Prop :=
  snd p = None /\ (fst p - startTime <= timeout)%Z.

End PollingSpec.

Module HandlersSpec.

Import Handlers.

(** [holds t I Q v]: as [FlagSpec.holds], for a task. *)
Fixpoint holds {A : Type} (t : Task A) (I : Vars -> Prop)
  (Q : option A -> Vars -> Prop) (v : Vars) : Prop :=
  match t with
  | Done a => Q (Some a) v
  | Fail => Q None v
  | Read k => holds (k v) I Q v
  | Write v' k => holds k I Q v'
  | Fire op k => holds k I Q v
  | Wait op k => I v /\ forall r v', I v' -> holds (k r) I Q v'
  end.

(** A question is in flight. *)
Definition inFlight (v : Vars) : Prop :=
  Background.processingQuestion (globals v) = true.

(** The task keeps the flag set: started in flight, it is in flight
    whenever it is suspended and when it ends. *)
Definition keeps {A : Type} (t : Task A) : Prop :=
  forall v, inFlight v -> holds t inFlight (fun _ v' => inFlight v') v.

(** [only P t]: every call into the browser that [t] can make satisfies
    [P]. *)
Fixpoint only {A : Type} (P : forall R : Type, Request R -> Prop)
  (t : Task A) : Prop :=
  match t with
  | Done _ => True
  | Fail => True
  | Read k => forall v, only P (k v)
  | Write _ k => only P k
  | Fire op k => P _ op /\ only P k
  | Wait op k => P _ op /\ forall r, only P (k r)
  end.

(** No exception escapes from [t]. *)
Fixpoint safe {A : Type} (t : Task A) : Prop :=
  match t with
  | Done _ => True
  | Fail => False
  | Read k => forall v, safe (k v)
  | Write _ k => safe k
  | Fire _ k => safe k
  | Wait _ k => forall r, safe (k r)
  end.

(** The calls that [processResponse] makes itself for [response]: it
    sends the reply it was handed, and no question or alert.  (An
    injection that it starts is a call [Base (InjectContentScript _)];
    what that injection does is in module [Injection].) *)
Definition relaysReply (response : jsstring) (R : Type) (op : Request R)
  : Prop :=
  match op with
  | SendReply _ r => r = response
  | Base (Background.TabsSendMessage _ _) => False
  | Base (Background.Sleep ms) => ms = 300%Z \/ ms = 1000%Z
  | _ => True
  end.

(** A browser whose answers do not depend on what happened before, and
    in which no other handler runs meanwhile. *)
Definition steady (w : Browser)
  (a : forall R : Type, Request R -> option R) : Prop :=
  (forall R h (op : Request R), answer w h op = a R op)
  /\ (forall h v, meanwhile w h v = v).

Definition isSome {A : Type} (x : option A) : bool :=
  match x with Some _ => true | None => false end.

End HandlersSpec.

Module InjectionSpec.

Import Background.
Import Handlers.

(** The ways in which an injection for the tab [tabId] can go: the tab
    is gone; the tab is tracked and its content script answers the
    ping; the tab is tracked, the ping is not answered and the script is
    injected again; the tab is not tracked and the script is injected. *)
Definition runs (tabId : Z) : list (list Did) :=
  [ [Asked (Base (TabsGet tabId))];
    [Asked (Base (TabsGet tabId));
     Asked (Base (TabsSendMessage tabId Ping))];
    [Asked (Base (TabsGet tabId));
     Asked (Base (TabsSendMessage tabId Ping));
     Asked (ExecuteScript tabId)];
    [Asked (Base (TabsGet tabId)); Asked (ExecuteScript tabId)] ].

(** Nothing, or one ping to [tabId]. *)
Definition atMostAPing (tabId : Z) (l : list (Z * Injection.TabMessage))
  : Prop :=
  l = [] \/ l = [(tabId, Injection.Plain Ping)].

(** The calls of [h] start no injection, or one: for the first tab that
    a query for the textbook found. *)
Definition startsForTextbook (w : World) (h : list Did) : Prop :=
  Injection.started h = []
  \/ exists h0 site tab rest,
       respond w h0 (TabsQuery (textbookPattern site)) = Some (tab :: rest)
       /\ Injection.started h = [tab_id tab].

End InjectionSpec.

Module WebsiteSpec.

Import Website.

Local Open Scope N_scope.

(** A DNS label: 1 to 63 letters, digits and hyphens, with no hyphen at
    either end. *)
Definition label (s : jsstring) : Prop :=
  (1 <= List.length s <= 63)%nat
  /\ (forall c, In c s -> alnumHyphen c = true)
  /\ hd 45 s <> 45 /\ last s 45 <> 45.

(** The website name that an effect stores or sends, if it does. *)
Definition carried (e : Effect) : option jsstring :=
  match e with
  | StorageLocalSet u | StorageSyncSet u | SendUpdateWebsiteUrl u => Some u
  | Alert _ | ShowSaved => None
  end.

End WebsiteSpec.

(** Concrete pages, events and browsers, on which the properties are
    instantiated. *)
Module Samples.

Local Open Scope Z_scope.

(** A reply of Gemini that is spread over three lines. *)
Definition spreadReply : Gemini.ModelResponse :=
  {| Gemini.mr_codeBlocks := [];
     Gemini.mr_textContent :=
       [32; 123; 10; 32; 32]%N ++ litq "'answer':'True'" ++ [10; 125; 32]%N;
     Gemini.mr_cursor := false;
     Gemini.mr_generating := false |}.

(** A reply that holds more than it should after the explanation. *)
Definition longReply : jsstring :=
  litq "Sure: {'answer':'A','explanation':'B'} I hope this helps {:-}".

(** A reply whose answer is a number. *)
Definition numberReply : jsstring := litq "{'answer':42}".

(** The page of the true/false question as the delay handlers read it. *)
Definition view : Countdown.View :=
  {| Countdown.page := Witness.page; Countdown.forcedLearning := false |}.

(** The header is built and the automation is started, so that the delay
    settings are being read. *)
Definition starting : list Countdown.Event :=
  [Countdown.BuildUI; Countdown.ToggleClick true view true].

(** Then the settings arrive, none of them stored, and the delay is
    armed. *)
Definition delaying : list Countdown.Event :=
  starting
  ++ [Countdown.StorageCallback 1 false None None (1 # 2) view].

(** A whole round: the countdown ticks, the delay elapses, the answer
    arrives, and the next delay is skipped. *)
Definition round : list Countdown.Event :=
  delaying
  ++ [Countdown.Tick 2; Countdown.TimeoutFires 3 view; Countdown.Answered;
      Countdown.Corrected None None; Countdown.NextStep view true;
      Countdown.StorageCallback 4 false (Some 1) (Some 1) (1 # 4) view;
      Countdown.Tick 5; Countdown.SkipClick view].

(** A fill in the blank question that was answered incorrectly; the
    page reveals the answer of its only blank behind a label. *)
Definition blank : Education.Container :=
  {| Education.hasMultipleChoice := false;
     Education.hasTrueFalse := false;
     Education.hasMultipleSelect := false;
     Education.hasFillInTheBlank := true;
     Education.hasMatching := false;
     Education.promptText := Some (lit "The capital of France is .");
     Education.promptBlankText :=
       Some (lit "The capital of France is [BLANK].");
     Education.choiceTexts := [];
     Education.matchPrompts := [];
     Education.matchChoices := [];
     Education.fitbInputs := [VStr (lit "Lyon")];
     Education.choices := [] |}.

Definition revealed : Grading.Feedback :=
  {| Grading.probe := blank;
     Grading.incorrectMarker := true;
     Grading.promptAnswerText := lit "The capital of France is [BLANK].";
     Grading.answerChoiceText := None;
     Grading.correctAnswerContainer := None;
     Grading.correctChoices := [];
     Grading.correctAnswers :=
       [{| Grading.r_inner := None;
           Grading.r_textContent :=
             lit " Correct answer: Paris or paris " |}] |}.

(** A browser in which every tab exists, the content script of tab 3
    does not answer, and every other call succeeds. *)
Definition replies (R : Type) (op : Handlers.Request R) : option R :=
  match op in Handlers.Request T return option T with
  | Handlers.Base op => BrowserScenario.answer (fun _ => false) _ op
  | Handlers.SendReply _ _ => Some (VObj [(lit "received", VBool true)])
  | Handlers.ExecuteScript _ => Some tt
  | Handlers.TabsCreate _ => Some tt
  | Handlers.StorageSyncGetWebsiteUrl => Some (Some (lit "textbook"))
  end.

Definition quietBrowser : Handlers.Browser :=
  {| Handlers.answer := fun R _ op => replies R op;
     Handlers.meanwhile := fun _ v => v |}.

(** The background script that has tab 3 in its set of injected tabs. *)
Definition injected : Handlers.Vars :=
  {| Handlers.globals := BrowserScenario.fresh;
     Handlers.injectedTabs := [3] |}.





End Samples.

(* ===================================================================== *)
(** * Properties                                                          *)
(* ===================================================================== *)

(** ** Strings *)

Lemma eqb_eq (a b : jsstring) : eqb a b = true <-> a = b.
Proof.
  revert b; induction a as [|x a IH]; intros [|y b]; simpl;
    try (split; [discriminate | congruence]); try tauto.
  rewrite andb_true_iff, N.eqb_eq, IH. split.
  - intros [-> ->]; reflexivity.
  - intros H; injection H; auto.
Qed.

Lemma eqb_refl (a : jsstring) : eqb a a = true.
Proof. apply eqb_eq; reflexivity. Qed.

Lemma eqb_neq (a b : jsstring) : eqb a b = false <-> a <> b.
Proof.
  rewrite <- eqb_eq. destruct (eqb a b); split; congruence.
Qed.

Example parse_demo :
  JS.JSON_parse (JS.litq "  {'answer': ['a\u0041', 1.50e1, true], 'x': {}} ")
  = Some (JS.VObj [(JS.lit "answer", JS.VArr [JS.VStr (JS.lit "aA"); JS.VNum 150 (-1); JS.VBool true]); (JS.lit "x", JS.VObj [])]).
Proof. vm_compute. reflexivity. Qed.

(** ** Option matching *)

Lemma stripTrailingPeriod_stripped (s : jsstring) :
  MatchingSpec.stripped s (Education.stripTrailingPeriod s).
Proof.
  unfold Education.stripTrailingPeriod.
  destruct (rev s) as [|c r] eqn:E.
  - apply (f_equal (@rev N)) in E. rewrite rev_involutive in E.
    subst s. apply MatchingSpec.stripped_same.
    intros [|x t]; discriminate.
  - apply (f_equal (@rev N)) in E. rewrite rev_involutive in E.
    simpl in E. subst s. destruct (N.eqb_spec c 46) as [->|Hc].
    + apply MatchingSpec.stripped_period.
    + apply MatchingSpec.stripped_same. intros t Ht.
      apply app_inj_tail in Ht. destruct Ht as [_ Ht]. congruence.
Qed.

Lemma stripped_functional (s a b : jsstring) :
  MatchingSpec.stripped s a -> MatchingSpec.stripped s b -> a = b.
Proof.
  intros Ha Hb. destruct Ha as [a | a Hn].
  - remember (a ++ [46%N]) as s eqn:Es.
    destruct Hb as [b | b Hm].
    + apply app_inj_tail in Es. symmetry. apply Es.
    + exfalso. apply (Hm a). exact Es.
  - inversion Hb as [b' Eb | b' Hm Eb]; subst.
    + exfalso. apply (Hn b). reflexivity.
    + reflexivity.
Qed.

Lemma matchesAnswer_iff (O A : jsstring) :
  Education.matchesAnswer O A = true <-> MatchingSpec.matches O A.
Proof.
  unfold Education.matchesAnswer, MatchingSpec.matches.
  destruct (eqb O A) eqn:E1.
  { apply eqb_eq in E1. tauto. }
  destruct (eqb (Education.stripTrailingPeriod O)
                (Education.stripTrailingPeriod A)) eqn:E2.
  { apply eqb_eq in E2. split; [intros _ | reflexivity].
    right; left. exists (Education.stripTrailingPeriod O),
      (Education.stripTrailingPeriod A).
    auto using stripTrailingPeriod_stripped. }
  destruct (eqb O (A ++ [46%N])) eqn:E3.
  { apply eqb_eq in E3. tauto. }
  apply eqb_neq in E1, E2, E3. split; [discriminate|].
  intros [H | [(o & a & Ho & Ha & Hoa) | H]]; try contradiction.
  exfalso. apply E2.
  rewrite (stripped_functional _ _ _ (stripTrailingPeriod_stripped O) Ho).
  rewrite (stripped_functional _ _ _ (stripTrailingPeriod_stripped A) Ha).
  exact Hoa.
Qed.

(** C3.  The predicate that decides whether an option is selected holds
    for the option text [O] and the candidate answer [A] exactly when [O]
    equals [A], or [O] and [A] are equal once one trailing period is
    stripped from each, or [O] is [A] with a period appended; and an
    option is selected exactly when some candidate of the answer list
    matches it in this sense. *)
Theorem option_matching_rules :
  (forall O A : jsstring,
      Education.matchesAnswer O A = true <-> MatchingSpec.matches O A)
  /\ (forall (O : jsstring) (candidates : list jsstring),
         Education.shouldBeSelected O (map VStr candidates) = Some true
         <-> exists A, In A candidates /\ MatchingSpec.matches O A)
  /\ (forall (O : jsstring) (candidates : list jsstring),
         Education.shouldBeSelected O (map VStr candidates) = Some false
         <-> forall A, In A candidates -> ~ MatchingSpec.matches O A).
Proof.
  split; [exact matchesAnswer_iff|].
  assert (Hcases : forall O cs,
             Education.shouldBeSelected O (map VStr cs)
             = Some (existsb (Education.matchesAnswer O) cs)).
  { intros O cs. induction cs as [|A cs IH]; simpl; [reflexivity|].
    destruct (Education.matchesAnswer O A); [reflexivity | exact IH]. }
  split; intros O cs; rewrite Hcases.
  - split.
    + intros H. injection H as H. apply existsb_exists in H.
      destruct H as (A & HA & HM). exists A. split; [exact HA|].
      apply matchesAnswer_iff; exact HM.
    + intros (A & HA & HM). f_equal. apply existsb_exists.
      exists A. split; [exact HA|]. apply matchesAnswer_iff; exact HM.
  - split.
    + intros H A HA HM. injection H as H.
      apply matchesAnswer_iff in HM.
      assert (existsb (Education.matchesAnswer O) cs = true)
        by (apply existsb_exists; eauto).
      congruence.
    + intros H. f_equal.
      destruct (existsb (Education.matchesAnswer O) cs) eqn:E;
        [|reflexivity].
      apply existsb_exists in E. destruct E as (A & HA & HM).
      exfalso. apply (H A HA). apply matchesAnswer_iff; exact HM.
Qed.

(** The third rule is not subsumed by the second: an answer that ends in
    a period matches the option that carries one period more. *)
Example third_rule_only :
  Education.matchesAnswer (lit "x..") (lit "x.") = true
  /\ eqb (Education.stripTrailingPeriod (lit "x.."))
         (Education.stripTrailingPeriod (lit "x.")) = false
  /\ Education.matchesAnswer (lit "x.") (lit "x..") = false.
Proof. vm_compute. auto. Qed.

(** ** Doubles *)

Section DoubleFacts.

Import Double.

Local Open Scope Q_scope.

Lemma pow2_pos (e : Z) : 0 < pow2 e.
Proof. apply Qpower_0_lt. reflexivity. Qed.









Lemma nearestEven_nonneg (x : Q) : 0 <= x -> (0 <= nearestEven x)%Z.
Proof.
  intros H. unfold nearestEven.
  assert (F : (0 <= Qfloor x)%Z).
  { change 0%Z with (Qfloor 0). apply Qfloor_resp_le. exact H. }
  destruct (Qcompare _ _); [destruct (Z.even _)| |]; lia.
Qed.


Lemma roundPositive_nonneg (x : Q) : 0 < x -> 0 <= roundPositive x.
Proof.
  intros H. unfold roundPositive.
  apply Qmult_le_0_compat; [|apply Qlt_le_weak, pow2_pos].
  change 0 with (inject_Z 0). rewrite <- Zle_Qle.
  apply nearestEven_nonneg. apply Qlt_le_weak.
  apply Qlt_shift_div_l; [apply pow2_pos|]. lra.
Qed.


Lemma round_nonneg (x : Q) : 0 <= x -> 0 <= round x.
Proof.
  intros H. unfold round. destruct (Qcompare x 0) eqn:C.
  - apply Qle_refl.
  - apply Qlt_alt in C. lra.
  - apply Qgt_alt in C. apply roundPositive_nonneg. exact C.
Qed.




End DoubleFacts.

(** ** The answer delay *)


(** The delay is not below the smaller bound, whatever is multiplied. *)
Lemma generateRandomDelay_lower (random : Q) (minSeconds maxSeconds : Z) :
  (0 <= random)%Q ->
  (1000 * Z.min minSeconds maxSeconds
   <= Education.generateRandomDelay random minSeconds maxSeconds)%Z.
Proof.
  intros H0.
  assert (Hfloor : forall n, (1 <= n)%Z ->
            (0 <= Qfloor (Double.round (random * inject_Z n)))%Z).
  { intros n Hn. change 0%Z with (Qfloor 0). apply Qfloor_resp_le.
    apply round_nonneg. apply Qmult_le_0_compat; [exact H0|].
    change 0%Q with (inject_Z 0). rewrite <- Zle_Qle. lia. }
  unfold Education.generateRandomDelay.
  destruct ((minSeconds =? 0)%Z && (maxSeconds =? 0)%Z) eqn:E.
  { apply andb_true_iff in E. destruct E as [E1 E2].
    apply Z.eqb_eq in E1, E2. lia. }
  destruct (minSeconds >? maxSeconds)%Z eqn:G.
  - apply Z.gtb_lt in G.
    destruct ((maxSeconds * 1000 =? 0)%Z && (maxSeconds * 1000 =? 0)%Z)
      eqn:E2.
    { apply andb_true_iff in E2. destruct E2 as [E2 _].
      apply Z.eqb_eq in E2. lia. }
    pose proof (Hfloor (maxSeconds * 1000 - maxSeconds * 1000 + 1)%Z).
    lia.
  - rewrite Z.gtb_ltb in G. apply Z.ltb_ge in G.
    destruct ((minSeconds * 1000 =? 0)%Z && (maxSeconds * 1000 =? 0)%Z)
      eqn:E2.
    { apply andb_true_iff in E2. destruct E2 as [E2 E3].
      apply Z.eqb_eq in E2, E3. lia. }
    pose proof (Hfloor (maxSeconds * 1000 - minSeconds * 1000 + 1)%Z).
    lia.
Qed.



(** The rounding of the product shows: at this random number the exact
    product lies just below 40004, the double nearest to it is 40004,
    and the delay is 62004 milliseconds. *)
Example rounded_product_reaches_next_delay :
  let random := (2402127964871526 # 4503599627370496)%Q in
  Double.isDouble random = true
  /\ (Qfloor (random * inject_Z 75001) + 22000 = 62003)%Z
  /\ Education.generateRandomDelay random 22 97 = 62004%Z.
Proof. vm_compute. repeat split; reflexivity. Qed.

(** ** Normalisation of the answer *)

(** C10.  A reply whose [answer] is a single value [v] that is not an
    array (a string in particular) is applied exactly as the reply whose
    [answer] is the one-element array of [v]: the same script variables,
    the same page and the same effects result, whatever the page shows. *)
Theorem answer_normalized_to_array
  (text1 text2 : jsstring) (response1 response2 v : value)
  (s : Education.Script) (p : Education.Page) :
  JSON_parse text1 = Some response1 ->
  JSON_parse text2 = Some response2 ->
  getField (lit "answer") response1 = Some v ->
  isArray v = false ->
  getField (lit "answer") response2 = Some (VArr [v]) ->
  Education.processChatGPTResponse text1 s p
  = Education.processChatGPTResponse text2 s p.
Proof.
  intros P1 P2 A1 Hv A2. unfold Education.processChatGPTResponse.
  rewrite P1, P2. unfold Education.answersOf. rewrite A1, A2.
  destruct v; try discriminate; reflexivity.
Qed.

(** Before any branch on the question type, both replies have become the
    same array. *)
Lemma answersOf_single (response v : value) :
  getField (lit "answer") response = Some v -> isArray v = false ->
  Education.answersOf response = Some [v].
Proof.
  intros A Hv. unfold Education.answersOf. rewrite A.
  destruct v; try discriminate; reflexivity.
Qed.

(** ** Searching a string *)

Lemma stripPrefix_spec (pat s r : jsstring) :
  stripPrefix pat s = Some r <-> s = pat ++ r.
Proof.
  revert s; induction pat as [|p pat IH]; intros s; simpl.
  - split; [intros H; injection H; auto | intros ->; reflexivity].
  - destruct s as [|c s]; [split; discriminate|].
    destruct (N.eqb_spec p c) as [->|Hpc].
    + rewrite IH. split; [intros ->; reflexivity | intros H; injection H; auto].
    + split; [discriminate | intros H; injection H; congruence].
Qed.

Lemma splitAt_sound (pat s a b : jsstring) :
  splitAt pat s = Some (a, b) -> s = a ++ pat ++ b.
Proof.
  revert a; induction s as [|c s IH]; intros a; simpl.
  - destruct (stripPrefix pat []) eqn:E; [|discriminate].
    intros H; injection H as <- <-. apply stripPrefix_spec in E. exact E.
  - destruct (stripPrefix pat (c :: s)) eqn:E.
    + intros H; injection H as <- <-. apply stripPrefix_spec in E. exact E.
    + destruct (splitAt pat s) as [[before after]|]; [|discriminate].
      intros H; injection H as <- <-. simpl. f_equal. apply IH. reflexivity.
Qed.

Lemma splitAt_first (pat s a b : jsstring) :
  splitAt pat s = Some (a, b) ->
  forall a' b', s = a' ++ pat ++ b' -> (List.length a <= List.length a')%nat.
Proof.
  revert a; induction s as [|c s IH]; intros a; simpl.
  - destruct (stripPrefix pat []); [|discriminate].
    intros H; injection H as <- <-. intros; simpl; lia.
  - destruct (stripPrefix pat (c :: s)) eqn:E.
    + intros H; injection H as <- <-. intros; simpl; lia.
    + destruct (splitAt pat s) as [[before after]|] eqn:S; [|discriminate].
      intros H; injection H as <- <-. intros [|x a'] b' Hs.
      * simpl in Hs. apply stripPrefix_spec in Hs. congruence.
      * simpl in Hs. injection Hs as _ Hs. simpl.
        apply le_n_S. apply (IH before eq_refl a' b' Hs).
Qed.

Lemma splitAt_complete (pat s : jsstring) :
  splitAt pat s = None -> forall a b, s <> a ++ pat ++ b.
Proof.
  induction s as [|c s IH]; simpl.
  - destruct (stripPrefix pat []) eqn:E; [discriminate|].
    intros _ [|x a] b Hs; [|discriminate].
    simpl in Hs. apply stripPrefix_spec in Hs. congruence.
  - destruct (stripPrefix pat (c :: s)) eqn:E; [discriminate|].
    destruct (splitAt pat s) as [[before after]|]; [discriminate|].
    intros _ [|x a] b Hs.
    + simpl in Hs. apply stripPrefix_spec in Hs. congruence.
    + simpl in Hs. injection Hs as _ Hs. exact (IH eq_refl a b Hs).
Qed.


Lemma dropWhile_app (p : N -> bool) (a : jsstring) (c : N) (r : jsstring) :
  forallb p a = true -> p c = false -> dropWhile p (a ++ c :: r) = c :: r.
Proof.
  induction a as [|x a IH]; simpl; intros Ha Hc.
  - rewrite Hc. reflexivity.
  - apply andb_true_iff in Ha. destruct Ha as [Hx Ha]. rewrite Hx.
    apply IH; assumption.
Qed.


(** ** The correction context *)






Lemma clearCountdown_script (b : bool) (s : Countdown.State) :
  Countdown.script (Countdown.clearCountdown b s) = Countdown.script s.
Proof.
  unfold Countdown.clearCountdown, Countdown.clearTimeoutTimer,
    Countdown.clearIntervalTimer, Countdown.hideControlButtons.
  destruct (Countdown.countdownTimer s), (Countdown.currentDelayTimeout s),
    b; simpl; try reflexivity;
    destruct (Countdown.countdownElement s); simpl;
    destruct (Countdown.skipButton s); reflexivity.
Qed.






(** ** Selecting the choices *)

Section MapiFacts.

Context {A B C : Type}.

Lemma mapi_length (f : nat -> A -> B) (n : nat) (l : list A) :
  List.length (Education.mapi f n l) = List.length l.
Proof. revert n; induction l; intros n; simpl; [|rewrite IHl]; reflexivity. Qed.

Lemma nth_error_mapi (f : nat -> A -> B) (n : nat) (l : list A) (j : nat) :
  nth_error (Education.mapi f n l) j = option_map (f (n + j)%nat) (nth_error l j).
Proof.
  revert n j; induction l as [|x l IH]; intros n [|j]; simpl; try reflexivity.
  - rewrite Nat.add_0_r. reflexivity.
  - rewrite IH. replace (S n + j)%nat with (n + S j)%nat by lia. reflexivity.
Qed.

Lemma mapi_ext (f g : nat -> A -> B) (n : nat) (l : list A) :
  (forall j x, f j x = g j x) ->
  Education.mapi f n l = Education.mapi g n l.
Proof.
  intros H. revert n; induction l; intros n; simpl; [reflexivity|].
  rewrite H, IHl. reflexivity.
Qed.

Lemma mapi_mapi (f : nat -> B -> C) (g : nat -> A -> B) (n : nat)
  (l : list A) :
  Education.mapi f n (Education.mapi g n l)
  = Education.mapi (fun j x => f j (g j x)) n l.
Proof. revert n; induction l; intros n; simpl; [|rewrite IHl]; reflexivity. Qed.

Lemma map_mapi_invariant (h : B -> C) (k : A -> C) (f : nat -> A -> B)
  (n : nat) (l : list A) :
  (forall j x, h (f j x) = k x) ->
  map h (Education.mapi f n l) = map k l.
Proof.
  intros H. revert n; induction l; intros n; simpl; [reflexivity|].
  rewrite H, IHl. reflexivity.
Qed.

End MapiFacts.

Lemma mapi_id {A : Type} (f : nat -> A -> A) (n : nat) (l : list A) :
  (forall j x, f j x = x) -> Education.mapi f n l = l.
Proof.
  intros H. revert n; induction l; intros n; simpl; [reflexivity|].
  rewrite H, IHl. reflexivity.
Qed.

Lemma applyOp_comp (later earlier : Education.bitop) (b : bool) :
  Education.applyOp (Selection.comp later earlier) b
  = Education.applyOp later (Education.applyOp earlier b).
Proof. destruct later, earlier, b; reflexivity. Qed.

Lemma totalOp_setChecked answers idxs sk j b target :
  Selection.totalOp answers idxs sk j (Education.setChecked b target)
  = Selection.totalOp answers idxs sk j target.
Proof.
  induction idxs as [|i rest IH]; simpl; [reflexivity|].
  destruct (nth_error sk i) as [choice|]; [|exact IH].
  destruct (Education.wanted answers choice) as [[|]|];
    [|exact IH|reflexivity].
  rewrite IH. reflexivity.
Qed.

(** The loop, input by input: every input keeps everything but its
    selection state, which changes as [totalOp] says. *)
Lemma forEachChoice_pointwise answers idxs cs :
  Education.forEachChoice answers idxs cs
  = (Education.mapi
       (fun j c =>
          Education.setChecked
            (Education.applyOp
               (Selection.totalOp answers idxs (map Selection.skel cs) j c)
               (Education.c_checked c)) c) 0 cs,
     Selection.finishes answers idxs (map Selection.skel cs)).
Proof.
  revert cs; induction idxs as [|i rest IH]; intros cs; simpl.
  - f_equal. symmetry. apply mapi_id. intros j [k n c d l]; reflexivity.
  - rewrite nth_error_map.
    destruct (nth_error cs i) as [choice|] eqn:Ei; simpl; [|apply IH].
    change (Education.wanted answers (Selection.skel choice))
      with (Education.wanted answers choice).
    destruct (Education.wanted answers choice) as [[|]|] eqn:Ew.
    + rewrite IH. unfold Education.click. rewrite Ei.
      rewrite mapi_mapi.
      rewrite (map_mapi_invariant Selection.skel Selection.skel)
        by (intros; reflexivity).
      f_equal. apply mapi_ext. intros j c.
      rewrite totalOp_setChecked. simpl.
      rewrite applyOp_comp. reflexivity.
    + apply IH.
    + f_equal. symmetry. apply mapi_id. intros j [k n c d l]; reflexivity.
Qed.

Lemma comp_not_Flip (later earlier : Education.bitop) :
  later <> Education.Flip -> earlier <> Education.Flip ->
  Selection.comp later earlier <> Education.Flip.
Proof. destruct later, earlier; simpl; congruence. Qed.

Lemma applyOp_idempotent (o : Education.bitop) (b : bool) :
  o <> Education.Flip ->
  Education.applyOp o (Education.applyOp o b) = Education.applyOp o b.
Proof. destruct o; simpl; congruence. Qed.

(** No click toggles a radio button. *)
Lemma totalOp_radio answers idxs sk j target :
  nth_error sk j = Some (Selection.skel target) ->
  Education.c_kind target = Education.Radio ->
  Selection.totalOp answers idxs sk j target <> Education.Flip.
Proof.
  intros Hj Hk. induction idxs as [|i rest IH]; simpl; [discriminate|].
  destruct (nth_error sk i) as [choice|] eqn:Ei; [|exact IH].
  destruct (Education.wanted answers choice) as [[|]|];
    [|exact IH|discriminate].
  apply comp_not_Flip; [exact IH|].
  unfold Education.clickEffect.
  destruct (Education.c_disabled choice); [discriminate|].
  destruct (Education.c_kind choice) eqn:Ek.
  - destruct (Nat.eqb j i); [discriminate|].
    destruct (Education.inGroup choice target); discriminate.
  - destruct (Nat.eqb_spec j i) as [->|Hji]; [|discriminate].
    rewrite Hj in Ei. injection Ei as <-. simpl in Ek. congruence.
Qed.

(** A checkbox is toggled by its own click and by no other. *)
Lemma totalOp_checkbox answers idxs sk j target :
  nth_error sk j = Some (Selection.skel target) ->
  Education.c_kind target = Education.Checkbox ->
  NoDup idxs ->
  Selection.finishes answers idxs sk = true ->
  Selection.totalOp answers idxs sk j target
  = if existsb (Nat.eqb j) idxs
    then match Education.wanted answers target with
         | Some true =>
             if Education.c_disabled target then Education.Keep
             else Education.Flip
         | _ => Education.Keep
         end
    else Education.Keep.
Proof.
  intros Hj Hk Hnd. induction idxs as [|i rest IH]; simpl; [reflexivity|].
  inversion Hnd as [|i' rest' Hni Hnd']; subst.
  specialize (IH Hnd').
  assert (Hself : forall choice, nth_error sk i = Some choice -> j = i ->
                    choice = Selection.skel target)
    by (intros choice Hc ->; congruence).
  assert (Hnot : j = i -> existsb (Nat.eqb j) rest = false).
  { intros ->. destruct (existsb (Nat.eqb i) rest) eqn:E; [|reflexivity].
    apply existsb_exists in E. destruct E as (x & Hx & Hix).
    apply Nat.eqb_eq in Hix. subst x. contradiction. }
  destruct (nth_error sk i) as [choice|] eqn:Ei.
  - destruct (Education.wanted answers choice) as [[|]|] eqn:Ew;
      [| |discriminate]; intros Hfin; specialize (IH Hfin).
    + destruct (Nat.eqb_spec j i) as [Hji|Hji]; simpl.
      * rewrite (Hself choice eq_refl Hji) in Ew |- *.
        change (Education.wanted answers (Selection.skel target))
          with (Education.wanted answers target) in Ew.
        rewrite IH, (Hnot Hji), Ew.
        unfold Education.clickEffect. simpl. rewrite Hk.
        destruct (Education.c_disabled target); reflexivity.
      * rewrite IH. unfold Education.clickEffect.
        destruct (Education.c_disabled choice);
          [destruct (existsb _ _); [destruct (Education.wanted _ _) as [[|]|];
             [destruct (Education.c_disabled target)| |]|]; reflexivity|].
        assert (Hg : Education.inGroup choice target = false)
          by (unfold Education.inGroup; rewrite Hk; reflexivity).
        rewrite Hg.
        destruct (Education.c_kind choice);
          (destruct (existsb _ _); [destruct (Education.wanted _ _) as [[|]|];
             [destruct (Education.c_disabled target)| |]|]; reflexivity).
    + destruct (Nat.eqb_spec j i) as [Hji|Hji]; simpl.
      * rewrite (Hself choice eq_refl Hji) in Ew.
        change (Education.wanted answers (Selection.skel target))
          with (Education.wanted answers target) in Ew.
        rewrite IH, (Hnot Hji), Ew. reflexivity.
      * exact IH.
  - intros Hfin. specialize (IH Hfin).
    destruct (Nat.eqb_spec j i) as [Hji|Hji]; simpl; [|exact IH].
    subst j. congruence.
Qed.

Lemma setChecked_same (c : Education.Choice) :
  Education.setChecked (Education.c_checked c) c = c.
Proof. destruct c; reflexivity. Qed.

Lemma existsb_seq (j n : nat) :
  (j < n)%nat -> existsb (Nat.eqb j) (seq 0 n) = true.
Proof.
  intros H. apply existsb_exists. exists j. split.
  - apply in_seq. lia.
  - apply Nat.eqb_refl.
Qed.

(** C4, as the code has it.  When the choice-selection step has run once
    and is run a second time with the same answers, it ends the same way
    and every radio button keeps the selection state it had after the first
    run; a checkbox that the answers select (and that is not disabled) is
    clicked again and so toggled, every other checkbox is left alone. *)
Theorem selection_repeated (answers : list value)
  (cs : list Education.Choice) :
  let first := Education.selectChoices answers cs in
  let second := Education.selectChoices answers (fst first) in
  snd second = snd first
  /\ List.length (fst second) = List.length (fst first)
  /\ forall j c1,
       nth_error (fst first) j = Some c1 ->
       exists c2,
         nth_error (fst second) j = Some c2
         /\ (Education.c_kind c1 = Education.Radio -> c2 = c1)
         /\ (Education.c_kind c1 = Education.Checkbox ->
             snd first = true ->
             c2 = match Education.wanted answers c1 with
                  | Some true =>
                      if Education.c_disabled c1 then c1
                      else Education.setChecked
                             (negb (Education.c_checked c1)) c1
                  | _ => c1
                  end).
Proof.
  unfold Education.selectChoices. cbv zeta.
  rewrite (forEachChoice_pointwise answers (seq 0 (List.length cs)) cs).
  cbn [fst snd].
  set (sk := map Selection.skel cs).
  set (idxs := seq 0 (List.length cs)).
  set (F := fun j c =>
              Education.setChecked
                (Education.applyOp (Selection.totalOp answers idxs sk j c)
                                   (Education.c_checked c)) c).
  rewrite forEachChoice_pointwise. cbn [fst snd].
  repeat rewrite mapi_length. fold idxs.
  assert (Hsk : map Selection.skel (Education.mapi F 0 cs) = sk)
    by (apply map_mapi_invariant; intros; reflexivity).
  rewrite Hsk. fold F.
  split; [reflexivity|]. split; [reflexivity|].
  intros j c1 Hc1. rewrite nth_error_mapi in Hc1 |- *. simpl in Hc1 |- *.
  destruct (nth_error cs j) as [c|] eqn:Ej; [|discriminate].
  simpl in Hc1. injection Hc1 as <-.
  rewrite nth_error_mapi, Ej. simpl.
  eexists. split; [reflexivity|].
  assert (Hskj : nth_error sk j = Some (Selection.skel c))
    by (unfold sk; rewrite nth_error_map, Ej; reflexivity).
  assert (Hlt : (j < List.length cs)%nat)
    by (apply nth_error_Some; congruence).
  set (o := Selection.totalOp answers idxs sk j c).
  assert (HFc : F j c
                = Education.setChecked
                    (Education.applyOp o (Education.c_checked c)) c)
    by reflexivity.
  assert (HFF : F j (F j c)
                = Education.setChecked
                    (Education.applyOp o
                       (Education.applyOp o (Education.c_checked c))) c).
  { unfold F at 1. rewrite HFc, totalOp_setChecked. fold o.
    destruct c; reflexivity. }
  rewrite HFF, HFc. clear HFF HFc. cbn [Education.c_kind Education.setChecked].
  split.
  - intros Hk. unfold o.
    rewrite applyOp_idempotent by (apply totalOp_radio; assumption).
    reflexivity.
  - intros Hk Hfin.
    change (Education.wanted answers
              (Education.setChecked
                 (Education.applyOp o (Education.c_checked c)) c))
      with (Education.wanted answers c).
    cbn [Education.c_disabled Education.c_checked].
    unfold o.
    rewrite (totalOp_checkbox answers idxs sk j c Hskj Hk
               (seq_NoDup _ _) Hfin).
    unfold idxs. rewrite (existsb_seq j _ Hlt).
    destruct (Education.wanted answers c) as [[|]|];
      [destruct (Education.c_disabled c)| |]; reflexivity.
Qed.

(** The claim as stated fails for checkboxes: with the answer [A], the
    checkbox [A] checked and the checkbox [B] unchecked is the state that
    the answer selects, and running the step on it unchecks [A]. *)
Lemma checkbox_selection_not_idempotent :
  let box (text : string) (checked : bool) :=
    {| Education.c_kind := Education.Checkbox;
       Education.c_name := [];
       Education.c_checked := checked;
       Education.c_disabled := false;
       Education.c_label := Some (Some (lit text)) |} in
  let answers := [VStr (lit "A")] in
  let selected := [box "A"%string true; box "B"%string false] in
  Education.selectChoices answers
    [box "A"%string false; box "B"%string false] = (selected, true)
  /\ Education.selectChoices answers selected
     = ([box "A"%string false; box "B"%string false], true)
  /\ fst (Education.selectChoices answers selected) <> selected.
Proof. vm_compute. repeat split; try reflexivity. discriminate. Qed.

(** ** The observation cycle of the Gemini script *)

Lemma parsesWithAnswer_true (text : jsstring) :
  Assistant.parsesWithAnswer text = true <->
  exists parsed a,
    JSON_parse text = Some parsed
    /\ getField (lit "answer") parsed = Some a
    /\ truthy a = true.
Proof.
  unfold Assistant.parsesWithAnswer. split.
  - destruct (JSON_parse text) as [parsed|]; [|discriminate].
    destruct (getField (lit "answer") parsed) as [a|] eqn:Ea;
      [|discriminate].
    intros H. exists parsed, a.
    split; [reflexivity|]. split; [exact Ea | exact H].
  - intros (parsed & a & -> & -> & H). exact H.
Qed.

Lemma parseThrows_not_accepted (text : jsstring) :
  GeminiCycle.parseThrows text = true ->
  Assistant.parsesWithAnswer text = false.
Proof.
  unfold GeminiCycle.parseThrows, Assistant.parsesWithAnswer.
  destruct (JSON_parse text) as [parsed|]; [|reflexivity].
  destruct (getField (lit "answer") parsed); [discriminate | reflexivity].
Qed.

Lemma gemini_fallback_outcome doc now s latestMessage :
  Gemini.hasResponded s = false ->
  last (map Some doc) None = Some latestMessage ->
  (Gemini.messageCountAtQuestion s < List.length doc)%nat ->
  GeminiCycle.parseThrows (Gemini.extractResponseText latestMessage)
  = true ->
  GeminiOutcome doc now s (Gemini.fallback latestMessage now s).
Proof.
  intros Hr Hl Hc Hp. unfold Gemini.fallback.
  destruct (Gemini.mr_cursor latestMessage) eqn:Ecur;
    [apply gemini_ignored|].
  destruct (Gemini.mr_generating latestMessage) eqn:Egen;
    [apply gemini_ignored|].
  simpl.
  destruct (Z.leb_spec (now - Gemini.observationStartTime s) 30000);
    [apply gemini_ignored|].
  destruct (Assistant.matchAnswerExplanation _) as [m|] eqn:Em;
    [|apply gemini_ignored].
  rewrite Hr. simpl.
  eapply gemini_fallback; eassumption.
Qed.

Lemma gemini_callback_outcome doc now s :
  GeminiOutcome doc now s (Gemini.observerCallback doc now s).
Proof.
  unfold Gemini.observerCallback.
  destruct (Gemini.hasResponded s) eqn:Hr; [apply gemini_ignored|].
  destruct (last (map Some doc) None) as [latestMessage|] eqn:Hl;
    [|apply gemini_ignored].
  destruct (Nat.leb_spec (List.length doc) (Gemini.messageCountAtQuestion s))
    as [Hc|Hc]; [apply gemini_ignored|].
  destruct (Assistant.parsesWithAnswer
              (Gemini.extractResponseText latestMessage)) eqn:Hp.
  - pose proof Hp as Hp'. unfold Assistant.parsesWithAnswer in Hp'.
    destruct (JSON_parse (Gemini.extractResponseText latestMessage))
      as [parsed|]; [|discriminate].
    destruct (getField (lit "answer") parsed) as [a|]; [|discriminate].
    rewrite Hp'. simpl.
    eapply gemini_direct; eassumption.
  - pose proof Hp as Hp'. unfold Assistant.parsesWithAnswer in Hp'.
    destruct (JSON_parse (Gemini.extractResponseText latestMessage))
      as [parsed|] eqn:Ep.
    + destruct (getField (lit "answer") parsed) as [a|] eqn:Ea.
      * rewrite Hp'. simpl. apply gemini_ignored.
      * apply gemini_fallback_outcome; try assumption.
        unfold GeminiCycle.parseThrows. rewrite Ep, Ea. reflexivity.
    + apply gemini_fallback_outcome; try assumption.
      unfold GeminiCycle.parseThrows. rewrite Ep. reflexivity.
Qed.


(** ** The observation cycle of the DeepSeek script *)

Lemma answer_truthy_object (parsed a : value) :
  getField (lit "answer") parsed = Some a -> truthy a = true ->
  truthy parsed = true.
Proof.
  destruct parsed; simpl; intros H Ha; try discriminate;
    try (injection H as <-; discriminate); reflexivity.
Qed.

Lemma processResponse_accepts text s s' e :
  DeepSeek.processResponse text s = Some (s', e) ->
  DeepSeek.hasResponded s = false
  /\ s' = DeepSeek.addPending (DeepSeek.markResponded s)
  /\ e = DeepSeek.deepseekResponse (Assistant.cleanText text)
  /\ Assistant.parsesWithAnswer (Assistant.cleanText text) = true.
Proof.
  unfold DeepSeek.processResponse, Assistant.parsesWithAnswer.
  destruct (JSON_parse (Assistant.cleanText text)) as [parsed|];
    [|discriminate].
  destruct (truthy parsed); simpl; [|discriminate].
  destruct (getField (lit "answer") parsed) as [a|]; [|discriminate].
  destruct (truthy a); simpl; [|discriminate].
  destruct (DeepSeek.hasResponded s); [discriminate|].
  intros H; injection H as <- <-. auto.
Qed.

Lemma processResponse_complete text s :
  DeepSeek.hasResponded s = false ->
  Assistant.parsesWithAnswer (Assistant.cleanText text) = true ->
  DeepSeek.processResponse text s
  = Some (DeepSeek.addPending (DeepSeek.markResponded s),
          DeepSeek.deepseekResponse (Assistant.cleanText text)).
Proof.
  intros Hr Hp. apply parsesWithAnswer_true in Hp.
  destruct Hp as (parsed & a & Hparse & Hget & Ha).
  unfold DeepSeek.processResponse. rewrite Hparse.
  rewrite (answer_truthy_object parsed a Hget Ha). simpl.
  rewrite Hget, Ha, Hr. reflexivity.
Qed.

Lemma firstAccepted_some texts s r :
  DeepSeek.firstAccepted texts s = Some r ->
  exists t, In t texts /\ DeepSeek.processResponse t s = Some r.
Proof.
  induction texts as [|t texts IH]; simpl; [discriminate|].
  destruct (DeepSeek.processResponse t s) as [r'|] eqn:E.
  - intros H; injection H as <-. exists t. auto.
  - intros H. destruct (IH H) as (t' & Hin & Ht'). exists t'. auto.
Qed.

Lemma DeepSeekOutcome_cons message messages now s r :
  DeepSeekOutcome messages now s r ->
  DeepSeekOutcome (message :: messages) now s r.
Proof.
  intros [ | m t Hr Hin Ht Hp | m t Hr Hin Ht Hm].
  - apply deepseek_ignored.
  - eapply deepseek_direct; eauto using in_cons.
  - eapply deepseek_fallback; eauto using in_cons.
Qed.

Lemma checkMessages_outcome messages now s :
  DeepSeek.hasResponded s = false ->
  DeepSeekOutcome messages now s (DeepSeek.checkMessages messages now s).
Proof.
  intros Hr. induction messages as [|message rest IH]; simpl.
  - apply deepseek_ignored.
  - destruct (DeepSeek.firstAccepted (DeepSeek.candidates message) s)
      as [[s' e]|] eqn:E.
    + apply firstAccepted_some in E. destruct E as (t & Hin & Ht).
      apply processResponse_accepts in Ht.
      destruct Ht as (_ & -> & -> & Hp).
      eapply deepseek_direct; eauto using in_eq.
    + destruct (Z.leb_spec (now - DeepSeek.observationStartTime s) 30000).
      * apply DeepSeekOutcome_cons. exact IH.
      * destruct (Assistant.matchAnswerExplanation _) as [m|] eqn:Em.
        -- rewrite Hr. eapply deepseek_fallback; eauto using in_eq.
        -- apply DeepSeekOutcome_cons. exact IH.
Qed.

Lemma checkForResponse_outcome doc now s :
  DeepSeekOutcome
    (skipn (DeepSeek.messageCountAtQuestion s) (DeepSeek.firstNonEmpty doc))
    now s (DeepSeek.checkForResponse doc now s).
Proof.
  unfold DeepSeek.checkForResponse.
  destruct (DeepSeek.hasResponded s) eqn:Hr; [apply deepseek_ignored|].
  destruct (Nat.leb _ _); [apply deepseek_ignored|].
  apply checkMessages_outcome. exact Hr.
Qed.


(** ** Runs of events *)




(** ** When a step ends the cycle *)

Lemma gemini_observing_inv (s : Gemini.State) :
  Gemini.observing s = true ->
  Gemini.observer s = true /\ Gemini.hasResponded s = false.
Proof.
  unfold Gemini.observing. intros H. apply andb_true_iff in H.
  destruct H as [Ho Hr]. apply negb_true_iff in Hr. auto.
Qed.

Lemma gemini_direct_step doc now s latestMessage :
  Gemini.hasResponded s = false ->
  last (map Some doc) None = Some latestMessage ->
  (Gemini.messageCountAtQuestion s < List.length doc)%nat ->
  Assistant.parsesWithAnswer (Gemini.extractResponseText latestMessage)
  = true ->
  Gemini.observerCallback doc now s
  = (Gemini.addPending (Gemini.markResponded s),
     [Gemini.geminiResponse (Gemini.extractResponseText latestMessage)]).
Proof.
  intros Hr Hl Hc Hp. unfold Gemini.observerCallback. rewrite Hr, Hl.
  replace (List.length doc <=? Gemini.messageCountAtQuestion s)%nat
    with false by (symmetry; apply Nat.leb_gt; exact Hc).
  unfold Assistant.parsesWithAnswer in Hp.
  destruct (JSON_parse (Gemini.extractResponseText latestMessage))
    as [parsed|]; [|discriminate].
  destruct (getField (lit "answer") parsed) as [a|]; [|discriminate].
  rewrite Hp. reflexivity.
Qed.



Lemma firstAccepted_none texts s :
  DeepSeek.hasResponded s = false ->
  DeepSeek.firstAccepted texts s = None ->
  forall t, In t texts ->
            Assistant.parsesWithAnswer (Assistant.cleanText t) = false.
Proof.
  intros Hr. induction texts as [|t texts IH]; simpl; [contradiction|].
  destruct (DeepSeek.processResponse t s) as [r|] eqn:E; [discriminate|].
  intros Hn t' [<- | Hin]; [|exact (IH Hn t' Hin)].
  destruct (Assistant.parsesWithAnswer (Assistant.cleanText t)) eqn:Ep;
    [|reflexivity].
  rewrite (processResponse_complete t s Hr Ep) in E. discriminate.
Qed.




(** ** The observation cycle: the claims *)





(** ** The grace period *)

Lemma firstAccepted_complete texts s text :
  DeepSeek.hasResponded s = false ->
  In text texts ->
  Assistant.parsesWithAnswer (Assistant.cleanText text) = true ->
  exists text',
    In text' texts
    /\ Assistant.parsesWithAnswer (Assistant.cleanText text') = true
    /\ DeepSeek.firstAccepted texts s
       = Some (DeepSeek.addPending (DeepSeek.markResponded s),
               DeepSeek.deepseekResponse (Assistant.cleanText text')).
Proof.
  intros Hr Hin Hp.
  destruct (DeepSeek.firstAccepted texts s) as [[s' e]|] eqn:E.
  - destruct (firstAccepted_some _ _ _ E) as (t & Ht & Hacc).
    destruct (processResponse_accepts _ _ _ _ Hacc) as (_ & -> & -> & Hpt).
    exists t. auto.
  - rewrite (firstAccepted_none _ _ Hr E text Hin) in Hp. discriminate.
Qed.

(** The loop passes over the reply elements that it does not answer
    to. *)
Lemma checkMessages_skips before messages now s :
  DeepSeek.hasResponded s = false ->
  (forall m, In m before -> ~ DeepSeekCycle.answers now s m) ->
  DeepSeek.checkMessages (before ++ messages) now s
  = DeepSeek.checkMessages messages now s.
Proof.
  intros Hr. induction before as [|m before IH]; intros Hno;
    [reflexivity|]. simpl.
  assert (Hm : ~ DeepSeekCycle.answers now s m) by (apply Hno; left; auto).
  assert (IH' := IH (fun m' H => Hno m' (or_intror H))).
  destruct (DeepSeek.firstAccepted (DeepSeek.candidates m) s)
    as [[s' e]|] eqn:E.
  - exfalso. apply Hm. left.
    apply firstAccepted_some in E. destruct E as (t & Hin & Ht).
    apply processResponse_accepts in Ht. exists t. tauto.
  - destruct (Z.leb_spec (now - DeepSeek.observationStartTime s) 30000);
      [exact IH'|].
    destruct (Assistant.matchAnswerExplanation _) as [m'|] eqn:Em;
      [|exact IH'].
    exfalso. apply Hm. right. split; [lia|]. rewrite Em. discriminate.
Qed.

(** Inside the grace period the loop sends the parsed text of the first
    reply element that has one. *)
Lemma checkMessages_grace messages now s message text :
  DeepSeek.hasResponded s = false ->
  (now - DeepSeek.observationStartTime s <= 30000)%Z ->
  In message messages ->
  In text (DeepSeek.candidates message) ->
  Assistant.parsesWithAnswer (Assistant.cleanText text) = true ->
  exists message' text',
    In message' messages
    /\ In text' (DeepSeek.candidates message')
    /\ Assistant.parsesWithAnswer (Assistant.cleanText text') = true
    /\ snd (DeepSeek.checkMessages messages now s)
       = [DeepSeek.deepseekResponse (Assistant.cleanText text')].
Proof.
  intros Hr Hgrace Hin Ht Hp.
  induction messages as [|m rest IH]; [destruct Hin|]. simpl.
  destruct (DeepSeek.firstAccepted (DeepSeek.candidates m) s)
    as [[s' e]|] eqn:E.
  - apply firstAccepted_some in E. destruct E as (t & Hint & Hacc).
    apply processResponse_accepts in Hacc.
    destruct Hacc as (_ & _ & -> & Hpt).
    exists m, t. simpl. auto.
  - destruct Hin as [-> | Hin].
    + rewrite (firstAccepted_none _ s Hr E text Ht) in Hp. discriminate.
    + destruct (IH Hin) as (m' & t' & Hm' & Ht' & Hp' & Eq).
      apply Z.leb_le in Hgrace. rewrite Hgrace.
      exists m', t'. auto.
Qed.

(** C5, as the code has it.  In both scripts, a reply seen at most 30
    seconds after the start of the observation is passed on only if its
    extracted text parses as JSON with a truthy [answer]: the fallback
    pattern on the raw text sends nothing inside the grace period.  In
    Gemini the latest reply is passed on whenever its extracted text
    parses so and a live cycle sees it.  DeepSeek goes through the new
    reply elements in order and stops at the first that it answers to:
    an element with a text that parses is passed on when the cycle is
    live and no element before it is answered to, at any time; inside the
    grace period, where no element is answered to without such a text,
    the message sent is a parsed text of the first element that has
    one, wherever that element stands. *)
Theorem grace_period :
  (forall (s : Gemini.State) doc (now : Z) e,
      (now - Gemini.observationStartTime s <= 30000)%Z ->
      In e (snd (Gemini.step s (Gemini.Mutation doc now))) ->
      Assistant.parsesWithAnswer (Assistant.e_response e) = true)
  /\ (forall (s : Gemini.State) doc (now : Z) latestMessage,
         Gemini.observing s = true ->
         last (map Some doc) None = Some latestMessage ->
         (Gemini.messageCountAtQuestion s < List.length doc)%nat ->
         Assistant.parsesWithAnswer
           (Gemini.extractResponseText latestMessage) = true ->
         snd (Gemini.step s (Gemini.Mutation doc now))
         = [Gemini.geminiResponse
              (Gemini.extractResponseText latestMessage)])
  /\ (forall (s : DeepSeek.State) byObserver doc (now : Z) e,
         (now - DeepSeek.observationStartTime s <= 30000)%Z ->
         In e (snd (DeepSeek.step s (DeepSeek.Check byObserver doc now))) ->
         Assistant.parsesWithAnswer (Assistant.e_response e) = true)
  /\ (forall (s : DeepSeek.State) (byObserver : bool) doc (now : Z)
             before message rest text,
         (if byObserver then DeepSeek.observer s
          else DeepSeek.checkIntervalId s) = true ->
         DeepSeek.hasResponded s = false ->
         skipn (DeepSeek.messageCountAtQuestion s)
               (DeepSeek.firstNonEmpty doc) = before ++ message :: rest ->
         (forall m, In m before -> ~ DeepSeekCycle.answers now s m) ->
         In text (DeepSeek.candidates message) ->
         Assistant.parsesWithAnswer (Assistant.cleanText text) = true ->
         exists text',
           In text' (DeepSeek.candidates message)
           /\ Assistant.parsesWithAnswer (Assistant.cleanText text') = true
           /\ snd (DeepSeek.step s (DeepSeek.Check byObserver doc now))
              = [DeepSeek.deepseekResponse (Assistant.cleanText text')])
  /\ (forall (s : DeepSeek.State) (byObserver : bool) doc (now : Z)
             message text,
         (if byObserver then DeepSeek.observer s
          else DeepSeek.checkIntervalId s) = true ->
         DeepSeek.hasResponded s = false ->
         (now - DeepSeek.observationStartTime s <= 30000)%Z ->
         In message (skipn (DeepSeek.messageCountAtQuestion s)
                           (DeepSeek.firstNonEmpty doc)) ->
         In text (DeepSeek.candidates message) ->
         Assistant.parsesWithAnswer (Assistant.cleanText text) = true ->
         exists message' text',
           In message' (skipn (DeepSeek.messageCountAtQuestion s)
                              (DeepSeek.firstNonEmpty doc))
           /\ In text' (DeepSeek.candidates message')
           /\ Assistant.parsesWithAnswer (Assistant.cleanText text') = true
           /\ snd (DeepSeek.step s (DeepSeek.Check byObserver doc now))
              = [DeepSeek.deepseekResponse (Assistant.cleanText text')]).
Proof.
  split; [|split; [|split; [|split]]].
  - intros s doc now e Hgrace. simpl.
    destruct (Gemini.observer s); [|contradiction].
    destruct (gemini_callback_outcome doc now s)
      as [ | latestMessage _ _ _ Hp | latestMessage m _ _ _ _ _ _ Hlate _];
      simpl; [contradiction| |lia].
    intros [<- | []]. exact Hp.
  - intros s doc now latestMessage Hobs Hl Hc Hp.
    destruct (gemini_observing_inv s Hobs) as [Ho Hr]. simpl. rewrite Ho.
    rewrite (gemini_direct_step doc now s latestMessage Hr Hl Hc Hp).
    reflexivity.
  - intros s byObserver doc now e Hgrace. simpl.
    destruct (if byObserver then _ else _); [|contradiction].
    destruct (checkForResponse_outcome doc now s)
      as [ | m t _ _ _ Hp | m t _ _ Hlate _]; simpl; [contradiction| |lia].
    intros [<- | []]. exact Hp.
  - intros s byObserver doc now before message rest text Hlive Hr Hskip
      Hno Hin Hp.
    destruct (firstAccepted_complete _ s text Hr Hin Hp)
      as (text' & Hin' & Hp' & Hacc).
    exists text'. split; [exact Hin'|]. split; [exact Hp'|].
    simpl. rewrite Hlive. unfold DeepSeek.checkForResponse. rewrite Hr.
    destruct (Nat.leb_spec (List.length (DeepSeek.firstNonEmpty doc))
                (DeepSeek.messageCountAtQuestion s)) as [Hle|Hgt].
    + rewrite skipn_all2 in Hskip by exact Hle.
      destruct before; discriminate.
    + rewrite Hskip, (checkMessages_skips before _ now s Hr Hno).
      simpl. rewrite Hacc. reflexivity.
  - intros s byObserver doc now message text Hlive Hr Hgrace Hin Ht Hp.
    simpl. rewrite Hlive. unfold DeepSeek.checkForResponse. rewrite Hr.
    destruct (Nat.leb_spec (List.length (DeepSeek.firstNonEmpty doc))
                (DeepSeek.messageCountAtQuestion s)) as [Hle|Hgt].
    + rewrite skipn_all2 in Hin by exact Hle. destruct Hin.
    + exact (checkMessages_grace _ now s message text Hr Hgrace Hin Ht Hp).
Qed.


(** After the grace period it is otherwise: a reply element whose text
    does not parse but matches the fallback pattern, standing before an
    element whose text parses, is answered to first.  Its raw slice is
    sent, the cycle ends, and the text that parses is never passed on;
    up to 30 seconds after the start the same page yields the text that
    parses. *)
Lemma fallback_preempts_parsable_reply :
  let partial := "{'answer': B, 'explanation': x}"%string in
  let whole := "{'answer':'True','explanation':'x'}"%string in
  let doc := [[Scenario.element partial; Scenario.element whole]] in
  DeepSeek.observing Scenario.asked = true
  /\ DeepSeek.candidates (Scenario.element whole) = [litq whole]
  /\ Assistant.parsesWithAnswer (Assistant.cleanText (litq whole)) = true
  /\ JSON_parse (litq partial) = None
  /\ snd (DeepSeek.step Scenario.asked (DeepSeek.Check true doc 31000))
     = [DeepSeek.deepseekResponse (litq partial)]
  /\ DeepSeek.observing
       (fst (DeepSeek.step Scenario.asked (DeepSeek.Check true doc 31000)))
     = false
  /\ snd (DeepSeek.step Scenario.asked (DeepSeek.Check true doc 30000))
     = [DeepSeek.deepseekResponse (litq whole)].
Proof. vm_compute. repeat split; reflexivity. Qed.


(** ** The accepted payload *)

Lemma truthy_cases (a : value) :
  truthy a = true ->
  a <> VUndefined /\ a <> VNull /\ a <> VBool false /\ a <> VStr []
  /\ forall m e, a = VNum m e -> numIsZero m e = false.
Proof.
  intros H. repeat split; try (intros ->; discriminate).
  intros m e ->. simpl in H. apply negb_true_iff in H. exact H.
Qed.

(** C7, as the code has it.  Every message that either script sends
    carries either a text that parses as JSON and whose [answer] is truthy
    (so neither missing, [null], [false], zero nor the empty string), or,
    more than 30 seconds after the start, the slice of the raw text that
    the fallback pattern matches, which is not parsed.  The textbook script
    turns the [answer] of a parsed reply into the list of candidate
    answers: the array itself, or the one value. *)
Theorem accepted_payload :
  (forall (s : Gemini.State) (ev : Gemini.Event) e,
      In e (snd (Gemini.step s ev)) ->
      Assistant.parsesWithAnswer (Assistant.e_response e) = true
      \/ exists doc now latestMessage,
           ev = Gemini.Mutation doc now
           /\ (30000 < now - Gemini.observationStartTime s)%Z
           /\ last (map Some doc) None = Some latestMessage
           /\ Assistant.matchAnswerExplanation
                (trim (Gemini.mr_textContent latestMessage))
              = Some (Assistant.e_response e))
  /\ (forall (s : DeepSeek.State) (ev : DeepSeek.Event) e,
         In e (snd (DeepSeek.step s ev)) ->
         Assistant.parsesWithAnswer (Assistant.e_response e) = true
         \/ exists byObserver doc now message,
              ev = DeepSeek.Check byObserver doc now
              /\ (30000 < now - DeepSeek.observationStartTime s)%Z
              /\ In message (DeepSeek.firstNonEmpty doc)
              /\ Assistant.matchAnswerExplanation
                   (trim (DeepSeek.m_textContent message))
                 = Some (Assistant.e_response e))
  /\ (forall text : jsstring,
         Assistant.parsesWithAnswer text = true ->
         exists parsed a,
           JSON_parse text = Some parsed
           /\ getField (lit "answer") parsed = Some a
           /\ Education.answersOf parsed
              = Some (match a with VArr l => l | _ => [a] end)
           /\ a <> VUndefined /\ a <> VNull /\ a <> VBool false
           /\ a <> VStr []
           /\ forall m e, a = VNum m e -> numIsZero m e = false).
Proof.
  split; [|split].
  - intros s ev e.
    destruct ev as [q doc i b now | doc now | now | fulfilled]; simpl.
    + destruct (Assistant.insertQuestionText q); [destruct (i && b)|];
        contradiction.
    + destruct (Gemini.observer s); [|contradiction].
      destruct (gemini_callback_outcome doc now s)
        as [ | latestMessage _ _ _ Hp
             | latestMessage m _ Hl _ _ _ _ Hlate Hm];
        simpl; [contradiction| |].
      * intros [<- | []]. left. exact Hp.
      * intros [<- | []]. right. exists doc, now, latestMessage. auto.
    + destruct (Gemini.observationTimeout s) as [due|]; [|contradiction].
      destruct (due <=? now)%Z; [|contradiction].
      destruct (negb (Gemini.hasResponded s)); contradiction.
    + destruct (Gemini.pending s); [contradiction|].
      destruct fulfilled; contradiction.
  - intros s ev e.
    destruct ev as [q count i b now | byObserver doc now | now | fulfilled];
      simpl.
    + destruct (Assistant.insertQuestionText q); [destruct (i && b)|];
        contradiction.
    + destruct (if byObserver then _ else _); [|contradiction].
      destruct (checkForResponse_outcome doc now s)
        as [ | m t _ _ _ Hp | m t _ Hin Hlate Hm]; simpl; [contradiction| |].
      * intros [<- | []]. left. exact Hp.
      * intros [<- | []]. right. exists byObserver, doc, now, m.
        split; [reflexivity|]. split; [exact Hlate|].
        split; [|exact Hm].
        clear - Hin. revert Hin.
        generalize (DeepSeek.firstNonEmpty doc).
        generalize (DeepSeek.messageCountAtQuestion s). intros n l.
        rewrite <- (firstn_skipn n l) at 2. intros H.
        apply in_or_app. right. exact H.
    + destruct (DeepSeek.observationTimeout s) as [due|]; [|contradiction].
      destruct (due <=? now)%Z; [|contradiction].
      destruct (negb (DeepSeek.hasResponded s)); contradiction.
    + destruct (DeepSeek.pending s); [contradiction|].
      destruct fulfilled; contradiction.
  - intros text Hp. apply parsesWithAnswer_true in Hp.
    destruct Hp as (parsed & a & Hparse & Hget & Ha).
    exists parsed, a. split; [exact Hparse|]. split; [exact Hget|].
    split; [|exact (truthy_cases a Ha)].
    unfold Education.answersOf. rewrite Hget. destruct a; reflexivity.
Qed.

(** The claim as stated fails: a reply whose [answer] is the empty array
    is accepted and sent on, and leaves the textbook script without any
    candidate answer; and a reply with the single key [answer] is accepted
    as well. *)
Lemma empty_answer_accepted :
  let text1 := "{'answer': [], 'explanation': 'x'}"%string in
  let text2 := "{'answer': 'B'}"%string in
  snd (Gemini.step Scenario.submitted
         (Gemini.Mutation [Scenario.reply text1] 1000))
  = [Gemini.geminiResponse (litq text1)]
  /\ JSON_parse (litq text1)
     = Some (VObj [(lit "answer", VArr []);
                   (lit "explanation", VStr (lit "x"))])
  /\ option_map Education.answersOf (JSON_parse (litq text1))
     = Some (Some [])
  /\ snd (Gemini.step Scenario.submitted
            (Gemini.Mutation [Scenario.reply text2] 1000))
     = [Gemini.geminiResponse (litq text2)]
  /\ JSON_parse (litq text2) = Some (VObj [(lit "answer", VStr (lit "B"))]).
Proof. vm_compute. repeat split; reflexivity. Qed.

(** ** The in-flight flag *)

Section HoldsFacts.

Import Background FlagSpec.

Context {A B : Type}.
Variable I : Globals -> Prop.

Lemma holds_weaken (p : Prog A) (Q Q' : option A -> Globals -> Prop) g :
  (forall r g', Q r g' -> Q' r g') -> holds p I Q g -> holds p I Q' g.
Proof.
  intros HQ. revert g. induction p as [a| |k IH|g' k IH|op k IH|R op k IH];
    intros g; simpl; auto.
  intros [Hg Hk]. split; [exact Hg|]. intros r g1 H1. apply IH. auto.
Qed.

Lemma holds_bind (p : Prog A) (f : A -> Prog B)
  (Q : option B -> Globals -> Prop) g :
  holds p I (fun r g' => match r with
                         | Some a => holds (f a) I Q g'
                         | None => Q None g'
                         end) g ->
  holds (bind p f) I Q g.
Proof.
  revert g. induction p as [a| |k IH|g' k IH|op k IH|R op k IH];
    intros g; simpl; auto.
  intros [Hg Hk]. split; [exact Hg|]. intros r g1 H1. apply IH. auto.
Qed.

Lemma holds_tryCatch (p handler : Prog A)
  (Q : option A -> Globals -> Prop) g :
  holds p I (fun r g' => match r with
                         | Some a => Q (Some a) g'
                         | None => holds handler I Q g'
                         end) g ->
  holds (tryCatch p handler) I Q g.
Proof.
  revert g. induction p as [a| |k IH|g' k IH|op k IH|R op k IH];
    intros g; simpl; auto.
  intros [Hg Hk]. split; [exact Hg|]. intros r g1 H1. apply IH. auto.
Qed.

End HoldsFacts.

Section FinallyFacts.

Import Background FlagSpec.

Context {A : Type}.
Variable I : Globals -> Prop.

Lemma holds_tryFinally (p : Prog A) (fin : Prog unit)
  (Q : option A -> Globals -> Prop) g :
  holds p I (fun r g' =>
               holds fin I (fun r' g'' => match r' with
                                          | Some _ => Q r g''
                                          | None => Q None g''
                                          end) g') g ->
  holds (tryFinally p fin) I Q g.
Proof.
  revert g. induction p as [a| |k IH|g' k IH|op k IH|R op k IH];
    intros g; simpl; auto.
  - intros H. apply holds_bind. revert H. apply holds_weaken.
    intros [u|] g'; auto.
  - intros H. apply holds_bind. revert H. apply holds_weaken.
    intros [u|] g'; auto.
  - intros [Hg Hk]. split; [exact Hg|]. intros r g1 H1. apply IH. auto.
Qed.

(** What [holds] promises is true of every run against a world whose
    handlers respect [I]. *)
Lemma holds_sound (w : World) (p : Prog A)
  (Q : option A -> Globals -> Prop) h g :
  (forall h' g', I g' -> I (interfere w h' g')) ->
  holds p I Q g ->
  Q (fst (fst (exec w p h g))) (snd (fst (exec w p h g))).
Proof.
  intros Hw. revert h g.
  induction p as [a| |k IH|g' k IH|op k IH|R op k IH];
    intros h g; simpl; auto.
  intros [Hg Hk]. apply IH. apply Hk. apply Hw. exact Hg.
Qed.

End FinallyFacts.

Section KeepsFacts.

Import Background FlagSpec.

Context {A B : Type}.

Lemma keeps_ret (a : A) : keeps (Ret a).
Proof. intros g Hg. exact Hg. Qed.

Lemma keeps_throw : keeps (@Throw A).
Proof. intros g Hg. exact Hg. Qed.

Lemma keeps_get (k : Globals -> Prog A) :
  (forall g, keeps (k g)) -> keeps (Get k).
Proof. intros H g Hg. simpl. apply H. exact Hg. Qed.

Lemma keeps_call (op : Op unit) (k : Prog A) : keeps k -> keeps (Call op k).
Proof. intros H g Hg. simpl. apply H. exact Hg. Qed.

Lemma keeps_await (op : Op A) : keeps (await op).
Proof.
  intros g Hg. simpl. split; [exact Hg|]. intros [a|] g' Hg'; exact Hg'.
Qed.

Lemma keeps_bind (p : Prog A) (f : A -> Prog B) :
  keeps p -> (forall a, keeps (f a)) -> keeps (bind p f).
Proof.
  intros Hp Hf g Hg. apply holds_bind.
  apply (holds_weaken inFlight p (fun _ g' => inFlight g')); [|apply Hp; exact Hg].
  intros [a|] g' Hg'; [apply Hf|]; exact Hg'.
Qed.

Lemma keeps_tryCatch (p handler : Prog A) :
  keeps p -> keeps handler -> keeps (tryCatch p handler).
Proof.
  intros Hp Hh g Hg. apply holds_tryCatch.
  apply (holds_weaken inFlight p (fun _ g' => inFlight g')); [|apply Hp; exact Hg].
  intros [a|] g' Hg'; [|apply Hh]; exact Hg'.
Qed.

End KeepsFacts.

Lemma keeps_modify (f : Background.Globals -> Background.Globals) :
  (forall g, Background.processingQuestion (f g)
             = Background.processingQuestion g) ->
  FlagSpec.keeps (Background.modify f).
Proof.
  intros Hf g Hg. simpl. unfold FlagSpec.inFlight. rewrite Hf. exact Hg.
Qed.

Ltac keeps_step :=
  lazymatch goal with
  | |- FlagSpec.keeps (Background.Ret _) => apply keeps_ret
  | |- FlagSpec.keeps Background.Throw => apply keeps_throw
  | |- FlagSpec.keeps (Background.await _) => apply keeps_await
  | |- FlagSpec.keeps (Background.modify _) =>
      apply keeps_modify; intros ?; reflexivity
  | |- FlagSpec.keeps (Background.bind _ _) =>
      apply keeps_bind; [|intros ?]
  | |- FlagSpec.keeps (Background.Get _) => apply keeps_get; intros ?
  | |- FlagSpec.keeps (Background.Call _ _) => apply keeps_call
  | |- FlagSpec.keeps (Background.tryCatch _ _) => apply keeps_tryCatch
  | |- FlagSpec.keeps (match ?x with _ => _ end) => destruct x
  end.

Lemma attemptSend_keeps remaining tabId message delay :
  FlagSpec.keeps (Background.attemptSend remaining tabId message delay).
Proof.
  induction remaining as [|n IH]; intros g Hg; simpl;
    (split; [exact Hg|]); intros [response|] g' Hg'; simpl; auto.
Qed.

Lemma sendMessageWithRetry_keeps tabId message maxAttempts delay :
  FlagSpec.keeps
    (Background.sendMessageWithRetry tabId message maxAttempts delay).
Proof.
  unfold Background.sendMessageWithRetry. destruct tabId.
  - apply attemptSend_keeps.
  - apply keeps_throw.
Qed.

Lemma findAndStoreTabs_keeps : FlagSpec.keeps Background.findAndStoreTabs.
Proof. unfold Background.findAndStoreTabs. repeat keeps_step. Qed.

Lemma shouldFocusTabs_keeps : FlagSpec.keeps Background.shouldFocusTabs.
Proof.
  unfold Background.shouldFocusTabs.
  apply keeps_bind; [apply findAndStoreTabs_keeps|]. intros _.
  repeat keeps_step.
Qed.

Lemma focusTab_keeps tabId : FlagSpec.keeps (Background.focusTab tabId).
Proof. unfold Background.focusTab. repeat keeps_step. Qed.

Ltac keeps_auto :=
  repeat lazymatch goal with
    | |- FlagSpec.keeps (Background.sendMessageWithRetry _ _ _ _) =>
        apply sendMessageWithRetry_keeps
    | |- FlagSpec.keeps Background.findAndStoreTabs =>
        apply findAndStoreTabs_keeps
    | |- FlagSpec.keeps Background.shouldFocusTabs =>
        apply shouldFocusTabs_keeps
    | |- FlagSpec.keeps (Background.focusTab _) => apply focusTab_keeps
    | |- _ => keeps_step
    end.

Lemma holds_bind_keeps {A B : Type} (p : Background.Prog A)
  (f : A -> Background.Prog B)
  (Q : option B -> Background.Globals -> Prop) g :
  FlagSpec.keeps p -> FlagSpec.inFlight g ->
  (forall a g', FlagSpec.inFlight g' ->
                FlagSpec.holds (f a) FlagSpec.inFlight Q g') ->
  (forall g', FlagSpec.inFlight g' -> Q None g') ->
  FlagSpec.holds (Background.bind p f) FlagSpec.inFlight Q g.
Proof.
  intros Hp Hg Hf Hn. apply holds_bind.
  apply (holds_weaken FlagSpec.inFlight p
           (fun _ g' => FlagSpec.inFlight g')); [|apply Hp; exact Hg].
  intros [a|] g' Hg'; [apply Hf | apply Hn]; exact Hg'.
Qed.

(** The body of [processQuestion] between [try] and [finally]: whenever it
    is suspended a question is in flight. *)
Lemma processQuestion_body_safe (message : Background.QuestionMessage) g :
  Background.processingQuestion g = false ->
  FlagSpec.holds (Background.processQuestion message) FlagSpec.inFlight
    (fun _ g' => Background.processingQuestion g' = false) g.
Proof.
  intros Hflag. unfold Background.processQuestion.
  apply holds_bind. cbn [FlagSpec.holds]. rewrite Hflag.
  apply holds_bind. cbn [FlagSpec.holds Background.modify].
  apply holds_tryFinally.
  apply (holds_weaken FlagSpec.inFlight _ (fun _ _ => True));
    [intros r g' _; reflexivity|].
  apply holds_tryCatch.
  apply (holds_weaken FlagSpec.inFlight _
           (fun r g' => match r with
                        | Some _ => True
                        | None => FlagSpec.inFlight g'
                        end)).
  { (* the handler *)
    intros [u|] g' Hg'; [exact I|].
    apply holds_bind. cbn [FlagSpec.holds].
    destruct (negb (Background.idTruthy (Background.textbookTabId g'))).
    - exact I.
    - apply holds_bind_keeps; [keeps_auto|exact Hg'| |];
        intros; exact I. }
  (* the body *)
  apply holds_bind_keeps;
    [keeps_auto | reflexivity | | intros g' Hg'; exact Hg'].
  intros _ g1 Hg1. apply holds_bind. cbn [FlagSpec.holds].
  destruct (negb (Background.idTruthy (Background.aiTabId g1))).
  - apply holds_bind_keeps; [keeps_auto | exact Hg1 | | intros g' Hg'; exact Hg'].
    intros _ g2 _. exact I.
  - match goal with
    | |- FlagSpec.holds ?p _ _ _ =>
        assert (Hk : FlagSpec.keeps p) by keeps_auto
    end.
    apply (holds_weaken FlagSpec.inFlight _
             (fun _ g' => FlagSpec.inFlight g')); [|apply Hk; exact Hg1].
    intros [u|] g' Hg'; [exact I | exact Hg'].
Qed.

(** C2.  A call of [processQuestion] while the in-flight flag is set
    returns at once: no call into the browser, no variable changed.  A
    call that proceeds is in flight whenever it is suspended, and on every
    path to its end -- the question relayed, the assistant tab missing,
    the delivery failed, an exception escaping -- the flag is false when
    it ends, whatever the browser answers and whatever the other handlers
    do to the other variables meanwhile. *)
Theorem processQuestion_in_flight_flag
  (w : Background.World) (message : Background.QuestionMessage)
  (h : list Background.Action) (g : Background.Globals) :
  (Background.processingQuestion g = true ->
   Background.exec w (Background.processQuestion message) h g
   = (Some tt, g, h))
  /\ (Background.processingQuestion g = false ->
      FlagSpec.holds (Background.processQuestion message) FlagSpec.inFlight
        (fun _ g' => Background.processingQuestion g' = false) g)
  /\ (Background.processingQuestion g = false ->
      (forall h' g', Background.processingQuestion g' = true ->
                     Background.processingQuestion
                       (Background.interfere w h' g') = true) ->
      Background.processingQuestion
        (snd (fst (Background.exec w (Background.processQuestion message)
                     h g))) = false).
Proof.
  split; [|split].
  - intros Hflag. unfold Background.processQuestion. simpl.
    rewrite Hflag. reflexivity.
  - apply processQuestion_body_safe.
  - intros Hflag Hw.
    apply (holds_sound FlagSpec.inFlight w
             (Background.processQuestion message)
             (fun _ g' => Background.processingQuestion g' = false) h g Hw).
    apply processQuestion_body_safe. exact Hflag.
Qed.

(** ** The missing assistant tab *)

Section ExecFacts.

Import Background.

Variable w : World.

Lemma exec_bind {A B : Type} (p : Prog A) (f : A -> Prog B) h g :
  exec w (bind p f) h g
  = match exec w p h g with
    | (Some a, g', h') => exec w (f a) h' g'
    | (None, g', h') => (None, g', h')
    end.
Proof.
  revert h g. induction p as [a| |k IH|g' k IH|op k IH|R op k IH];
    intros h g; simpl; auto.
Qed.

Lemma exec_tryCatch {A : Type} (p handler : Prog A) h g :
  exec w (tryCatch p handler) h g
  = match exec w p h g with
    | (Some a, g', h') => (Some a, g', h')
    | (None, g', h') => exec w handler h' g'
    end.
Proof.
  revert h g. induction p as [a| |k IH|g' k IH|op k IH|R op k IH];
    intros h g; simpl; auto.
Qed.

Lemma exec_tryFinally {A : Type} (p : Prog A) (fin : Prog unit) h g :
  exec w (tryFinally p fin) h g
  = match exec w p h g with
    | (r, g', h') =>
        match exec w fin h' g' with
        | (Some _, g'', h'') => (r, g'', h'')
        | (None, g'', h'') => (None, g'', h'')
        end
    end.
Proof.
  revert h g. induction p as [a| |k IH|g' k IH|op k IH|R op k IH];
    intros h g; simpl; auto.
  - rewrite exec_bind. destruct (exec w fin h g) as [[[u|] g'] h']; reflexivity.
  - rewrite exec_bind. destruct (exec w fin h g) as [[[u|] g'] h']; reflexivity.
Qed.

Lemma sent_app h1 h2 : sent (h1 ++ h2) = sent h1 ++ sent h2.
Proof.
  induction h1 as [|[R op] h1 IH]; simpl; [reflexivity|].
  destruct op; simpl; rewrite IH; reflexivity.
Qed.

End ExecFacts.

Lemma textbook_not_assistant (site : jsstring) :
  ~ In (Background.textbookPattern site) MissingTabSpec.assistantUrls.
Proof.
  unfold Background.textbookPattern, MissingTabSpec.assistantUrls. simpl.
  intros [H | [H | [H | []]]]; discriminate.
Qed.

Lemma aiUrlMap_assistant (aiModel url : jsstring) :
  Background.aiUrlMap aiModel = Some url ->
  In url MissingTabSpec.assistantUrls.
Proof.
  unfold Background.aiUrlMap, MissingTabSpec.assistantUrls.
  destruct (eqb aiModel _); [intros H; injection H as <-; simpl; auto|].
  destruct (eqb aiModel _); [intros H; injection H as <-; simpl; auto|].
  destruct (eqb aiModel _); [intros H; injection H as <-; simpl; auto|].
  discriminate.
Qed.

Lemma quiet_app (h1 h2 : list Background.Action) :
  forallb Background.quiet (h1 ++ h2)
  = forallb Background.quiet h1 && forallb Background.quiet h2.
Proof. apply forallb_app. Qed.

(** ** The injections that a run starts *)

Lemma injection_sent_app (h1 h2 : list Handlers.Did) :
  Injection.sent (h1 ++ h2) = Injection.sent h1 ++ Injection.sent h2.
Proof.
  induction h1 as [|[R op] h1 IH]; simpl; [reflexivity|].
  destruct op as [R op| | | |]; try exact IH.
  - destruct op; try exact IH. simpl. f_equal. exact IH.
  - simpl. f_equal. exact IH.
Qed.

Lemma injection_started_app (h1 h2 : list Handlers.Did) :
  Injection.started (h1 ++ h2)
  = Injection.started h1 ++ Injection.started h2.
Proof.
  induction h1 as [|[R op] h1 IH]; simpl; [reflexivity|].
  destruct op as [R op| | | |]; try exact IH.
  destruct op; try exact IH. simpl. f_equal. exact IH.
Qed.

Lemma ofBackground_app (h1 h2 : list Background.Action) :
  Injection.ofBackground (h1 ++ h2)
  = Injection.ofBackground h1 ++ Injection.ofBackground h2.
Proof. apply map_app. Qed.

(** The messages of a function of module [Background] are those of its
    calls. *)
Lemma sent_ofBackground (h : list Background.Action) :
  Injection.sent (Injection.ofBackground h)
  = map (fun x => (fst x, Injection.Plain (snd x))) (Background.sent h).
Proof.
  induction h as [|[R op] h IH]; simpl; [reflexivity|].
  destruct op; simpl; try exact IH. f_equal. exact IH.
Qed.

(** An injection makes one of four sequences of calls, whatever it
    meets. *)
Lemma injection_runs (m : Injection.Meets) (tabId : Z) :
  In (Injection.calls m tabId) (InjectionSpec.runs tabId).
Proof.
  destruct m as [[w h] v]. unfold Injection.calls, InjectionSpec.runs.
  assert (S : forall ext : list Handlers.Did,
             ext = skipn (List.length h) (h ++ ext)).
  { intros ext. rewrite skipn_app, Nat.sub_diag, skipn_all. reflexivity. }
  unfold Handlers.injectContentScript.
  cbn [Handlers.catch Handlers.andThen Handlers.wait Handlers.exec
       Handlers.update].
  destruct (Handlers.answer w h (Handlers.Base (Background.TabsGet tabId)))
    as [tab|];
    cbn [Handlers.catch Handlers.andThen Handlers.exec Handlers.update snd].
  2:{ left. apply S. }
  destruct (Handlers.has tabId _);
    cbn [Handlers.catch Handlers.andThen Handlers.exec Handlers.update
         Handlers.lift Background.sendMessageWithRetry Nat.sub
         Background.attemptSend snd].
  - destruct (Handlers.answer w _
                (Handlers.Base
                   (Background.TabsSendMessage tabId Background.Ping)))
      as [pong|];
      cbn [Handlers.catch Handlers.andThen Handlers.exec Handlers.update
           Handlers.lift snd].
    + right. left. rewrite <- app_assoc. apply S.
    + destruct (Handlers.answer w _ (Handlers.ExecuteScript tabId))
        as [[]|];
        cbn [Handlers.catch Handlers.andThen Handlers.exec Handlers.update
             snd];
        right; right; left; rewrite <- !app_assoc; apply S.
  - destruct (Handlers.answer w _ (Handlers.ExecuteScript tabId)) as [[]|];
      cbn [Handlers.catch Handlers.andThen Handlers.exec Handlers.update snd];
      right; right; right; left; rewrite <- !app_assoc; apply S.
Qed.

(** So an injection sends nothing, or one ping to its tab. *)
Lemma injection_sent (m : Injection.Meets) (tabId : Z) :
  InjectionSpec.atMostAPing tabId (Injection.sent (Injection.calls m tabId)).
Proof.
  destruct (injection_runs m tabId) as [<-|[<-|[<-|[<-|[]]]]];
    [left | right | right | left]; reflexivity.
Qed.

Lemma allSent_none (meets : nat -> Injection.Meets)
  (h : list Handlers.Did) :
  Injection.started h = [] -> Injection.allSent meets h = Injection.sent h.
Proof.
  intros E. unfold Injection.allSent. rewrite E. simpl. apply app_nil_r.
Qed.

Lemma allSent_one (meets : nat -> Injection.Meets)
  (h : list Handlers.Did) (tabId : Z) :
  Injection.started h = [tabId] ->
  exists pings,
    Injection.allSent meets h = Injection.sent h ++ pings
    /\ InjectionSpec.atMostAPing tabId pings.
Proof.
  intros E. unfold Injection.allSent. rewrite E. simpl.
  rewrite app_nil_r. eexists. split; [reflexivity|]. apply injection_sent.
Qed.

Lemma in_concat_mapi {A B : Type} (f : nat -> A -> list B) (l : list A)
  (i : nat) (x : B) :
  In x (List.concat (Education.mapi f i l)) ->
  exists j a, In a l /\ In x (f j a).
Proof.
  revert i. induction l as [|a l IH]; intros i; simpl; [contradiction|].
  intros H. apply in_app_or in H. destruct H as [H|H].
  - exists i, a. auto.
  - destruct (IH _ H) as (j & b & Hb & Hx). exists j, b. auto.
Qed.

(** Every message of a run is one of its own calls, or the ping of an
    injection it started. *)
Lemma allSent_in (meets : nat -> Injection.Meets) (h : list Handlers.Did)
  (x : Z * Injection.TabMessage) :
  In x (Injection.allSent meets h) ->
  In x (Injection.sent h)
  \/ exists tabId, In tabId (Injection.started h)
                   /\ x = (tabId, Injection.Plain Background.Ping).
Proof.
  unfold Injection.allSent. intros H. apply in_app_or in H.
  destruct H as [H|H]; [left; exact H|]. right.
  apply in_concat_mapi in H. destruct H as (j & t & Ht & Hx).
  exists t. split; [exact Ht|].
  destruct (injection_sent (meets j) t) as [E|E]; rewrite E in Hx;
    [destruct Hx | destruct Hx as [<-|[]]; reflexivity].
Qed.

(** All the messages of a run are its own, and then the pings of the
    injections it started. *)
Lemma allSent_pings (meets : nat -> Injection.Meets)
  (h : list Handlers.Did) :
  exists pings,
    Injection.allSent meets h = Injection.sent h ++ pings
    /\ Forall (fun x => exists tabId,
                   In tabId (Injection.started h)
                   /\ x = (tabId, Injection.Plain Background.Ping)) pings.
Proof.
  unfold Injection.allSent. eexists. split; [reflexivity|].
  apply Forall_forall. intros x H.
  apply in_concat_mapi in H. destruct H as (j & t & Ht & Hx).
  exists t. split; [exact Ht|].
  destruct (injection_sent (meets j) t) as [E|E]; rewrite E in Hx;
    [destruct Hx | destruct Hx as [<-|[]]; reflexivity].
Qed.

(** [findAndStoreTabs] starts at most one injection: for the first tab
    that the query for the textbook finds. *)
Lemma findAndStoreTabs_starts (w : Background.World)
  (h : list Background.Action) (g : Background.Globals) :
  exists ext,
    snd (Background.exec w Background.findAndStoreTabs h g) = h ++ ext
    /\ InjectionSpec.startsForTextbook w (Injection.ofBackground ext).
Proof.
  unfold Background.findAndStoreTabs, InjectionSpec.startsForTextbook.
  cbn [Background.bind Background.await Background.exec Background.modify].
  repeat match goal with
    | |- context [Background.respond w ?h1 ?op] =>
        destruct (Background.respond w h1 op) as [?|] eqn:?;
        cbn [Background.bind Background.await Background.exec
             Background.modify Background.currentWebsiteUrl
             Background.setCurrentWebsiteUrl]
    | |- context [match ?x with _ => _ end] =>
        destruct x eqn:?;
        cbn [Background.bind Background.await Background.exec
             Background.modify Background.currentWebsiteUrl
             Background.setCurrentWebsiteUrl]
    end;
    (eexists; rewrite <- ?app_assoc; split; [reflexivity|]);
    rewrite ?ofBackground_app, ?injection_started_app;
    cbn [Injection.ofBackground map Injection.started app];
    first [ left; reflexivity
          | right;
            match goal with
            | H : Background.respond w ?h0
                    (Background.TabsQuery (Background.textbookPattern ?site))
                  = Some (?tab :: ?rest) |- _ =>
                exists h0, site, tab, rest; split; [exact H | reflexivity]
            end ].
Qed.


Section MissingTab.

Import Background.

(** In a calm browser [findAndStoreTabs] finds the textbook tab, records
    the selected provider, leaves the assistant tab as it was, and neither
    sends a message nor moves the focus; it starts the injection for the
    textbook tab, and no other. *)
Lemma findAndStoreTabs_missing (w : World) (h : list Action) (g : Globals) :
  MissingTabSpec.calm w ->
  exists sd tab g' ext,
    respond w h StorageSyncGet = Some sd
    /\ exec w findAndStoreTabs h g = (Some tt, g', h ++ ext)
    /\ textbookTabId g' = Some (tab_id tab) /\ tab_id tab <> 0%Z
    /\ aiTabId g' = aiTabId g
    /\ aiType g' = Some (orElse (sd_aiModel sd) (lit "chatgpt"))
    /\ processingQuestion g' = processingQuestion g
    /\ sent ext = []
    /\ forallb quiet ext = true
    /\ Injection.started (Injection.ofBackground ext) = [tab_id tab].
Proof.
  intros Hw. destruct Hw as [Hint Hsync Hlocal Hnoai Hopen Hlisten].
  unfold findAndStoreTabs.
  destruct (respond w h StorageSyncGet) as [sd|] eqn:Esd;
    [|destruct (Hsync h Esd)].
  exists sd.
  rewrite exec_bind. simpl. rewrite Esd, Hint. simpl.
  rewrite exec_bind.
  match goal with
  | |- context [exec w ?p (h ++ [Did StorageSyncGet]) g] =>
      assert (Hsite : exists a ext1,
                 exec w p (h ++ [Did StorageSyncGet]) g
                 = (Some a, g, h ++ ext1)
                 /\ sent ext1 = []
                 /\ forallb quiet ext1 = true
                 /\ Injection.started (Injection.ofBackground ext1) = [])
  end.
  { destruct (sd_websiteUrl sd) as [[|c r]|]; simpl; rewrite ?Hint;
      try (destruct (respond w (h ++ [Did StorageSyncGet]) StorageLocalGet)
             as [[[|c' r']|]|] eqn:El; [| | |destruct (Hlocal _ El)]);
      simpl; rewrite <- ?app_assoc; eexists; eexists;
      (split; [reflexivity|]); simpl; auto. }
  destruct Hsite as (a & ext1 & -> & Hs1 & Hq1 & Hi1).
  simpl.
  destruct (Hopen (h ++ ext1) (orElse a (lit "textbook")))
    as (tab & rest & Etab & Hid).
  rewrite Etab, Hint. exists tab. simpl.
  destruct (aiUrlMap (orElse (sd_aiModel sd) (lit "chatgpt")))
    as [aiUrl|] eqn:Eurl; simpl.
  - rewrite (Hnoai _ _ (aiUrlMap_assistant _ _ Eurl)), Hint. simpl.
    rewrite <- !app_assoc.
    eexists; eexists. split; [reflexivity|]. split; [reflexivity|].
    simpl. rewrite ?sent_app, ?quiet_app, ?ofBackground_app,
      ?injection_started_app, Hs1, Hq1, Hi1. simpl. auto 10.
  - rewrite <- !app_assoc.
    eexists; eexists. split; [reflexivity|]. split; [reflexivity|].
    simpl. rewrite ?sent_app, ?quiet_app, ?ofBackground_app,
      ?injection_started_app, Hs1, Hq1, Hi1. simpl. auto 10.
Qed.

End MissingTab.

(** C9, as the code has it.  When [processQuestion] proceeds while the
    script has no assistant tab recorded and the browser shows none, the
    textbook tab being open and listening, then the function itself sends
    exactly one message: the alert for the textbook tab that asks to open
    the selected provider (the stored [aiModel], [chatgpt] by default).
    Its calls move no focus and arm no timer, the assistant tab stays
    unrecorded, and the in-flight flag is false at the end.  On the way
    the tab lookup starts the injection for the textbook tab, and no
    other; that injection looks at the tab, pings it if it is tracked,
    and injects the content script.  So all the messages that the run
    causes are the alert and at most one ping, both to the textbook tab;
    no message goes to any other tab. *)
Theorem missing_assistant_tab_alert
  (w : Background.World) (message : Background.QuestionMessage)
  (h : list Background.Action) (g : Background.Globals) :
  MissingTabSpec.calm w ->
  Background.processingQuestion g = false ->
  Background.idTruthy (Background.aiTabId g) = false ->
  exists sd tabId g' ext,
    Background.respond w h Background.StorageSyncGet = Some sd
    /\ Background.exec w (Background.processQuestion message) h g
       = (Some tt, g', h ++ ext)
    /\ Background.processingQuestion g' = false
    /\ Background.textbookTabId g' = Some tabId
    /\ Background.aiTabId g' = Background.aiTabId g
    /\ Background.sent ext
       = [(tabId,
           Background.AlertMessage
             (lit "Please open "
              ++ Background.orElse (Background.sd_aiModel sd) (lit "chatgpt")
              ++ lit " in another tab before using automation."))]
    /\ forallb Background.quiet ext = true
    /\ Injection.started (Injection.ofBackground ext) = [tabId]
    /\ (forall m : Injection.Meets,
          In (Injection.calls m tabId) (InjectionSpec.runs tabId))
    /\ forall meets, exists pings,
         Injection.allSent meets (Injection.ofBackground ext)
         = (tabId,
            Injection.Plain
              (Background.AlertMessage
                 (lit "Please open "
                  ++ Background.orElse (Background.sd_aiModel sd)
                       (lit "chatgpt")
                  ++ lit " in another tab before using automation.")))
           :: pings
         /\ InjectionSpec.atMostAPing tabId pings.
Proof.
  intros Hw Hflag Hai.
  destruct (findAndStoreTabs_missing w h
              (Background.setProcessingQuestion true g) Hw)
    as (sd & tab & g1 & ext1 & Esd & Eexec & Htb & Hid & Hai1 & Htype & Hflag1
        & Hs1 & Hq1 & Hi1).
  destruct Hw as [Hint Hsync Hlocal Hnoai Hopen Hlisten].
  exists sd, (Background.tab_id tab).
  unfold Background.processQuestion.
  rewrite exec_bind. cbn [Background.exec]. rewrite Hflag.
  rewrite exec_bind. unfold Background.modify at 1. cbn [Background.exec].
  rewrite exec_tryFinally, exec_tryCatch, exec_bind, Eexec.
  rewrite exec_bind. cbn [Background.exec]. simpl in Hai1. rewrite Hai1, Hai.
  cbn [negb]. rewrite exec_bind, Htb.
  unfold Background.sendMessageWithRetry.
  cbn [Nat.sub Background.attemptSend Background.exec].
  destruct (Background.respond w (h ++ ext1)
              (Background.TabsSendMessage (Background.tab_id tab)
                 (Background.AlertMessage
                    (Background.pleaseOpen (Background.aiType g1)))))
    as [response|] eqn:Eack; [|destruct (Hlisten _ _ _ Eack)].
  cbn [Background.exec Background.modify]. rewrite Hint.
  rewrite <- app_assoc.
  eexists; eexists. split; [exact Esd|]. split; [reflexivity|].
  cbn [Background.processingQuestion Background.textbookTabId
       Background.aiTabId Background.setProcessingQuestion].
  assert (Es : Background.sent
                 (ext1 ++
                  [Background.Did
                     (Background.TabsSendMessage (Background.tab_id tab)
                        (Background.AlertMessage
                           (Background.pleaseOpen (Background.aiType g1))))])
               = [(Background.tab_id tab,
                   Background.AlertMessage
                     (lit "Please open "
                      ++ Background.orElse (Background.sd_aiModel sd)
                           (lit "chatgpt")
                      ++ lit " in another tab before using automation."))]).
  { rewrite sent_app, Hs1, Htype. reflexivity. }
  assert (Ei : Injection.started
                 (Injection.ofBackground
                    (ext1 ++
                     [Background.Did
                        (Background.TabsSendMessage (Background.tab_id tab)
                           (Background.AlertMessage
                              (Background.pleaseOpen
                                 (Background.aiType g1))))]))
               = [Background.tab_id tab]).
  { rewrite ofBackground_app, injection_started_app, Hi1. reflexivity. }
  repeat split; auto.
  - rewrite quiet_app, Hq1. reflexivity.
  - intros m. apply injection_runs.
  - intros meets.
    destruct (allSent_one meets _ _ Ei) as (pings & E & Hp).
    exists pings. split; [|exact Hp].
    rewrite E, sent_ofBackground, Es. reflexivity.
Qed.


Lemma browser_calm : MissingTabSpec.calm (BrowserScenario.browser (fun _ => true)).
Proof.
  constructor; simpl; try discriminate; try reflexivity.
  - intros _ url [<- | [<- | [<- | []]]]; reflexivity.
  - intros _ site.
    exists {| Background.tab_id := 3%Z; Background.tab_windowId := 1%Z |}, [].
    split; [|discriminate].
    destruct (existsb (eqb (Background.textbookPattern site))
                MissingTabSpec.assistantUrls) eqn:E; [|reflexivity].
    apply existsb_exists in E. destruct E as (url & Hin & Heq).
    apply eqb_eq in Heq. subst url.
    destruct (textbook_not_assistant site Hin).
Qed.

(** The claim as stated fails when the recorded assistant tab is stale:
    no assistant tab is open (every query for one finds nothing), yet the
    question is sent three times to tab 7, the focus is moved, and the
    alert that asks to open the provider is not raised; the textbook tab
    receives the delivery-failure alert instead.  Whatever the injections
    meet that the run starts, these four are the messages that the run
    causes, but for pings to the textbook tab. *)
Lemma stale_assistant_tab_gets_question :
  let w := BrowserScenario.browser (fun tabId => (tabId =? 3)%Z) in
  let r := Background.exec w
             (Background.processQuestion BrowserScenario.message) []
             BrowserScenario.stale in
  (forall h url, In url MissingTabSpec.assistantUrls ->
                 Background.respond w h (Background.TabsQuery url) = Some [])
  /\ Background.sent (snd r)
     = [(7%Z, Background.ReceiveQuestion Scenario.question);
        (7%Z, Background.ReceiveQuestion Scenario.question);
        (7%Z, Background.ReceiveQuestion Scenario.question);
        (3%Z, Background.AlertMessage
                (Background.errorCommunicating (Some (lit "gemini"))))]
  /\ forallb Background.quiet (snd r) = false
  /\ Background.processingQuestion (snd (fst r)) = false
  /\ (forall meets, exists pings,
        Injection.allSent meets (Injection.ofBackground (snd r))
        = [(7%Z, Injection.Plain
                   (Background.ReceiveQuestion Scenario.question));
           (7%Z, Injection.Plain
                   (Background.ReceiveQuestion Scenario.question));
           (7%Z, Injection.Plain
                   (Background.ReceiveQuestion Scenario.question));
           (3%Z, Injection.Plain
                   (Background.AlertMessage
                      (Background.errorCommunicating
                         (Some (lit "gemini")))))]
          ++ pings
        /\ Forall (fun x => x = (3%Z, Injection.Plain Background.Ping))
             pings).
Proof.
  split; [|split; [|split; [|split]]].
  - intros h url [<- | [<- | [<- | []]]]; reflexivity.
  - vm_compute. reflexivity.
  - vm_compute. reflexivity.
  - vm_compute. reflexivity.
  - intros meets.
    match goal with
    | |- context [Injection.allSent meets ?l] =>
        destruct (allSent_pings meets l) as (pings & E & F)
    end.
    exists pings. split.
    + rewrite E. f_equal.
    + apply Forall_forall. intros x Hx.
      rewrite Forall_forall in F. destruct (F x Hx) as (t & Ht & ->).
      vm_compute in Ht. destruct Ht as [<- | [<- | []]]; reflexivity.
Qed.

(** ** The theorems at concrete inputs *)


Lemma processQuestion_in_flight_flag_witness :
  let w := BrowserScenario.browser (fun _ => true) in
  let busy := Background.setProcessingQuestion true BrowserScenario.fresh in
  Background.exec w (Background.processQuestion BrowserScenario.message)
    [] busy = (Some tt, busy, [])
  /\ Background.processingQuestion
       (snd (fst (Background.exec w
                    (Background.processQuestion BrowserScenario.message)
                    [] BrowserScenario.fresh))) = false.
Proof.
  intros w busy. split.
  - apply (proj1 (processQuestion_in_flight_flag w
                    BrowserScenario.message [] busy)).
    reflexivity.
  - apply (proj2 (proj2 (processQuestion_in_flight_flag w
                           BrowserScenario.message []
                           BrowserScenario.fresh))).
    + reflexivity.
    + intros h' g' H. exact H.
Defined.

Lemma option_matching_rules_witness :
  Education.matchesAnswer (lit "True.") (lit "True") = true.
Proof.
  apply (proj1 option_matching_rules (lit "True.") (lit "True")).
  right. right. reflexivity.
Defined.

Lemma selection_repeated_witness :
  let answers := [VStr (lit "True")] in
  let first := Education.selectChoices answers Witness.radios in
  let second := Education.selectChoices answers (fst first) in
  let c1 :=
    {| Education.c_kind := Education.Radio;
       Education.c_name := lit "q1";
       Education.c_checked := true;
       Education.c_disabled := false;
       Education.c_label := Some (Some (lit " True ")) |} in
  nth_error (fst first) 0 = Some c1
  /\ exists c2, nth_error (fst second) 0 = Some c2
                /\ (Education.c_kind c1 = Education.Radio -> c2 = c1).
Proof.
  intros answers first second c1.
  assert (H1 : nth_error (fst first) 0 = Some c1) by reflexivity.
  split; [exact H1|].
  destruct (proj2 (proj2 (selection_repeated answers Witness.radios)) 0%nat
              c1 H1) as (c2 & H2 & Hradio & _).
  exists c2. split; [exact H2 | exact Hradio].
Defined.

Lemma grace_period_witness :
  let partial := "{'answer': B, 'explanation': x}"%string in
  let whole := "{'answer':'True','explanation':'x'}"%string in
  exists message' text',
    In message' (skipn (DeepSeek.messageCountAtQuestion Scenario.asked)
                   (DeepSeek.firstNonEmpty
                      [[Scenario.element partial; Scenario.element whole]]))
    /\ In text' (DeepSeek.candidates message')
    /\ Assistant.parsesWithAnswer (Assistant.cleanText text') = true
    /\ snd (DeepSeek.step Scenario.asked
              (DeepSeek.Check true
                 [[Scenario.element partial; Scenario.element whole]]
                 30000))
       = [DeepSeek.deepseekResponse (Assistant.cleanText text')].
Proof.
  intros partial whole.
  apply (proj2 (proj2 (proj2 (proj2 grace_period))) Scenario.asked true
           [[Scenario.element partial; Scenario.element whole]] 30000%Z
           (Scenario.element whole) (litq whole)).
  - reflexivity.
  - reflexivity.
  - vm_compute. discriminate.
  - right. left. reflexivity.
  - vm_compute. left. reflexivity.
  - vm_compute. reflexivity.
Defined.


Lemma accepted_payload_witness :
  Assistant.parsesWithAnswer (litq "{'answer':'True','explanation':'x'}")
  = true
  \/ exists doc now latestMessage,
       Gemini.Mutation
         [Scenario.reply "{'answer':'True','explanation':'x'}"] 1000
       = Gemini.Mutation doc now
       /\ (30000 < now - Gemini.observationStartTime Scenario.submitted)%Z
       /\ last (map Some doc) None = Some latestMessage
       /\ Assistant.matchAnswerExplanation
            (trim (Gemini.mr_textContent latestMessage))
          = Some (litq "{'answer':'True','explanation':'x'}").
Proof.
  apply (proj1 accepted_payload Scenario.submitted
           (Gemini.Mutation
              [Scenario.reply "{'answer':'True','explanation':'x'}"] 1000)
           (Gemini.geminiResponse
              (litq "{'answer':'True','explanation':'x'}"))).
  vm_compute. left. reflexivity.
Defined.


Lemma missing_assistant_tab_alert_witness :
  exists sd tabId g' ext,
    Background.respond (BrowserScenario.browser (fun _ => true)) []
      Background.StorageSyncGet = Some sd
    /\ Background.exec (BrowserScenario.browser (fun _ => true))
         (Background.processQuestion BrowserScenario.message) []
         BrowserScenario.fresh = (Some tt, g', [] ++ ext)
    /\ Background.processingQuestion g' = false
    /\ Background.textbookTabId g' = Some tabId
    /\ Background.aiTabId g' = Background.aiTabId BrowserScenario.fresh
    /\ Background.sent ext
       = [(tabId,
           Background.AlertMessage
             (lit "Please open "
              ++ Background.orElse (Background.sd_aiModel sd) (lit "chatgpt")
              ++ lit " in another tab before using automation."))]
    /\ forallb Background.quiet ext = true
    /\ Injection.started (Injection.ofBackground ext) = [tabId]
    /\ (forall m : Injection.Meets,
          In (Injection.calls m tabId) (InjectionSpec.runs tabId))
    /\ forall meets, exists pings,
         Injection.allSent meets (Injection.ofBackground ext)
         = (tabId,
            Injection.Plain
              (Background.AlertMessage
                 (lit "Please open "
                  ++ Background.orElse (Background.sd_aiModel sd)
                       (lit "chatgpt")
                  ++ lit " in another tab before using automation.")))
           :: pings
         /\ InjectionSpec.atMostAPing tabId pings.
Proof.
  apply (missing_assistant_tab_alert (BrowserScenario.browser (fun _ => true))
           BrowserScenario.message [] BrowserScenario.fresh).
  - exact browser_calm.
  - reflexivity.
  - reflexivity.
Defined.

Lemma answer_normalized_to_array_witness :
  Education.processChatGPTResponse Witness.reply1 Witness.script Witness.page
  = Education.processChatGPTResponse Witness.reply2 Witness.script
      Witness.page.
Proof.
  apply (answer_normalized_to_array Witness.reply1 Witness.reply2
           (VObj [(lit "answer", VStr (lit "True"));
                  (lit "explanation", VStr (lit "Common knowledge."))])
           (VObj [(lit "answer", VArr [VStr (lit "True")]);
                  (lit "explanation", VStr (lit "Common knowledge."))])
           (VStr (lit "True"))).
  - vm_compute. reflexivity.
  - vm_compute. reflexivity.
  - vm_compute. reflexivity.
  - reflexivity.
  - vm_compute. reflexivity.
Defined.

(** The scenario of the specification: the reply [True] checks the radio
    button [True], unchecks the other, clears the correction and goes on
    to the confidence button. *)
Example true_false_scenario :
  Education.processChatGPTResponse Witness.reply1 Witness.script Witness.page
  = (Education.clearCorrection Witness.script,
     Education.withContainer Witness.page
       (Education.withChoices
          {| Education.hasMultipleChoice := false;
             Education.hasTrueFalse := true;
             Education.hasMultipleSelect := false;
             Education.hasFillInTheBlank := false;
             Education.hasMatching := false;
             Education.promptText := Some (lit "The sky is blue.");
             Education.promptBlankText := None;
             Education.choiceTexts := [lit "True"; lit "False"];
             Education.matchPrompts := [];
             Education.matchChoices := [];
             Education.fitbInputs := [];
             Education.choices := Witness.radios |}
          (map (fun c => Education.setChecked
                           (negb (Education.c_checked c)) c)
               Witness.radios)),
     [Education.SetCountdownText (lit "Answered");
      Education.WaitForConfidenceButton]).
Proof. vm_compute. reflexivity. Qed.

(* ===================================================================== *)
(** * Further properties of the code                                      *)
(* ===================================================================== *)

(** ** Trimming *)

Lemma takeWhile_dropWhile (p : N -> bool) (s : jsstring) :
  takeWhile p s ++ dropWhile p s = s.
Proof.
  induction s as [|c s IH]; simpl; [reflexivity|].
  destruct (p c); simpl; [f_equal; exact IH | reflexivity].
Qed.

Lemma dropWhile_idem (p : N -> bool) (s : jsstring) :
  dropWhile p (dropWhile p s) = dropWhile p s.
Proof.
  induction s as [|c s IH]; simpl; [reflexivity|].
  destruct (p c) eqn:E; [exact IH | simpl; rewrite E; reflexivity].
Qed.

Lemma dropWhile_snoc (p : N -> bool) (a : jsstring) (c : N) :
  p c = false -> exists w, dropWhile p (a ++ [c]) = w ++ [c].
Proof.
  intros Hc. induction a as [|x a IH]; simpl.
  - rewrite Hc. exists []. reflexivity.
  - destruct (p x); [exact IH | exists (x :: a); reflexivity].
Qed.


Lemma trimmed_trim (s : jsstring) : TextSpec.trimmed s -> trim s = s.
Proof.
  intros [H1 H2]. unfold trim, trimStart, trimEnd.
  rewrite H1, H2. apply rev_involutive.
Qed.

Lemma trim_trimmed (s : jsstring) : TextSpec.trimmed (trim s).
Proof.
  unfold trim, trimStart, trimEnd, TextSpec.trimmed.
  rewrite rev_involutive, dropWhile_idem. split; [|reflexivity].
  destruct (dropWhile isWhiteSpace s) as [|c u] eqn:E; [reflexivity|].
  assert (Hc : isWhiteSpace c = false).
  { assert (D := dropWhile_idem isWhiteSpace s). rewrite E in D.
    simpl in D. destruct (isWhiteSpace c); [|reflexivity].
    exfalso. assert (L : (List.length (dropWhile isWhiteSpace u)
                          <= List.length u)%nat).
    { clear. induction u as [|x u IH]; simpl; [lia|].
      destruct (isWhiteSpace x); simpl; lia. }
    rewrite D in L. simpl in L. lia. }
  simpl rev. destruct (dropWhile_snoc isWhiteSpace (rev u) c Hc) as [w Hw].
  rewrite Hw, rev_unit. simpl. rewrite Hc. reflexivity.
Qed.

Lemma trim_idem (s : jsstring) : trim (trim s) = trim s.
Proof. apply trimmed_trim, trim_trimmed. Qed.

Lemma trim_infix (s : jsstring) : exists x y, s = x ++ trim s ++ y.
Proof.
  unfold trim, trimStart, trimEnd.
  exists (takeWhile isWhiteSpace s),
         (rev (takeWhile isWhiteSpace (rev (dropWhile isWhiteSpace s)))).
  rewrite <- rev_app_distr, takeWhile_dropWhile, rev_involutive.
  symmetry. apply takeWhile_dropWhile.
Qed.

Lemma trimmed_suffix (pre r : jsstring) :
  dropWhile isWhiteSpace (rev (pre ++ r)) = rev (pre ++ r) ->
  dropWhile isWhiteSpace (rev r) = rev r.
Proof.
  rewrite rev_app_distr. destruct (rev r) as [|c t]; [reflexivity|].
  simpl. destruct (isWhiteSpace c); [|reflexivity].
  intros H. exfalso.
  assert (L : forall u, (List.length (dropWhile isWhiteSpace u)
                         <= List.length u)%nat).
  { clear. induction u as [|x u IH]; simpl; [lia|].
    destruct (isWhiteSpace x); simpl; lia. }
  specialize (L (t ++ rev pre)). rewrite H in L. simpl in L. lia.
Qed.

(** ** Occurrences *)

Lemma splitAt_before (pat s a b : jsstring) :
  pat <> [] -> splitAt pat s = Some (a, b) -> splitAt pat a = None.
Proof.
  intros Hp E. destruct (splitAt pat a) as [[a1 b1]|] eqn:Ea; [|reflexivity].
  exfalso. apply splitAt_sound in Ea.
  assert (Hs : s = a1 ++ pat ++ (b1 ++ pat ++ b)).
  { rewrite (splitAt_sound _ _ _ _ E), Ea.
    repeat rewrite <- app_assoc. reflexivity. }
  assert (L := splitAt_first _ _ _ _ E a1 _ Hs).
  rewrite Ea in L. repeat rewrite length_app in L.
  destruct pat; [congruence | simpl in L; lia].
Qed.

Lemma splitAt_infix (pat t x y : jsstring) :
  splitAt pat (x ++ t ++ y) = None -> splitAt pat t = None.
Proof.
  intros H. destruct (splitAt pat t) as [[a b]|] eqn:E; [|reflexivity].
  exfalso. apply splitAt_sound in E.
  apply (splitAt_complete _ _ H (x ++ a) (b ++ y)).
  rewrite E. repeat rewrite <- app_assoc. reflexivity.
Qed.

Lemma stripFieldPrefix_trimmed (s : jsstring) :
  TextSpec.trimmed s -> TextSpec.trimmed (Education.stripFieldPrefix s).
Proof.
  intros [H1 H2]. unfold Education.stripFieldPrefix.
  destruct (stripPrefix (lit "Field ") s) as [r|] eqn:E; [|split; assumption].
  destruct (takeWhile isDigit r) as [|d ds] eqn:T; [split; assumption|].
  destruct (dropWhile isDigit r) as [|c r'] eqn:D; [split; assumption|].
  destruct (N.eqb_spec c 58) as [->|_]; [|split; assumption].
  split; [apply dropWhile_idem|].
  apply stripPrefix_spec in E.
  assert (Hs : s = (lit "Field " ++ takeWhile isDigit r ++ [58%N]
                    ++ takeWhile isWhiteSpace r')
                   ++ dropWhile isWhiteSpace r').
  { rewrite E. rewrite <- (takeWhile_dropWhile isDigit r) at 1.
    rewrite D. rewrite <- (takeWhile_dropWhile isWhiteSpace r') at 1.
    repeat rewrite <- app_assoc. reflexivity. }
  rewrite Hs in H2. exact (trimmed_suffix _ _ H2).
Qed.

Lemma cleanString_clean (s : jsstring) :
  trim (Education.cleanString s) = Education.cleanString s
  /\ includes (lit " or ") (Education.cleanString s) = false.
Proof.
  destruct s as [|c s]; [split; reflexivity|].
  unfold Education.cleanString.
  set (x := Education.stripFieldPrefix (trim (c :: s))).
  assert (Hx : TextSpec.trimmed x)
    by (apply stripFieldPrefix_trimmed, trim_trimmed).
  unfold includes, splitFirst.
  destruct (splitAt (lit " or ") x) as [[a b]|] eqn:E.
  - split; [apply trim_idem|].
    assert (Ha : splitAt (lit " or ") a = None)
      by (apply (splitAt_before _ x a b); [discriminate | exact E]).
    destruct (trim_infix a) as (u & v & Huv). rewrite Huv in Ha.
    rewrite (splitAt_infix _ _ _ _ Ha). reflexivity.
  - split; [apply trimmed_trim; exact Hx | rewrite E; reflexivity].
Qed.

(** X1.  The answer that [cleanAnswer] stores never has white space at
    either end and never contains the separator [" or "]; an array keeps
    its length. *)
Theorem cleanAnswer_clean :
  (forall s : jsstring,
      trim (Education.cleanString s) = Education.cleanString s
      /\ includes (lit " or ") (Education.cleanString s) = false)
  /\ (forall l : list jsstring,
         exists l',
           Education.cleanAnswer (Education.AArr l) = Education.AArr l'
           /\ List.length l' = List.length l
           /\ forall t, In t l' ->
                trim t = t /\ includes (lit " or ") t = false).
Proof.
  split; [exact cleanString_clean|].
  intros l. exists (map Education.cleanString l). simpl.
  split; [reflexivity|]. split; [apply length_map|].
  intros t Ht. apply in_map_iff in Ht. destruct Ht as (s & <- & _).
  apply cleanString_clean.
Qed.

Lemma cleanAnswer_clean_witness :
  Education.cleanAnswer
    (Education.AArr [lit " Field 2: red or crimson "; lit "blue"])
  = Education.AArr [lit "red"; lit "blue"]
  /\ trim (lit "red") = lit "red"
  /\ includes (lit " or ") (lit "red") = false.
Proof.
  destruct (proj2 cleanAnswer_clean
              [lit " Field 2: red or crimson "; lit "blue"])
    as (l' & E & _ & H).
  assert (El : l' = [lit "red"; lit "blue"]).
  { vm_compute in E. injection E as <-. vm_compute. reflexivity. }
  subst l'. split; [exact E|]. apply H. left. reflexivity.
Defined.

Local Open Scope N_scope.



Lemma In_trim (c : N) (s : jsstring) : In c (trim s) -> In c s.
Proof.
  intros H. destruct (trim_infix s) as (x & y & E). rewrite E.
  apply in_or_app. right. apply in_or_app. left. exact H.
Qed.

Lemma In_collapseFrom (c : N) (skipping : bool) (s : jsstring) :
  In c (Assistant.collapseFrom skipping s) -> c <> 10 /\ (c = 32 \/ In c s).
Proof.
  revert skipping; induction s as [|x s IH]; intros skipping; simpl;
    [tauto|].
  destruct (N.eqb_spec x 10) as [->|Hx].
  - destruct skipping; simpl.
    + intros H. destruct (IH _ H) as [? [?|?]]; auto.
    + intros [<-|H]; [split; [discriminate | auto]|].
      destruct (IH _ H) as [? [?|?]]; auto.
  - destruct (skipping && isWhiteSpace x)%bool; simpl.
    + intros H. destruct (IH _ H) as [? [?|?]]; auto.
    + intros [<-|H]; [auto|]. destruct (IH _ H) as [? [?|?]]; auto.
Qed.

Lemma cleanText_plain (s : jsstring) (c : N) :
  In c (Assistant.cleanText s) -> TextSpec.plain c.
Proof.
  unfold Assistant.cleanText, Assistant.collapseNewlines. intros H.
  apply In_trim, In_collapseFrom in H. destruct H as [H10 H].
  split; [exact H10|].
  destruct H as [->|H]; [split; [lia | discriminate]|].
  unfold Assistant.removeZeroWidth in H. apply filter_In in H.
  destruct H as [_ H]. apply negb_true_iff, orb_false_iff in H.
  destruct H as [H1 H2]. apply N.eqb_neq in H2. split; [|exact H2].
  apply andb_false_iff in H1.
  destruct H1 as [H1|H1]; apply N.leb_gt in H1; lia.
Qed.

(** X2.  The text that the direct path parses and forwards holds no line
    feed and no zero-width character and has no white space at either
    end.  This is so for the Gemini observer callback and for DeepSeek's
    [processResponse]. *)
Theorem direct_reply_has_no_line_feed :
  (forall latestMessage : Gemini.ModelResponse,
      let text := Gemini.extractResponseText latestMessage in
      trim text = text /\ forall c, In c text -> TextSpec.plain c)
  /\ (forall (responseText : jsstring) (s : DeepSeek.State),
         match DeepSeek.processResponse responseText s with
         | Some (_, e) =>
             trim (Assistant.e_response e) = Assistant.e_response e
             /\ forall c, In c (Assistant.e_response e) -> TextSpec.plain c
         | None => True
         end).
Proof.
  split.
  - intros latestMessage text. unfold text, Gemini.extractResponseText.
    split; [apply trim_idem | apply cleanText_plain].
  - intros responseText s. unfold DeepSeek.processResponse.
    destruct (JSON_parse _) as [parsed|]; [|exact I].
    destruct (negb (truthy parsed)); [exact I|].
    destruct (getField _ parsed) as [a|]; [|exact I].
    destruct (_ || _)%bool; [exact I|]. simpl.
    split; [apply trim_idem | apply cleanText_plain].
Qed.

Lemma direct_reply_has_no_line_feed_witness :
  Gemini.extractResponseText Samples.spreadReply = litq "{ 'answer':'True' }"
  /\ TextSpec.plain 123.
Proof.
  split; [vm_compute; reflexivity|].
  apply (proj2 (proj1 direct_reply_has_no_line_feed Samples.spreadReply)).
  left. reflexivity.
Defined.

(** ** The two patterns *)

Lemma splitAt_some (pat s : jsstring) (a b : jsstring) :
  s = a ++ pat ++ b ->
  exists a' b', splitAt pat s = Some (a', b')
                /\ (List.length a' <= List.length a)%nat.
Proof.
  intros Hs. destruct (splitAt pat s) as [[a' b']|] eqn:E.
  - exists a', b'. split; [reflexivity|].
    exact (splitAt_first _ _ _ _ E a b Hs).
  - exfalso. exact (splitAt_complete _ _ E a b Hs).
Qed.

Lemma app_prefix_of_shorter (a a' r r' : jsstring) :
  a ++ r = a' ++ r' -> (List.length a' <= List.length a)%nat ->
  exists t, a = a' ++ t.
Proof.
  revert a'; induction a as [|x a IH]; intros [|y a'] H L; simpl in *.
  - exists []. reflexivity.
  - lia.
  - exists (x :: a). reflexivity.
  - injection H as -> H. destruct (IH a' H ltac:(lia)) as [t ->].
    exists t. reflexivity.
Qed.

(** X3.  Whenever the answer-and-explanation pattern of the fallback
    matches a text, the answer pattern of the direct path matches it too,
    and its match is an initial part of the fallback's match. *)
Theorem fallback_match_extends_answer_match (s m : jsstring) :
  Assistant.matchAnswerExplanation s = Some m ->
  exists m' rest,
    Assistant.matchAnswer s = Some m' /\ m = m' ++ rest.
Proof.
  unfold Assistant.matchAnswerExplanation, Assistant.matchAnswer.
  destruct (splitAt [123] s) as [[b0 r0]|]; [|discriminate].
  destruct (splitAt (litq "'answer'") r0) as [[b1 r1]|]; [|discriminate].
  destruct (splitAt (litq "'explanation'") r1) as [[b2 r2]|] eqn:E2;
    [|discriminate].
  destruct (splitAt [125] r2) as [[b3 r3]|] eqn:E3; [|discriminate].
  intros H.
  assert (Hm : m = [123] ++ b1 ++ litq "'answer'" ++ b2
                   ++ litq "'explanation'" ++ b3 ++ [125]) by congruence.
  clear H. subst m.
  apply splitAt_sound in E2, E3.
  assert (H1 : r1 = (b2 ++ litq "'explanation'" ++ b3) ++ [125] ++ r3).
  { rewrite E2, E3. repeat rewrite <- app_assoc. reflexivity. }
  destruct (splitAt_some [125] r1 _ _ H1) as (c & rc & Ec & L).
  rewrite Ec. apply splitAt_sound in Ec.
  assert (H2 : (b2 ++ litq "'explanation'" ++ b3) ++ [125] ++ r3
               = c ++ [125] ++ rc) by congruence.
  destruct (app_prefix_of_shorter _ _ _ _ H2 L) as [t Ht].
  destruct t as [|x t].
  - exists ([123] ++ b1 ++ litq "'answer'" ++ c ++ [125]), [].
    split; [reflexivity|]. rewrite app_nil_r in Ht. rewrite app_nil_r.
    subst c. repeat rewrite <- app_assoc. reflexivity.
  - rewrite Ht in H2. repeat rewrite <- app_assoc in H2.
    apply app_inv_head in H2. simpl in H2. injection H2 as -> _.
    exists ([123] ++ b1 ++ litq "'answer'" ++ c ++ [125]), (t ++ [125]).
    split; [reflexivity|].
    replace (b2 ++ litq "'explanation'" ++ b3 ++ [125])
      with ((b2 ++ litq "'explanation'" ++ b3) ++ [125])
      by (repeat rewrite <- app_assoc; reflexivity).
    rewrite Ht. repeat rewrite <- app_assoc. reflexivity.
Qed.

Lemma fallback_match_extends_answer_match_witness :
  exists m' rest,
    Assistant.matchAnswer Samples.longReply = Some m'
    /\ litq "{'answer':'A','explanation':'B'}" = m' ++ rest.
Proof.
  apply (fallback_match_extends_answer_match Samples.longReply).
  vm_compute. reflexivity.
Defined.

Local Close Scope N_scope.



Section FootprintFacts.

Import Background Footprint.

Variable P : forall R : Type, Op R -> Prop.

Lemma only_weaken {A : Type} (Q : forall R : Type, Op R -> Prop)
  (p : Prog A) :
  (forall R (op : Op R), Q R op -> P R op) -> only Q p -> only P p.
Proof.
  intros HQ. induction p as [a| |k IH|g' k IH|op k IH|R op k IH];
    simpl; auto.
  - intros [H1 H2]. auto.
  - intros [H1 H2]. auto.
Qed.

Lemma only_bind {A B : Type} (p : Prog A) (f : A -> Prog B) :
  only P p -> (forall a, only P (f a)) -> only P (bind p f).
Proof.
  intros Hp Hf. induction p as [a| |k IH|g' k IH|op k IH|R op k IH];
    simpl in *; auto.
  - destruct Hp. auto.
  - destruct Hp. auto.
Qed.

Lemma only_tryCatch {A : Type} (p handler : Prog A) :
  only P p -> only P handler -> only P (tryCatch p handler).
Proof.
  intros Hp Hh. induction p as [a| |k IH|g' k IH|op k IH|R op k IH];
    simpl in *; auto.
  - destruct Hp. auto.
  - destruct Hp. auto.
Qed.

Lemma only_tryFinally {A : Type} (p : Prog A) (fin : Prog unit) :
  only P p -> only P fin -> only P (tryFinally p fin).
Proof.
  intros Hp Hf. induction p as [a| |k IH|g' k IH|op k IH|R op k IH];
    simpl in *; auto.
  - apply only_bind; simpl; auto.
  - apply only_bind; simpl; auto.
  - destruct Hp. auto.
  - destruct Hp. auto.
Qed.

Lemma only_await {R : Type} (op : Op R) : P R op -> only P (await op).
Proof. intros H. simpl. split; [exact H|]. intros [x|]; exact I. Qed.

Lemma only_modify (f : Globals -> Globals) : only P (modify f).
Proof. simpl. auto. Qed.

(** What [only] promises is true of every run. *)
Lemma only_exec {A : Type} (w : World) (p : Prog A) h g :
  only P p ->
  exists ext, snd (exec w p h g) = h ++ ext /\ all P ext.
Proof.
  revert h g. induction p as [a| |k IH|g' k IH|op k IH|R op k IH];
    intros h g Hp; simpl in *.
  - exists []. rewrite app_nil_r. split; [reflexivity | constructor].
  - exists []. rewrite app_nil_r. split; [reflexivity | constructor].
  - apply IH. apply Hp.
  - apply IH. exact Hp.
  - destruct Hp as [H1 H2].
    destruct (IH (h ++ [Did op]) g H2) as (ext & E & F).
    exists (Did op :: ext). rewrite E, <- app_assoc.
    split; [reflexivity | constructor; assumption].
  - destruct Hp as [H1 H2].
    destruct (IH (respond w h op) (h ++ [Did op]) (interfere w h g)
                 (H2 _)) as (ext & E & F).
    exists (Did op :: ext). rewrite E, <- app_assoc.
    split; [reflexivity | constructor; assumption].
Qed.

End FootprintFacts.

Ltac only_step :=
  lazymatch goal with
  | |- Footprint.only _ (Background.Ret _) => exact I
  | |- Footprint.only _ Background.Throw => exact I
  | |- Footprint.only _ (Background.await _) => apply only_await
  | |- Footprint.only _ (Background.modify _) => apply only_modify
  | |- Footprint.only _ (Background.bind _ _) =>
      apply only_bind; [|intros ?]
  | |- Footprint.only _ (Background.Get _) => intros ?
  | |- Footprint.only _ (Background.Call _ _) => split
  | |- Footprint.only _ (Background.tryCatch _ _) => apply only_tryCatch
  | |- Footprint.only _ (Background.tryFinally _ _) =>
      apply only_tryFinally
  | |- Footprint.only _ (match ?x with _ => _ end) => destruct x
  | |- Footprint.only _ (if ?x then _ else _) => destruct x
  end.

Lemma findAndStoreTabs_lookup :
  Footprint.only Footprint.lookup Background.findAndStoreTabs.
Proof.
  unfold Background.findAndStoreTabs.
  repeat (only_step; try exact I).
Qed.

(** ** Delivery with retries *)

Lemma trace_snoc tabId message delay k :
  (1 <= k)%nat ->
  RetrySpec.trace tabId message delay (S k)
  = RetrySpec.trace tabId message delay k
    ++ [Background.Did (Background.Sleep delay);
        Background.Did (Background.TabsSendMessage tabId message)].
Proof. destruct k; [lia | reflexivity]. Qed.

Lemma trace_cons tabId message delay k :
  (1 <= k)%nat ->
  RetrySpec.trace tabId message delay (S k)
  = [Background.Did (Background.TabsSendMessage tabId message);
     Background.Did (Background.Sleep delay)]
    ++ RetrySpec.trace tabId message delay k.
Proof.
  induction k as [|k IH]; [lia|]. intros _.
  destruct k as [|k]; [reflexivity|].
  rewrite (trace_snoc _ _ _ (S (S k))) by lia.
  rewrite IH at 1 by lia.
  rewrite (trace_snoc _ _ _ (S k)) by lia.
  rewrite <- app_assoc. reflexivity.
Qed.

Lemma trace_last tabId message delay k :
  (1 <= k)%nat ->
  exists before,
    RetrySpec.trace tabId message delay k
    = before ++ [Background.Did (Background.TabsSendMessage tabId message)].
Proof.
  destruct k as [|[|k]]; [lia | exists []; reflexivity |]. intros _.
  exists (RetrySpec.trace tabId message delay (S k)
          ++ [Background.Did (Background.Sleep delay)]).
  rewrite trace_snoc by lia. rewrite <- app_assoc. reflexivity.
Qed.

Lemma attemptSend_attempts (w : Background.World) remaining tabId message
  delay h g :
  let r := Background.exec w
             (Background.attemptSend remaining tabId message delay) h g in
  exists k,
    (1 <= k <= S remaining)%nat
    /\ snd r = h ++ RetrySpec.trace tabId message delay k
    /\ (fst (fst r) = None -> k = S remaining)
    /\ Background.respond w (removelast (snd r))
         (Background.TabsSendMessage tabId message) = fst (fst r).
Proof.
  revert h g. induction remaining as [|n IH]; intros h g; simpl.
  - destruct (Background.respond w h _) as [v|] eqn:E; simpl.
    + exists 1%nat. repeat split; try lia; try discriminate.
      rewrite removelast_last. exact E.
    + exists 1%nat. repeat split; try lia.
      rewrite removelast_last. exact E.
  - destruct (Background.respond w h _) as [v|] eqn:E; simpl.
    + exists 1%nat. repeat split; try lia; try discriminate.
      rewrite removelast_last. exact E.
    + match goal with
      | |- context [Background.exec w _ ?h1 ?g1] =>
          destruct (IH h1 g1) as (k & Hk & Hh & Hn & Hr)
      end.
      exists (S k). split; [lia|]. split.
      * rewrite Hh. rewrite trace_cons by lia.
        repeat rewrite <- app_assoc. reflexivity.
      * split; [intros H; rewrite (Hn H); reflexivity | exact Hr].
Qed.

(** X4.  [sendMessageWithRetry] makes at least one attempt and at most
    [maxAttempts] of them, all to the same tab with the same message, and
    pauses [delay] before every retry.  It ends with the answer to its
    last attempt: resolved with the first response, rejected only once
    all its attempts failed.  Without a tab it is rejected and nothing is
    sent. *)
Theorem sendMessageWithRetry_attempts (w : Background.World)
  (tabId : Z) (message : Background.Message) (maxAttempts : nat)
  (delay : Z) (h : list Background.Action) (g : Background.Globals) :
  (let r := Background.exec w
              (Background.sendMessageWithRetry (Some tabId) message
                 maxAttempts delay) h g in
   exists k,
     (1 <= k <= Nat.max 1 maxAttempts)%nat
     /\ snd r = h ++ RetrySpec.trace tabId message delay k
     /\ (fst (fst r) = None -> k = Nat.max 1 maxAttempts)
     /\ Background.respond w (removelast (snd r))
          (Background.TabsSendMessage tabId message) = fst (fst r))
  /\ Background.exec w
       (Background.sendMessageWithRetry None message maxAttempts delay) h g
     = (None, g, h).
Proof.
  split; [|reflexivity].
  unfold Background.sendMessageWithRetry.
  destruct (attemptSend_attempts w (maxAttempts - 1) tabId message delay h g)
    as (k & Hk & Hh & Hn & Hr).
  exists k. replace (Nat.max 1 maxAttempts) with (S (maxAttempts - 1)) by lia.
  auto.
Qed.

Lemma sendMessageWithRetry_attempts_witness :
  exists k,
    (1 <= k <= 3)%nat
    /\ snd (Background.exec (BrowserScenario.browser (fun _ => false))
              (Background.sendMessageWithRetry (Some 3%Z) Background.Ping
                 3 1000) [] BrowserScenario.fresh)
       = RetrySpec.trace 3 Background.Ping 1000 k
    /\ k = 3%nat.
Proof.
  destruct (proj1 (sendMessageWithRetry_attempts
                     (BrowserScenario.browser (fun _ => false)) 3
                     Background.Ping 3 1000 [] BrowserScenario.fresh))
    as (k & Hk & Ht & Hn & _).
  exists k. split; [exact Hk|]. split; [exact Ht|].
  apply Hn. vm_compute. reflexivity.
Defined.

(** ** Focusing a tab *)

(** X5.  [focusTab] never lets an exception escape and sends no message.
    Without a tab id it answers [false] and makes no call at all; it
    answers [true] only if its last call activated the tab and the
    browser accepted it. *)
Theorem focusTab_total (w : Background.World) (tabId : option Z)
  (h : list Background.Action) (g : Background.Globals) :
  exists b g' h',
    Background.exec w (Background.focusTab tabId) h g = (Some b, g', h')
    /\ Background.sent h' = Background.sent h
    /\ (Background.idTruthy tabId = false -> b = false /\ g' = g /\ h' = h)
    /\ (b = true ->
        exists t h0,
          tabId = Some t
          /\ h' = h0 ++ [Background.Did (Background.TabsUpdateActive t)]
          /\ Background.respond w h0 (Background.TabsUpdateActive t)
             = Some tt).
Proof.
  unfold Background.focusTab. destruct tabId as [t|]; simpl.
  2:{ exists false, g, h. repeat split; auto; discriminate. }
  destruct (Z.eqb_spec t 0) as [->|Ht]; simpl.
  { exists false, g, h. repeat split; auto; discriminate. }
  destruct (Background.respond w h (Background.TabsGet t)) as [tab|] eqn:E1;
    simpl.
  2:{ eexists false, _, _. split; [reflexivity|].
      rewrite sent_app. simpl. rewrite app_nil_r.
      repeat split; auto; discriminate. }
  destruct (negb (Background.tab_windowId tab =? Background.WINDOW_ID_CURRENT)%Z);
    simpl.
  - match goal with
    | |- context [Background.respond w ?h1 (Background.WindowsUpdateFocused ?x)] =>
        destruct (Background.respond w h1 (Background.WindowsUpdateFocused x))
          as [[]|] eqn:E2
    end; simpl.
    2:{ eexists false, _, _. split; [reflexivity|].
        repeat rewrite sent_app. simpl. repeat rewrite app_nil_r.
        repeat split; auto; discriminate. }
    match goal with
    | |- context [Background.respond w ?h1 (Background.TabsUpdateActive ?x)] =>
        destruct (Background.respond w h1 (Background.TabsUpdateActive x))
          as [[]|] eqn:E3
    end; simpl.
    + eexists true, _, _. split; [reflexivity|].
      repeat rewrite sent_app. simpl. repeat rewrite app_nil_r.
      split; [reflexivity|]. split; [discriminate|]. intros _.
      eexists t, _. split; [reflexivity|]. split; [reflexivity | exact E3].
    + eexists false, _, _. split; [reflexivity|].
      repeat rewrite sent_app. simpl. repeat rewrite app_nil_r.
      repeat split; auto; discriminate.
  - match goal with
    | |- context [Background.respond w ?h1 (Background.TabsUpdateActive ?x)] =>
        destruct (Background.respond w h1 (Background.TabsUpdateActive x))
          as [[]|] eqn:E3
    end; simpl.
    + eexists true, _, _. split; [reflexivity|].
      repeat rewrite sent_app. simpl. repeat rewrite app_nil_r.
      split; [reflexivity|]. split; [discriminate|]. intros _.
      eexists t, _. split; [reflexivity|]. split; [reflexivity | exact E3].
    + eexists false, _, _. split; [reflexivity|].
      repeat rewrite sent_app. simpl. repeat rewrite app_nil_r.
      repeat split; auto; discriminate.
Qed.

Lemma focusTab_total_witness :
  exists b g' h',
    Background.exec (BrowserScenario.browser (fun _ => false))
      (Background.focusTab (Some 0%Z)) [] BrowserScenario.fresh
    = (Some b, g', h')
    /\ b = false /\ g' = BrowserScenario.fresh /\ h' = [].
Proof.
  destruct (focusTab_total (BrowserScenario.browser (fun _ => false))
              (Some 0%Z) [] BrowserScenario.fresh)
    as (b & g' & h' & E & _ & Hz & _).
  exists b, g', h'. split; [exact E|]. apply Hz. reflexivity.
Defined.

(** ** What [processQuestion] sends *)

Lemma attemptSend_only (P : forall R : Type, Background.Op R -> Prop)
  remaining tabId message delay :
  P _ (Background.TabsSendMessage tabId message) ->
  P _ (Background.Sleep delay) ->
  Footprint.only P (Background.attemptSend remaining tabId message delay).
Proof.
  intros Hs Hd. induction remaining as [|n IH]; simpl.
  - split; [exact Hs|]. intros [v|]; exact I.
  - split; [exact Hs|]. intros [v|]; simpl; auto.
Qed.

Lemma sendMessageWithRetry_only (P : forall R : Type, Background.Op R -> Prop)
  tabId message maxAttempts delay :
  (forall t, P _ (Background.TabsSendMessage t message)) ->
  P _ (Background.Sleep delay) ->
  Footprint.only P
    (Background.sendMessageWithRetry tabId message maxAttempts delay).
Proof.
  intros Hs Hd. unfold Background.sendMessageWithRetry.
  destruct tabId; [apply attemptSend_only; auto | exact I].
Qed.

Lemma focusTab_only (P : forall R : Type, Background.Op R -> Prop) tabId :
  (forall t, P _ (Background.TabsGet t)) ->
  (forall t, P _ (Background.TabsUpdateActive t)) ->
  (forall x, P _ (Background.WindowsUpdateFocused x)) ->
  Footprint.only P (Background.focusTab tabId).
Proof.
  intros H1 H2 H3. unfold Background.focusTab.
  repeat (only_step; auto).
Qed.

Lemma lookup_relays message (R : Type) (op : Background.Op R) :
  Footprint.lookup R op -> Footprint.relays message R op.
Proof. destruct op; simpl; tauto. Qed.

Lemma shouldFocusTabs_only (P : forall R : Type, Background.Op R -> Prop) :
  (forall R (op : Background.Op R), Footprint.lookup R op -> P R op) ->
  Footprint.only P Background.shouldFocusTabs.
Proof.
  intros H. unfold Background.shouldFocusTabs.
  apply only_bind;
    [exact (only_weaken P _ _ H findAndStoreTabs_lookup)|].
  intros _. repeat only_step.
Qed.

Lemma processQuestion_only (message : Background.QuestionMessage) :
  Footprint.only (Footprint.relays message)
    (Background.processQuestion message).
Proof.
  assert (F : Footprint.only (Footprint.relays message)
                Background.findAndStoreTabs)
    by exact (only_weaken _ _ _ (lookup_relays message)
                findAndStoreTabs_lookup).
  unfold Background.processQuestion.
  repeat lazymatch goal with
    | |- Footprint.only _ Background.findAndStoreTabs => exact F
    | |- Footprint.only _ Background.shouldFocusTabs =>
        apply shouldFocusTabs_only; apply lookup_relays
    | |- Footprint.only _ (Background.focusTab _) =>
        apply focusTab_only; intros; exact I
    | |- Footprint.only _ (Background.sendMessageWithRetry _ _ _ _) =>
        apply sendMessageWithRetry_only; simpl; eauto
    | |- Footprint.only _ (Background.await (Background.Sleep _)) =>
        apply only_await; simpl; auto
    | |- _ /\ _ => split
    | |- Footprint.relays _ _ _ => exact I
    | |- _ => only_step
    end.
Qed.

Lemma relays_sent message (ext : list Background.Action) tabId m :
  Footprint.all (Footprint.relays message) ext ->
  In (tabId, m) (Background.sent ext) ->
  m = Background.ReceiveQuestion (Background.question message)
  \/ (exists aiType,
         m = Background.AlertMessage (Background.pleaseOpen aiType))
  \/ (exists aiType,
         m = Background.AlertMessage (Background.errorCommunicating aiType)).
Proof.
  induction 1 as [|[R op] ext Hop _ IH]; simpl; [contradiction|].
  destruct op; simpl in *; auto.
  intros [E | H]; [|auto]. injection E as <- <-. exact Hop.
Qed.

(** X6.  Whatever the browser answers, the only messages that
    [processQuestion] itself sends to tabs are the question it was
    handed, unchanged, and its two alerts, and it pauses only for 300 ms
    or 1000 ms.  Of all the messages that a run causes, every other one is
    the ping of an injection that the run started, sent to the tab of
    that injection. *)
Theorem processQuestion_relays (w : Background.World)
  (message : Background.QuestionMessage) (h : list Background.Action)
  (g : Background.Globals) :
  exists ext,
    snd (Background.exec w (Background.processQuestion message) h g)
    = h ++ ext
    /\ Footprint.all (Footprint.relays message) ext
    /\ forall meets tabId m,
         In (tabId, m)
            (Injection.allSent meets (Injection.ofBackground ext)) ->
         m = Injection.Plain
               (Background.ReceiveQuestion (Background.question message))
         \/ (exists aiType,
                m = Injection.Plain
                      (Background.AlertMessage
                         (Background.pleaseOpen aiType)))
         \/ (exists aiType,
                m = Injection.Plain
                      (Background.AlertMessage
                         (Background.errorCommunicating aiType)))
         \/ (m = Injection.Plain Background.Ping
             /\ In tabId
                  (Injection.started (Injection.ofBackground ext))).
Proof.
  destruct (only_exec _ w (Background.processQuestion message) h g
              (processQuestion_only message)) as (ext & E & F).
  exists ext. split; [exact E|]. split; [exact F|].
  intros meets tabId m H. apply allSent_in in H.
  destruct H as [H | (t & Ht & Hx)].
  - rewrite sent_ofBackground in H. apply in_map_iff in H.
    destruct H as ([t m0] & Hx & Hin). simpl in Hx.
    injection Hx as <- <-.
    destruct (relays_sent message ext t m0 F Hin)
      as [-> | [[a ->] | [a ->]]]; eauto 6.
  - injection Hx as -> ->. auto 6.
Qed.


Lemma shouldFocusTabs_history (w : Background.World)
  (h : list Background.Action) (g : Background.Globals) :
  snd (Background.exec w Background.shouldFocusTabs h g)
  = snd (Background.exec w Background.findAndStoreTabs h g).
Proof.
  unfold Background.shouldFocusTabs. rewrite exec_bind.
  destruct (Background.exec w Background.findAndStoreTabs h g)
    as [[[[]|] g'] h']; reflexivity.
Qed.

(** The messages that a run causes whose own calls send nothing and
    start at most one injection: none, or one ping. *)
Lemma allSent_lookup (w : Background.World) (ext : list Background.Action)
  (meets : nat -> Injection.Meets) :
  Background.sent ext = [] ->
  InjectionSpec.startsForTextbook w (Injection.ofBackground ext) ->
  Injection.allSent meets (Injection.ofBackground ext) = []
  \/ exists tabId,
       Injection.started (Injection.ofBackground ext) = [tabId]
       /\ Injection.allSent meets (Injection.ofBackground ext)
          = [(tabId, Injection.Plain Background.Ping)].
Proof.
  intros Hs [E | (h0 & site & tab & rest & _ & E)].
  - left. rewrite (allSent_none _ _ E), sent_ofBackground, Hs. reflexivity.
  - destruct (allSent_one meets _ _ E) as (pings & -> & [-> | ->]);
      rewrite sent_ofBackground, Hs; simpl; [left; reflexivity|].
    right. exists (Background.tab_id tab). auto.
Qed.

Lemma lookup_silent (ext : list Background.Action) :
  Footprint.all Footprint.lookup ext ->
  Background.sent ext = [] /\ forallb Background.quiet ext = true.
Proof.
  induction 1 as [|[R op] ext Hop _ [IH1 IH2]]; [split; reflexivity|].
  destruct op; simpl in *; try contradiction; auto.
Qed.

(** X7.  [findAndStoreTabs] and [shouldFocusTabs] only look up:
    whatever the browser answers, their own calls are storage reads, the
    copy of the website name into sync storage, tab queries and the start
    of an injection; they send no message, focus no tab or window and arm
    no timer.  They start at most one injection, for the first tab that
    the query for the textbook found, so that all the messages that a run
    causes are none, or one ping to that tab. *)
Theorem tab_lookup_footprint (w : Background.World)
  (h : list Background.Action) (g : Background.Globals) :
  let lookedUp (h' : list Background.Action) :=
    exists ext,
      h' = h ++ ext
      /\ Footprint.all Footprint.lookup ext
      /\ Background.sent ext = []
      /\ forallb Background.quiet ext = true
      /\ InjectionSpec.startsForTextbook w (Injection.ofBackground ext)
      /\ forall meets,
           Injection.allSent meets (Injection.ofBackground ext) = []
           \/ exists tabId,
                Injection.started (Injection.ofBackground ext) = [tabId]
                /\ Injection.allSent meets (Injection.ofBackground ext)
                   = [(tabId, Injection.Plain Background.Ping)] in
  lookedUp (snd (Background.exec w Background.findAndStoreTabs h g))
  /\ lookedUp (snd (Background.exec w Background.shouldFocusTabs h g)).
Proof.
  intros lookedUp.
  assert (F : lookedUp
                (snd (Background.exec w Background.findAndStoreTabs h g))).
  { destruct (only_exec Footprint.lookup w Background.findAndStoreTabs h g
                findAndStoreTabs_lookup) as (ext & E & F).
    destruct (findAndStoreTabs_starts w h g) as (ext' & E' & S).
    rewrite E in E'. apply app_inv_head in E'. subst ext'.
    destruct (lookup_silent ext F) as [Hs Hq].
    exists ext. repeat split; auto.
    intros meets. exact (allSent_lookup w ext meets Hs S). }
  split; [exact F|]. rewrite shouldFocusTabs_history. exact F.
Qed.


(** ** From the page to the prompt *)

Lemma insertQuestionText_some (qd : Education.QuestionData) :
  (eqb (Education.q_type qd) (lit "matching") = true ->
   exists prompts choices,
     Education.q_options qd = Education.OMatching prompts choices) ->
  exists body,
    Assistant.insertQuestionText qd = Some (body ++ Assistant.jsonInstruction).
Proof.
  intros H. unfold Assistant.insertQuestionText.
  match goal with
  | |- context [match ?t with Some x => Some (x ++ _) | None => None end] =>
      assert (E : exists body, t = Some body);
        [|destruct E as [body ->]; exists body; reflexivity]
  end.
  destruct (eqb (Education.q_type qd) (lit "matching")).
  - destruct (H eq_refl) as (prompts & choices & ->). eexists. reflexivity.
  - destruct (eqb (Education.q_type qd) (lit "fill_in_the_blank"));
      [eexists; reflexivity|].
    destruct (Education.q_options qd) as [[|o os]|]; eexists; reflexivity.
Qed.

(** X8.  Composing the prompt never fails for a question that
    [parseQuestion] read off the page: a matching question always comes
    with its lists of prompts and choices.  The prompt ends with the
    request for a JSON answer. *)
Theorem parsed_question_has_prompt (s : Education.Script)
  (c : Education.Container) :
  exists qd body,
    Education.parseQuestion s (Some c) = Some qd
    /\ Assistant.insertQuestionText qd
       = Some (body ++ Assistant.jsonInstruction).
Proof.
  unfold Education.parseQuestion.
  match goal with
  | |- exists qd body, Some ?q = Some qd /\ _ =>
      destruct (insertQuestionText_some q) as [body Hb]
  end.
  - cbn [Education.q_type Education.q_options].
    intros ->. eexists _, _. reflexivity.
  - eexists _, body. split; [reflexivity | exact Hb].
Qed.

(** ** Filling in the blanks *)

Lemma fillBlanks_spec (answers : list value) (index : nat)
  (inputs : list value) :
  let r := Education.fillBlanks answers index inputs in
  let given j :=
    match nth_error answers j with
    | Some a => truthy a
    | None => false
    end in
  List.length (fst r) = List.length inputs
  /\ (forall j old,
         nth_error inputs j = Some old ->
         nth_error (fst r) j
         = Some (if given (index + j)%nat
                 then nth (index + j) answers VUndefined else old))
  /\ snd r
     = map Education.DispatchInput
         (filter given (seq index (List.length inputs))).
Proof.
  revert index. induction inputs as [|old inputs IH]; intros index; simpl.
  - repeat split. intros [|j] old; discriminate.
  - specialize (IH (S index)). simpl in IH.
    destruct (Education.fillBlanks answers (S index) inputs) as [rest effs].
    simpl in IH. destruct IH as (IH1 & IH2 & IH3).
    destruct (nth_error answers index) as [a|] eqn:Ea.
    + destruct (truthy a) eqn:Ta; simpl.
      * split; [f_equal; exact IH1|]. split; [|f_equal; exact IH3].
        intros [|j] o; simpl.
        -- intros _. rewrite Nat.add_0_r, Ea, Ta.
           rewrite (nth_error_nth _ _ _ Ea). reflexivity.
        -- intros Hj. rewrite (IH2 j o Hj).
           replace (index + S j)%nat with (S (index + j)) by lia.
           reflexivity.
      * split; [f_equal; exact IH1|]. split; [|exact IH3].
        intros [|j] o; simpl.
        -- intros H; injection H as <-. rewrite Nat.add_0_r, Ea, Ta.
           reflexivity.
        -- intros Hj. rewrite (IH2 j o Hj).
           replace (index + S j)%nat with (S (index + j)) by lia.
           reflexivity.
    + simpl. split; [f_equal; exact IH1|]. split; [|exact IH3].
      intros [|j] o; simpl.
      * intros H; injection H as <-. rewrite Nat.add_0_r, Ea. reflexivity.
      * intros Hj. rewrite (IH2 j o Hj).
        replace (index + S j)%nat with (S (index + j)) by lia.
        reflexivity.
Qed.

(** X9.  In a fill-in-the-blank question the inputs keep their number and
    order; input [j] receives answer [j] exactly when that answer exists
    and is truthy, and an input event is dispatched for exactly those
    inputs, in order.  Answers beyond the last input are dropped, inputs
    beyond the last answer and inputs whose answer is empty keep what
    they held. *)
Theorem fillBlanks_pointwise (answers inputs : list value) :
  let r := Education.fillBlanks answers 0 inputs in
  let given j :=
    match nth_error answers j with
    | Some a => truthy a
    | None => false
    end in
  List.length (fst r) = List.length inputs
  /\ (forall j old,
         nth_error inputs j = Some old ->
         nth_error (fst r) j
         = Some (if given j then nth j answers VUndefined else old))
  /\ snd r
     = map Education.DispatchInput
         (filter given (seq 0 (List.length inputs))).
Proof. exact (fillBlanks_spec answers 0 inputs). Qed.

Lemma fillBlanks_pointwise_witness :
  nth_error
    (fst (Education.fillBlanks [VStr (lit "a"); VStr []; VStr (lit "c")] 0
            [VStr (lit "x"); VStr (lit "y")])) 1
  = Some (VStr (lit "y")).
Proof.
  apply (proj1 (proj2 (fillBlanks_pointwise
                         [VStr (lit "a"); VStr []; VStr (lit "c")]
                         [VStr (lit "x"); VStr (lit "y")]))
           1%nat (VStr (lit "y"))).
  reflexivity.
Defined.

(** ** A reply whose answer is not a string *)

Lemma wanted_non_string (v : value) (rest : list value)
  (choice : Education.Choice) :
  (forall t, v <> VStr t) ->
  Education.wanted (v :: rest) choice
  = match Education.c_label choice with
    | Some (Some text) =>
        match trim text with [] => Some false | _ => None end
    | _ => Some false
    end.
Proof.
  intros Hv. unfold Education.wanted.
  destruct (Education.c_label choice) as [[text|]|]; try reflexivity.
  destruct (trim text); [reflexivity|].
  destruct v; try reflexivity. exfalso. exact (Hv s eq_refl).
Qed.

Lemma forEachChoice_non_string (v : value) (rest : list value)
  (idxs : list nat) (cs : list Education.Choice) :
  (forall t, v <> VStr t) ->
  Education.forEachChoice (v :: rest) idxs cs
  = (cs, Selection.finishes (v :: rest) idxs cs).
Proof.
  intros Hv. induction idxs as [|i idxs IH]; simpl; [reflexivity|].
  destruct (nth_error cs i) as [choice|]; [|exact IH].
  rewrite (wanted_non_string v rest choice Hv).
  destruct (Education.c_label choice) as [[text|]|]; try exact IH.
  destruct (trim text); [exact IH | reflexivity].
Qed.

Lemma finishes_stops (answers : list value) (idxs : list nat)
  (cs : list Education.Choice) (i : nat) (choice : Education.Choice) :
  In i idxs -> nth_error cs i = Some choice ->
  Education.wanted answers choice = None ->
  Selection.finishes answers idxs cs = false.
Proof.
  intros Hi Hc Hw. induction idxs as [|k idxs IH]; [contradiction|].
  simpl. destruct Hi as [->|Hi].
  - rewrite Hc, Hw. reflexivity.
  - destruct (nth_error cs k) as [c'|]; [|exact (IH Hi)].
    destruct (Education.wanted answers c'); [exact (IH Hi) | reflexivity].
Qed.

Lemma withContainer_same (p : Education.Page) (c : Education.Container) :
  Education.container p = Some c ->
  Education.withContainer p (Education.withChoices c (Education.choices c))
  = p.
Proof. destruct p, c; simpl; intros ->; reflexivity. Qed.

(** X10.  A reply whose first candidate answer is not a string (a number,
    [true], an object, or no answer at all) makes the selection step of
    a question with options throw at the first option that has a text:
    no input is clicked, the error is logged, and the confidence button
    is not waited for.  The stored correction is cleared all the same. *)
Theorem non_string_answer_selects_nothing
  (responseText : jsstring) (response v : value) (rest : list value)
  (s : Education.Script) (p : Education.Page) (c : Education.Container)
  (choice : Education.Choice) (text : jsstring) :
  Education.handleTopicOverview p = false ->
  Education.handleForcedLearning p = false ->
  JSON_parse responseText = Some response ->
  Education.answersOf response = Some (v :: rest) ->
  (forall t, v <> VStr t) ->
  Education.container p = Some c ->
  Education.hasMatching c = false ->
  Education.hasFillInTheBlank c = false ->
  In choice (Education.choices c) ->
  Education.c_label choice = Some (Some text) ->
  trim text <> [] ->
  Education.processChatGPTResponse responseText s p
  = (Education.clearCorrection s, p,
     (if Education.countdownShown p
      then [Education.SetCountdownText (lit "Answered")] else [])
     ++ [Education.LogError]).
Proof.
  intros H1 H2 Hp Ha Hv Hc Hm Hf Hin Hl Ht.
  unfold Education.processChatGPTResponse.
  rewrite H1, H2, Hp, Ha, Hc, Hm, Hf.
  unfold Education.selectChoices.
  rewrite (forEachChoice_non_string v rest _ _ Hv).
  destruct (In_nth_error _ _ Hin) as [i Hi].
  rewrite (finishes_stops (v :: rest) _ (Education.choices c) i choice).
  - rewrite (withContainer_same p c Hc). reflexivity.
  - apply in_seq. split; [lia|]. simpl.
    apply nth_error_Some. congruence.
  - exact Hi.
  - rewrite (wanted_non_string v rest choice Hv), Hl.
    destruct (trim text); [congruence | reflexivity].
Qed.

Lemma non_string_answer_selects_nothing_witness :
  Education.processChatGPTResponse Samples.numberReply Witness.script
    Witness.page
  = (Education.clearCorrection Witness.script, Witness.page,
     [Education.SetCountdownText (lit "Answered"); Education.LogError]).
Proof.
  refine (non_string_answer_selects_nothing Samples.numberReply
            (VObj [(lit "answer", VNum 42 0)]) (VNum 42 0) []
            Witness.script Witness.page _ _ (lit " True ")
            _ _ _ _ _ eq_refl _ _ _ _ _).
  - reflexivity.
  - reflexivity.
  - vm_compute. reflexivity.
  - reflexivity.
  - intros t H. discriminate H.
  - reflexivity.
  - reflexivity.
  - left. reflexivity.
  - reflexivity.
  - vm_compute. discriminate.
Defined.

(** ** The decision on the delay *)



Lemma applyRandomDelay_positive (random : Q) (storedMin storedMax : option Z)
  (delay : Z) :
  (0 <= random)%Q -> (random < 1)%Q ->
  (0 <= match storedMin with Some v => v | None => 22 end)%Z ->
  (0 <= match storedMax with Some v => v | None => 97 end)%Z ->
  Education.applyRandomDelayIfEnabled random storedMin storedMax
  = Education.SetupDelayTimer delay ->
  (0 < delay)%Z.
Proof.
  intros H0 H1 Hmin Hmax. unfold Education.applyRandomDelayIfEnabled.
  set (minDelay := match storedMin with Some v => v | None => 22%Z end) in *.
  set (maxDelay := match storedMax with Some v => v | None => 97%Z end) in *.
  assert (R := generateRandomDelay_lower random minDelay maxDelay H0).
  destruct ((minDelay =? 0)%Z && (maxDelay =? 0)%Z); [discriminate|].
  destruct (Z.eqb_spec (Education.generateRandomDelay random minDelay maxDelay)
              0) as [Hz|Hz]; [discriminate|].
  intros H; injection H as <-. lia.
Qed.


Lemma last_map_some_cons (i : nat) (l : list nat) :
  last (map Some (i :: l)) None
  = match last (map Some l) None with
    | Some k => Some k
    | None => Some i
    end.
Proof.
  revert i; induction l as [|x l IH]; intros i; [reflexivity|].
  change (last (map Some (i :: x :: l)) None)
    with (last (map Some (x :: l)) None).
  rewrite IH. destruct (last (map Some l) None); reflexivity.
Qed.

Lemma totalOp_radioGroup answers idxs cs name j target :
  SelectionSpec.radioGroup name cs ->
  Education.c_kind target = Education.Radio ->
  Education.c_name target = name ->
  Selection.totalOp answers idxs (map Selection.skel cs) j target
  = if Selection.finishes answers idxs (map Selection.skel cs)
    then match last (map Some (filter (SelectionSpec.wantedAt answers cs)
                                 idxs)) None with
         | Some k => if Nat.eqb j k then Education.Set1 else Education.Set0
         | None => Education.Keep
         end
    else Selection.totalOp answers idxs (map Selection.skel cs) j target.
Proof.
  intros [Hne Hcs] Hk Hn. induction idxs as [|i rest IH]; [reflexivity|].
  cbn [Selection.totalOp Selection.finishes filter].
  unfold SelectionSpec.wantedAt at 1. rewrite nth_error_map.
  destruct (nth_error cs i) as [choice|] eqn:Ei; cbn [option_map];
    [|exact IH].
  change (Education.wanted answers (Selection.skel choice))
    with (Education.wanted answers choice).
  destruct (Education.wanted answers choice) as [[|]|];
    [|exact IH|reflexivity].
  destruct (Selection.finishes answers rest (map Selection.skel cs));
    [|reflexivity].
  rewrite IH, last_map_some_cons.
  destruct (Hcs choice (nth_error_In _ _ Ei)) as (Ck & Cd & Cn).
  unfold Education.clickEffect, Education.inGroup. simpl.
  rewrite Cd, Ck, Hk, Cn, Hn.
  destruct name as [|u name]; [congruence|].
  rewrite (eqb_refl (u :: name)).
  destruct (last (map Some (filter _ rest)) None) as [k|]; simpl.
  - destruct (Nat.eqb j k); reflexivity.
  - destruct (Nat.eqb j i); reflexivity.
Qed.

(** X12.  On the enabled radio buttons of one group, a selection step that
    ends normally leaves exactly one button selected, the last one whose
    text matches an answer; when no text matches, every button keeps its
    state. *)
Theorem radio_group_selection (answers : list value)
  (cs : list Education.Choice) (name : jsstring) :
  SelectionSpec.radioGroup name cs ->
  snd (Education.selectChoices answers cs) = true ->
  forall j c,
    nth_error cs j = Some c ->
    nth_error (fst (Education.selectChoices answers cs)) j
    = Some (Education.setChecked
              (match SelectionSpec.lastWanted answers cs with
               | Some k => Nat.eqb j k
               | None => Education.c_checked c
               end) c).
Proof.
  intros Hg. unfold Education.selectChoices.
  rewrite forEachChoice_pointwise. cbn [fst snd]. intros Hfin j c Hj.
  rewrite nth_error_mapi, Hj. cbn [option_map]. f_equal. f_equal.
  destruct Hg as [Hne Hcs].
  destruct (Hcs c (nth_error_In _ _ Hj)) as (Ck & Cd & Cn).
  rewrite (totalOp_radioGroup answers _ cs name (0 + j) c
             (conj Hne Hcs) Ck Cn).
  rewrite Hfin. unfold SelectionSpec.lastWanted.
  destruct (last _ None) as [k|]; [|reflexivity]. simpl.
  destruct (Nat.eqb j k); reflexivity.
Qed.

Lemma radio_group_selection_witness :
  nth_error
    (fst (Education.selectChoices [VStr (lit "True")] Witness.radios)) 1
  = option_map (Education.setChecked false) (nth_error Witness.radios 1).
Proof.
  refine (radio_group_selection [VStr (lit "True")] Witness.radios
            (lit "q1") _ _ 1%nat _ eq_refl).
  - split; [vm_compute; discriminate|].
    intros x [<-|[<-|[]]]; repeat split; reflexivity.
  - vm_compute. reflexivity.
Defined.



Section CountdownFacts.

Import Countdown CountdownSpec.

Lemma clearIntervalTimer_tidy (s : State) :
  tidy s ->
  clearIntervalTimer s
  = {| script := script s;
       countdownTimer := None;
       currentDelayTimeout := currentDelayTimeout s;
       currentDelayResolver := currentDelayResolver s;
       countdownElement := countdownElement s; skipButton := skipButton s;
       intervals := [];
       timeouts := timeouts s;
       requests := requests s; next := next s |}.
Proof.
  intros [[Hi|(id & r & Hi & Hv)] _]; unfold clearIntervalTimer.
  - destruct s as [sc ct dt dr ce sb iv tm rq nx]; simpl in *. subst iv.
    destruct ct; reflexivity.
  - destruct s as [sc ct dt dr ce sb iv tm rq nx]; simpl in *. subst iv ct.
    simpl. rewrite Nat.eqb_refl. reflexivity.
Qed.

Lemma clearTimeoutTimer_tidy (s : State) :
  tidy s ->
  clearTimeoutTimer s
  = {| script := script s;
       countdownTimer := countdownTimer s;
       currentDelayTimeout := None;
       currentDelayResolver := currentDelayResolver s;
       countdownElement := countdownElement s; skipButton := skipButton s;
       intervals := intervals s;
       timeouts := [];
       requests := requests s; next := next s |}.
Proof.
  intros [_ [Hi|(id & Hi & Hv)]]; unfold clearTimeoutTimer.
  - destruct s as [sc ct dt dr ce sb iv tm rq nx]; simpl in *. subst tm.
    destruct dt; reflexivity.
  - destruct s as [sc ct dt dr ce sb iv tm rq nx]; simpl in *. subst tm dt.
    simpl. rewrite Nat.eqb_refl. reflexivity.
Qed.

(** With tidy timers the two cancellations leave none. *)
Lemma clearTimers_tidy (s : State) :
  tidy s ->
  clearTimeoutTimer (clearIntervalTimer s)
  = {| script := script s;
       countdownTimer := None;
       currentDelayTimeout := None;
       currentDelayResolver := currentDelayResolver s;
       countdownElement := countdownElement s; skipButton := skipButton s;
       intervals := [];
       timeouts := [];
       requests := requests s; next := next s |}.
Proof.
  intros H. rewrite (clearIntervalTimer_tidy s H).
  rewrite clearTimeoutTimer_tidy; [reflexivity|].
  destruct H as [_ H]. split; [left; reflexivity | exact H].
Qed.


Lemma noTimer_tidy (s : State) : CountdownSpec.noTimer s -> tidy s.
Proof. intros (H1 & H2 & _). split; left; assumption. Qed.

Lemma clearCountdown_noTimer (hideDisplay : bool) (s : State) :
  tidy s -> CountdownSpec.noTimer (clearCountdown hideDisplay s).
Proof.
  intros H. unfold clearCountdown. rewrite (clearTimers_tidy s H).
  unfold hideControlButtons, setResolver, setElements, CountdownSpec.noTimer.
  destruct hideDisplay; simpl; [|auto].
  destruct (countdownElement s); simpl;
    destruct (skipButton s); simpl; auto.
Qed.

Lemma hideControlButtons_noTimer (s : State) :
  CountdownSpec.noTimer s -> CountdownSpec.noTimer (hideControlButtons s).
Proof.
  unfold hideControlButtons, CountdownSpec.noTimer. destruct (skipButton s); simpl; auto.
Qed.

Lemma updateCountdownDisplay_timers (r : Z) (s : State) :
  intervals (updateCountdownDisplay r s) = intervals s
  /\ timeouts (updateCountdownDisplay r s) = timeouts s
  /\ countdownTimer (updateCountdownDisplay r s) = countdownTimer s
  /\ currentDelayTimeout (updateCountdownDisplay r s)
     = currentDelayTimeout s
  /\ next (updateCountdownDisplay r s) = next s.
Proof.
  unfold updateCountdownDisplay. destruct (countdownElement s); simpl; auto.
Qed.

Lemma setupDelayTimer_tidy (delay : Z) (s : State) :
  CountdownSpec.noTimer s -> tidy (setupDelayTimer delay s).
Proof.
  intros (H1 & H2 & H3 & H4). unfold setupDelayTimer.
  destruct (updateCountdownDisplay_timers (- (- delay / 1000)) s)
    as (E1 & E2 & E3 & E4 & E5).
  split; simpl; right.
  - rewrite E1, H1. eexists _, _. split; reflexivity.
  - rewrite E2, H2. eexists. split; reflexivity.
Qed.

Lemma applyRandomDelayIfEnabled_tidy (storage : bool) (s : State) :
  tidy s -> tidy (fst (applyRandomDelayIfEnabled storage s)).
Proof. intros H. exact H. Qed.

Lemma checkForNextStep_tidy v storage (s : State) :
  tidy s -> tidy (fst (checkForNextStep v storage s)).
Proof.
  intros H. unfold checkForNextStep.
  destruct (negb _); [exact H|].
  destruct (Education.handleTopicOverview _); [exact H|].
  destruct (Education.handleForcedLearning _); [exact H|].
  destruct (Education.container _); [|exact H].
  destruct (forcedLearning v); exact H.
Qed.

Lemma tick_tidy id r (s : State) :
  tidy s -> tidy (tick id r s).
Proof.
  intros [Hi Ht]. unfold tick.
  set (s1 := {| script := script s; countdownTimer := countdownTimer s;
                currentDelayTimeout := currentDelayTimeout s;
                currentDelayResolver := currentDelayResolver s;
                countdownElement := countdownElement s;
                skipButton := skipButton s;
                intervals := map (fun t => if Nat.eqb (fst t) id
                                           then (id, (r - 1)%Z) else t)
                               (intervals s);
                timeouts := timeouts s; requests := requests s;
                next := next s |}).
  assert (T1 : tidy s1).
  { split; [|exact Ht]. simpl.
    destruct Hi as [Hi|(i & r0 & Hi & Hv)]; rewrite Hi; simpl;
      [left; reflexivity|].
    right. destruct (Nat.eqb_spec i id) as [->|_];
      eexists _, _; split; (reflexivity || exact Hv). }
  assert (U : forall x s0, tidy s0 -> tidy (updateCountdownDisplay x s0)).
  { intros x s0 [A B].
    destruct (updateCountdownDisplay_timers x s0) as (E1 & E2 & E3 & E4 & _).
    split; [rewrite E1, E3 | rewrite E2, E4]; assumption. }
  destruct (r - 1 <=? 0)%Z; [|apply U; exact T1].
  apply U. rewrite clearIntervalTimer_tidy by (apply U; exact T1).
  destruct (updateCountdownDisplay_timers (r - 1) s1) as (E1 & E2 & E3 & E4 & _).
  split; simpl; [left; reflexivity|]. rewrite E2, E4. exact Ht.
Qed.

Lemma step_tidy (s : State) (ev : Event) :
  tidy s -> tidy (fst (step s ev)).
Proof.
  intros H. destruct ev; simpl.
  - (* BuildUI *)
    destruct (countdownElement s); [exact H|]. exact H.
  - (* ToggleClick *)
    destruct (countdownElement s); [|exact H].
    destruct (Education.isAutomating (script s)).
    + simpl. apply noTimer_tidy, hideControlButtons_noTimer,
        clearCountdown_noTimer. exact H.
    + destruct proceed; [|exact H].
      apply checkForNextStep_tidy. exact H.
  - apply checkForNextStep_tidy. exact H.
  - (* StorageCallback *)
    destruct (existsb _ _); [|exact H].
    unfold storageCallback. destruct lastError; [exact H|].
    destruct (Education.applyRandomDelayIfEnabled _ _ _); simpl.
    + apply noTimer_tidy, clearCountdown_noTimer. exact H.
    + apply setupDelayTimer_tidy, clearCountdown_noTimer. exact H.
  - (* Tick *)
    destruct (find _ _) as [[i r]|]; [|exact H]. simpl.
    apply tick_tidy. exact H.
  - (* TimeoutFires *)
    destruct (existsb _ _); [|exact H]. unfold delayElapsed. simpl.
    match goal with
    | |- tidy (setResolver None (clearTimeoutTimer (clearIntervalTimer ?s0))) =>
        assert (T0 : tidy s0)
    end.
    { destruct H as [Hi Ht]. split; [exact Hi|]. simpl.
      destruct Ht as [Ht|(i & Ht & Hv)]; rewrite Ht; simpl;
        [left; reflexivity|].
      destruct (Nat.eqb i id); simpl; [left; reflexivity|].
      right. exists i. split; [reflexivity | exact Hv]. }
    rewrite (clearTimers_tidy _ T0). split; left; reflexivity.
  - (* SkipClick *)
    destruct (skipButton s); [|exact H]. simpl.
    apply noTimer_tidy, clearCountdown_noTimer. exact H.
  - (* Answered *)
    destruct (countdownElement s) as [d|]; [|exact H].
    destruct (d_shown d); exact H.
  - (* Corrected *)
    exact H.
  - (* ModelChanged *)
    destruct (countdownElement s); [|exact H].
    destruct (Education.isAutomating (script s)); [exact H|]. simpl.
    apply noTimer_tidy, hideControlButtons_noTimer, clearCountdown_noTimer.
    exact H.
  - exact H.
  - simpl. apply noTimer_tidy, clearCountdown_noTimer. exact H.
Qed.

Lemma run_cons (s : State) (ev : Event) (evs : list Event) :
  run s (ev :: evs)
  = (fst (run (fst (step s ev)) evs),
     snd (step s ev) ++ snd (run (fst (step s ev)) evs)).
Proof.
  simpl. destruct (step s ev) as [s1 o1]. simpl.
  destruct (run s1 evs) as [s2 o2]. reflexivity.
Qed.

Lemma run_tidy (s : State) (evs : list Event) :
  tidy s -> tidy (fst (run s evs)).
Proof.
  revert s; induction evs as [|ev evs IH]; intros s H; [exact H|].
  rewrite run_cons. simpl. apply IH, step_tidy, H.
Qed.

End CountdownFacts.

(** X13.  At every moment the browser holds at most one countdown interval
    and at most one delay timeout of the script, and the script's
    variables name them: no timer is ever orphaned, so [clearCountdown]
    always cancels everything that is pending. *)
Theorem delay_timers_tidy (evs : list Countdown.Event) :
  let s := fst (Countdown.run Countdown.initial evs) in
  CountdownSpec.tidy s
  /\ Countdown.intervals (Countdown.clearCountdown true s) = []
  /\ Countdown.timeouts (Countdown.clearCountdown true s) = []
  /\ Countdown.intervals (Countdown.clearCountdown false s) = []
  /\ Countdown.timeouts (Countdown.clearCountdown false s) = [].
Proof.
  intros s.
  assert (T : CountdownSpec.tidy s).
  { apply run_tidy. split; left; reflexivity. }
  split; [exact T|].
  destruct (clearCountdown_noTimer true s T) as (A & B & _).
  destruct (clearCountdown_noTimer false s T) as (C & D & _).
  auto.
Qed.

(** ** The countdown text *)

Lemma lit_inj (a b : string) : lit a = lit b -> a = b.
Proof.
  unfold lit. intros H.
  rewrite <- (string_of_list_ascii_of_string a),
          <- (string_of_list_ascii_of_string b).
  f_equal. revert H.
  generalize (list_ascii_of_string a) (list_ascii_of_string b).
  induction l as [|x l IH]; intros [|y l']; simpl; try discriminate;
    [reflexivity|].
  intros H. injection H as Hxy Hl. f_equal; [|apply IH; exact Hl].
  rewrite <- (ascii_N_embedding x), <- (ascii_N_embedding y), Hxy.
  reflexivity.
Qed.

Lemma decimal_inj (a b : nat) :
  Assistant.decimal a = Assistant.decimal b -> a = b.
Proof.
  unfold Assistant.decimal. intros H. apply lit_inj in H.
  rewrite <- (Unsigned.of_to a), <- (Unsigned.of_to b). f_equal.
  assert (E : Some (Nat.to_uint a) = Some (Nat.to_uint b)).
  { rewrite <- (NilEmpty.usu (Nat.to_uint a)),
            <- (NilEmpty.usu (Nat.to_uint b)), H. reflexivity. }
  injection E. auto.
Qed.

Lemma two_digits (n : nat) :
  (n < 60)%nat ->
  Countdown.padStart 2 48%N (Assistant.decimal n)
  = [(48 + N.of_nat (n / 10))%N; (48 + N.of_nat (n mod 10))%N].
Proof.
  intros H.
  do 60 (destruct n as [|n]; [vm_compute; reflexivity|]). lia.
Qed.

Lemma formatCountdown_nonneg (seconds : Z) :
  (0 <= seconds)%Z ->
  Countdown.formatCountdown seconds
  = Assistant.decimal (Z.to_nat (seconds / 60))
    ++ [58%N;
        (48 + N.of_nat (Z.to_nat (seconds mod 60) / 10))%N;
        (48 + N.of_nat (Z.to_nat (seconds mod 60) mod 10))%N].
Proof.
  intros H. unfold Countdown.formatCountdown, Countdown.toStringZ.
  rewrite (Z.rem_mod_nonneg seconds 60) by lia.
  assert (Hm : (0 <= seconds mod 60 < 60)%Z) by (apply Z.mod_pos_bound; lia).
  assert (Hd : (0 <= seconds / 60)%Z) by (apply Z.div_pos; lia).
  destruct (Z.ltb_spec (seconds / 60) 0); [lia|].
  destruct (Z.ltb_spec (seconds mod 60) 0); [lia|].
  rewrite two_digits by lia. reflexivity.
Qed.

(** X14.  For a number of seconds that is not negative, [formatCountdown]
    writes the minutes in decimal, a colon and the remaining seconds with
    exactly two digits; two different numbers of seconds never give the
    same text. *)
Theorem formatCountdown_minutes_seconds :
  (forall seconds : Z,
      (0 <= seconds)%Z ->
      Countdown.formatCountdown seconds
      = Assistant.decimal (Z.to_nat (seconds / 60))
        ++ [58%N;
            (48 + N.of_nat (Z.to_nat (seconds mod 60) / 10))%N;
            (48 + N.of_nat (Z.to_nat (seconds mod 60) mod 10))%N])
  /\ (forall a b : Z,
         (0 <= a)%Z -> (0 <= b)%Z ->
         Countdown.formatCountdown a = Countdown.formatCountdown b ->
         a = b).
Proof.
  split; [exact formatCountdown_nonneg|].
  intros a b Ha Hb. rewrite (formatCountdown_nonneg a Ha),
    (formatCountdown_nonneg b Hb).
  assert (Hma : (0 <= a mod 60 < 60)%Z) by (apply Z.mod_pos_bound; lia).
  assert (Hmb : (0 <= b mod 60 < 60)%Z) by (apply Z.mod_pos_bound; lia).
  assert (Hda : (0 <= a / 60)%Z) by (apply Z.div_pos; lia).
  assert (Hdb : (0 <= b / 60)%Z) by (apply Z.div_pos; lia).
  set (x := Z.to_nat (a mod 60)). set (y := Z.to_nat (b mod 60)).
  assert (Hx : (x < 60)%nat) by (unfold x; lia).
  assert (Hy : (y < 60)%nat) by (unfold y; lia).
  intros H.
  change [58%N; (48 + N.of_nat (x / 10))%N; (48 + N.of_nat (x mod 10))%N]
    with ([58%N; (48 + N.of_nat (x / 10))%N]
          ++ [(48 + N.of_nat (x mod 10))%N]) in H.
  change [58%N; (48 + N.of_nat (y / 10))%N; (48 + N.of_nat (y mod 10))%N]
    with ([58%N; (48 + N.of_nat (y / 10))%N]
          ++ [(48 + N.of_nat (y mod 10))%N]) in H.
  rewrite !app_assoc in H. apply app_inj_tail in H. destruct H as [H H3].
  change [58%N; (48 + N.of_nat (x / 10))%N]
    with ([58%N] ++ [(48 + N.of_nat (x / 10))%N]) in H.
  change [58%N; (48 + N.of_nat (y / 10))%N]
    with ([58%N] ++ [(48 + N.of_nat (y / 10))%N]) in H.
  rewrite !app_assoc in H. apply app_inj_tail in H. destruct H as [H H2].
  apply app_inj_tail in H. destruct H as [H _].
  apply decimal_inj in H.
  assert (E1 : (x / 10 = y / 10)%nat) by lia.
  assert (E2 : (x mod 10 = y mod 10)%nat) by lia.
  assert (Exy : x = y).
  { rewrite (Nat.div_mod_eq x 10), (Nat.div_mod_eq y 10), E1, E2.
    reflexivity. }
  assert (Em : (a mod 60 = b mod 60)%Z) by (unfold x, y in Exy; lia).
  assert (Ed : (a / 60 = b / 60)%Z) by lia.
  rewrite (Z.div_mod a 60), (Z.div_mod b 60), Em, Ed by lia. reflexivity.
Qed.

Lemma formatCountdown_minutes_seconds_witness :
  Countdown.formatCountdown 75 = lit "1:15".
Proof.
  rewrite (proj1 formatCountdown_minutes_seconds 75%Z) by lia.
  vm_compute. reflexivity.
Defined.

Lemma noTimer_run_timers (s : Countdown.State) (evs : list Countdown.Event) :
  CountdownSpec.noTimer s -> forallb CountdownSpec.isTimer evs = true ->
  Countdown.run s evs = (s, []).
Proof.
  intros (H1 & H2 & _). induction evs as [|ev evs IH]; [reflexivity|].
  simpl. intros H. apply andb_true_iff in H. destruct H as [Hev Hevs].
  destruct ev; try discriminate; simpl.
  - rewrite H1. simpl. rewrite (IH Hevs). reflexivity.
  - rewrite H2. simpl. rewrite (IH Hevs). reflexivity.
Qed.

Lemma step_cancels (s : Countdown.State) (ev : Countdown.Event) :
  CountdownSpec.tidy s -> CountdownSpec.cancels s ev ->
  CountdownSpec.noTimer (fst (Countdown.step s ev))
  /\ Countdown.currentDelayResolver (fst (Countdown.step s ev)) = None.
Proof.
  intros T C.
  assert (R : forall b s0, Countdown.currentDelayResolver
                             (Countdown.clearCountdown b s0) = None).
  { intros b s0. unfold Countdown.clearCountdown. destruct b; reflexivity. }
  assert (Hh : forall s0, Countdown.currentDelayResolver
                            (Countdown.hideControlButtons s0)
                          = Countdown.currentDelayResolver s0).
  { intros s0. unfold Countdown.hideControlButtons.
    destruct (Countdown.skipButton s0); reflexivity. }
  destruct ev; simpl in C; try contradiction; simpl.
  - destruct C as [C1 C2].
    destruct (Countdown.countdownElement s); [|congruence]. rewrite C2.
    simpl. split.
    + apply hideControlButtons_noTimer, clearCountdown_noTimer. exact T.
    + first [rewrite Hh; apply R | reflexivity].
  - destruct (Countdown.skipButton s); [|congruence]. simpl. split.
    + apply clearCountdown_noTimer. exact T.
    + first [apply R | reflexivity].
  - destruct C as [C1 C2].
    destruct (Countdown.countdownElement s); [|congruence]. rewrite C2.
    simpl. split.
    + apply hideControlButtons_noTimer, clearCountdown_noTimer. exact T.
    + first [rewrite Hh; apply R | reflexivity].
  - split; [apply clearCountdown_noTimer; exact T
           | first [apply R | reflexivity]].
Qed.

(** X15.  Once the delay is skipped, the automation is stopped, the
    provider is changed while the automation is idle, or the page is
    left, no timer of the delay is pending any more: whatever timer
    events are delivered afterwards, nothing is sent and nothing
    changes. *)
Theorem delay_cancelled (evs0 : list Countdown.Event)
  (ev : Countdown.Event) (evs : list Countdown.Event) :
  let s := fst (Countdown.run Countdown.initial evs0) in
  let s' := fst (Countdown.step s ev) in
  CountdownSpec.cancels s ev ->
  forallb CountdownSpec.isTimer evs = true ->
  Countdown.intervals s' = [] /\ Countdown.timeouts s' = []
  /\ Countdown.currentDelayResolver s' = None
  /\ Countdown.run s' evs = (s', []).
Proof.
  intros s s' C Hevs.
  assert (T : CountdownSpec.tidy s).
  { apply run_tidy. split; left; reflexivity. }
  destruct (step_cancels s ev T C) as [N R].
  destruct N as (N1 & N2 & N3 & N4).
  repeat split; try assumption.
  apply noTimer_run_timers; [repeat split; assumption | exact Hevs].
Qed.

Lemma delay_cancelled_witness :
  let s := fst (Countdown.run Countdown.initial Samples.delaying) in
  let s' := fst (Countdown.step s (Countdown.SkipClick Samples.view)) in
  Countdown.timeouts s = [3%nat]
  /\ Countdown.timeouts s' = []
  /\ Countdown.run s' [Countdown.Tick 2; Countdown.TimeoutFires 3 Samples.view]
     = (s', []).
Proof.
  cbv zeta. split; [vm_compute; reflexivity|].
  destruct (delay_cancelled Samples.delaying
              (Countdown.SkipClick Samples.view)
              [Countdown.Tick 2; Countdown.TimeoutFires 3 Samples.view])
    as (_ & T & _ & R).
  - vm_compute. discriminate.
  - reflexivity.
  - split; [exact T | exact R].
Defined.

(** ** The delay that runs out *)

Lemma sendQuestion_script (b : bool) (v : Countdown.View)
  (s s' : Countdown.State) :
  Countdown.script s' = Countdown.script s ->
  Countdown.sendQuestion b v s' = Countdown.sendQuestion b v s.
Proof. intros H. unfold Countdown.sendQuestion. rewrite H. reflexivity. Qed.

(** X16.  When the storage callback arms the delay timer it does not
    resolve the promise of [applyRandomDelayIfEnabled], and it leaves no
    resolver behind: [clearCountdown] has cleared it.  So when that timer
    runs out next, the question is sent if the page is ready, and then
    the call of the resolver throws a [TypeError]: the promise is not
    resolved, and all timers are gone. *)
Theorem armed_delay_never_resolves (evs0 : list Countdown.Event)
  (promise : nat) (storedMin storedMax : option Z) (random : Q)
  (v v' : Countdown.View) (delay : Z) :
  let s := fst (Countdown.run Countdown.initial evs0) in
  In promise (Countdown.requests s) ->
  Education.applyRandomDelayIfEnabled random storedMin storedMax
  = Education.SetupDelayTimer delay ->
  let armed :=
    Countdown.step s
      (Countdown.StorageCallback promise false storedMin storedMax random v)
  in
  snd armed = []
  /\ Countdown.currentDelayResolver (fst armed) = None
  /\ exists id,
       Countdown.timeouts (fst armed) = [id]
       /\ let elapsed :=
            Countdown.step (fst armed) (Countdown.TimeoutFires id v') in
          snd elapsed
          = Countdown.sendQuestionIfReady v' s ++ [Countdown.TypeError]
          /\ Countdown.intervals (fst elapsed) = []
          /\ Countdown.timeouts (fst elapsed) = [].
Proof.
  intros s Hp Hd armed.
  assert (T : CountdownSpec.tidy s).
  { apply run_tidy. split; left; reflexivity. }
  assert (Ex : existsb (Nat.eqb promise) (Countdown.requests s) = true).
  { apply existsb_exists. exists promise. split; [exact Hp|].
    apply Nat.eqb_refl. }
  unfold armed. cbn [Countdown.step]. rewrite Ex.
  unfold Countdown.storageCallback. rewrite Hd.
  match goal with
  | |- context [Countdown.clearCountdown true ?s0] =>
      set (s1 := s0);
      assert (N : CountdownSpec.noTimer (Countdown.clearCountdown true s1))
        by (apply clearCountdown_noTimer; exact T);
      assert (R : Countdown.currentDelayResolver
                    (Countdown.clearCountdown true s1) = None)
        by (unfold Countdown.clearCountdown; reflexivity);
      assert (S1 : Countdown.script (Countdown.clearCountdown true s1)
                   = Countdown.script s)
        by (rewrite clearCountdown_script; reflexivity)
  end.
  set (s2 := Countdown.clearCountdown true s1) in *.
  destruct N as (N1 & N2 & N3 & N4).
  destruct (updateCountdownDisplay_timers (- (- delay / 1000)) s2)
    as (E1 & E2 & E3 & E4 & E5).
  assert (Ur : forall x s0, Countdown.currentDelayResolver
                              (Countdown.updateCountdownDisplay x s0)
                            = Countdown.currentDelayResolver s0).
  { intros x s0. unfold Countdown.updateCountdownDisplay.
    destruct (Countdown.countdownElement s0); reflexivity. }
  assert (Us : forall x s0, Countdown.script
                              (Countdown.updateCountdownDisplay x s0)
                            = Countdown.script s0).
  { intros x s0. unfold Countdown.updateCountdownDisplay.
    destruct (Countdown.countdownElement s0); reflexivity. }
  cbn [fst snd]. split; [reflexivity|]. split.
  { unfold Countdown.setupDelayTimer. simpl. rewrite Ur. exact R. }
  exists (S (Countdown.next s2)). split.
  { unfold Countdown.setupDelayTimer. simpl. rewrite E2, E5, N2.
    reflexivity. }
  cbn zeta. unfold Countdown.step.
  assert (Et : Countdown.timeouts (Countdown.setupDelayTimer delay s2)
               = [S (Countdown.next s2)]).
  { unfold Countdown.setupDelayTimer. simpl. rewrite E2, E5, N2.
    reflexivity. }
  rewrite Et. simpl existsb. rewrite Nat.eqb_refl. simpl orb. cbv iota.
  unfold Countdown.delayElapsed.
  match goal with
  | |- context [Countdown.clearTimeoutTimer (Countdown.clearIntervalTimer ?s0)] =>
      assert (T0 : CountdownSpec.tidy s0)
  end.
  { split; simpl.
    - right. unfold Countdown.setupDelayTimer. simpl. rewrite E1, E5, N1.
      eexists _, _. split; reflexivity.
    - left. rewrite Nat.eqb_refl. reflexivity. }
  rewrite (clearTimers_tidy _ T0). cbn [fst snd]. split; [|split; reflexivity].
  f_equal.
  - unfold Countdown.sendQuestionIfReady. apply sendQuestion_script.
    simpl. unfold Countdown.setupDelayTimer. simpl. rewrite Us. exact S1.
  - simpl. unfold Countdown.setupDelayTimer. simpl. rewrite Ur, R.
    reflexivity.
Qed.

Lemma armed_delay_never_resolves_witness :
  let s := fst (Countdown.run Countdown.initial Samples.starting) in
  let armed :=
    Countdown.step s
      (Countdown.StorageCallback 1 false None None (1 # 2) Samples.view) in
  Countdown.currentDelayResolver s = Some 1%nat
  /\ snd armed = []
  /\ Countdown.currentDelayResolver (fst armed) = None.
Proof.
  cbv zeta. split; [vm_compute; reflexivity|].
  destruct (armed_delay_never_resolves Samples.starting 1 None None (1 # 2)
              Samples.view Samples.view 59500)
    as (A & B & _).
  - vm_compute. left. reflexivity.
  - vm_compute. reflexivity.
  - split; [exact A | exact B].
Defined.

Section CountdownText.

Import Countdown CountdownSpec.


Lemma good_frame (s s' : State) :
  intervals s' = intervals s ->
  (match countdownElement s, countdownElement s' with
   | Some d, Some d' => d_text d' = d_text d
   | None, None => True
   | _, _ => False
   end) ->
  CountdownSpec.good s -> CountdownSpec.good s'.
Proof.
  intros Hi Hc [G1 G2]. split; [rewrite Hi; exact G1|].
  destruct (countdownElement s) as [d|], (countdownElement s') as [d'|];
    try contradiction; [rewrite Hc; exact G2 | exact I].
Qed.

Lemma clearCountdown_good (b : bool) (s : State) :
  tidy s -> CountdownSpec.good s -> CountdownSpec.good (clearCountdown b s).
Proof.
  intros T [G1 G2]. split.
  - destruct (clearCountdown_noTimer b s T) as (N1 & _). rewrite N1.
    intros id r [].
  - unfold clearCountdown. rewrite (clearTimers_tidy s T).
    unfold hideControlButtons, setResolver, setElements.
    destruct b; simpl.
    + destruct (countdownElement s) as [d|]; simpl;
        destruct (skipButton s); simpl; exact G2.
    + exact G2.
Qed.

Lemma hideControlButtons_good (s : State) :
  CountdownSpec.good s -> CountdownSpec.good (hideControlButtons s).
Proof.
  apply good_frame; unfold hideControlButtons;
    destruct (skipButton s); simpl; try reflexivity;
    destruct (countdownElement s); auto.
Qed.

Lemma updateCountdownDisplay_good (r : Z) (s : State) :
  (0 <= r)%Z -> CountdownSpec.good s -> CountdownSpec.good (updateCountdownDisplay r s).
Proof.
  intros Hr [G1 G2]. unfold updateCountdownDisplay.
  destruct (countdownElement s) as [d|] eqn:E; [|split; [exact G1|]].
  - split; [exact G1|]. simpl. right. right. exists r. auto.
  - rewrite E. exact I.
Qed.

Lemma updateCountdownDisplay_text (r : Z) (s : State) :
  (0 <= r)%Z ->
  match countdownElement (updateCountdownDisplay r s) with
  | Some d => countdownText (d_text d)
  | None => True
  end.
Proof.
  intros Hr. unfold updateCountdownDisplay.
  destruct (countdownElement s) as [d|] eqn:E; simpl.
  - right. right. exists r. auto.
  - rewrite E. exact I.
Qed.

Lemma ceil_positive (delay : Z) : (0 < delay)%Z -> (1 <= - (- delay / 1000))%Z.
Proof.
  intros H. assert (- delay / 1000 < 0)%Z; [|lia].
  apply Z.div_lt_upper_bound; lia.
Qed.

Lemma checkForNextStep_good v storage (s : State) :
  CountdownSpec.good s -> CountdownSpec.good (fst (checkForNextStep v storage s)).
Proof.
  intros H. unfold checkForNextStep.
  destruct (negb _); [exact H|].
  destruct (Education.handleTopicOverview _); [exact H|].
  destruct (Education.handleForcedLearning _); [exact H|].
  destruct (Education.container _); [|exact H].
  destruct (forcedLearning v); exact H.
Qed.

Lemma find_interval id (l : list (nat * Z)) i r :
  find (fun t => Nat.eqb (fst t) id) l = Some (i, r) -> In (i, r) l.
Proof. intros H. apply find_some in H. tauto. Qed.

Lemma step_good (s : State) (ev : Event) :
  sane ev -> tidy s -> CountdownSpec.good s -> CountdownSpec.good (fst (step s ev)).
Proof.
  intros Hs T G. destruct ev; simpl.
  - destruct (countdownElement s) eqn:E; [exact G|].
    destruct G as [G1 _]. split; [exact G1|]. simpl. left. reflexivity.
  - destruct (countdownElement s) eqn:E; [|exact G].
    destruct (Education.isAutomating (script s)).
    + simpl. apply hideControlButtons_good, clearCountdown_good.
      * exact T.
      * revert G. apply good_frame; simpl; [reflexivity|].
        rewrite E. reflexivity.
    + destruct proceed; [|exact G]. apply checkForNextStep_good.
      revert G. apply good_frame; simpl; [reflexivity|].
      rewrite E. reflexivity.
  - apply checkForNextStep_good. exact G.
  - destruct (existsb _ _); [|exact G].
    unfold storageCallback. destruct lastError.
    { simpl. revert G. apply good_frame; simpl; [reflexivity|].
      destruct (countdownElement s); auto. }
    simpl in Hs. destruct Hs as (H0 & H1 & Hmin & Hmax).
    assert (D := applyRandomDelay_positive random storedMin storedMax).
    match goal with
    | |- context [clearCountdown true ?s0] =>
        assert (T0 : tidy s0) by exact T;
        assert (G0 : CountdownSpec.good s0)
          by (revert G; apply good_frame; simpl; [reflexivity|];
              destruct (countdownElement s); auto);
        set (s1 := s0) in *
    end.
    destruct (Education.applyRandomDelayIfEnabled _ _ _) as [|delay]; simpl.
    + apply clearCountdown_good; assumption.
    + assert (Dpos := D delay H0 H1 Hmin Hmax eq_refl).
      assert (G2 := clearCountdown_good true s1 T0 G0).
      destruct (clearCountdown_noTimer true s1 T0) as (N1 & _).
      assert (G3 := updateCountdownDisplay_good (- (- delay / 1000))
                      (clearCountdown true s1)
                      ltac:(pose proof (ceil_positive delay Dpos); lia) G2).
      destruct (updateCountdownDisplay_timers (- (- delay / 1000))
                  (clearCountdown true s1)) as (E1 & _).
      unfold setupDelayTimer. destruct G3 as [G31 G32]. split; simpl.
      * rewrite E1, N1. simpl. intros id r [Hir|[]].
        injection Hir as _ <-. apply ceil_positive. exact Dpos.
      * exact G32.
  - destruct (find _ _) as [[i r]|] eqn:F; [|exact G]. simpl.
    assert (Hr : (1 <= r)%Z).
    { destruct G as [G1 _]. apply (G1 i). exact (find_interval _ _ _ _ F). }
    unfold tick.
    match goal with
    | |- context [updateCountdownDisplay (r - 1) ?s0] => set (s1 := s0)
    end.
    assert (T1 : tidy s1).
    { destruct T as [Hi Ht]. split; [|exact Ht]. simpl.
      destruct Hi as [Hi|(i0 & r0 & Hi & Hv)]; rewrite Hi; simpl;
        [left; reflexivity|].
      right. destruct (Nat.eqb_spec i0 id) as [->|_];
        eexists _, _; split; (reflexivity || exact Hv). }
    assert (Tu : tidy (updateCountdownDisplay (r - 1) s1)).
    { destruct T1 as [A B].
      destruct (updateCountdownDisplay_timers (r - 1) s1)
        as (E1 & E2 & E3 & E4 & _).
      split; [rewrite E1, E3 | rewrite E2, E4]; assumption. }
    assert (Gtext : match countdownElement s1 with
                    | Some d => countdownText (d_text d)
                    | None => True
                    end) by (destruct G as [_ G2]; exact G2).
    destruct (Z.leb_spec (r - 1) 0) as [Hle|Hgt].
    + apply updateCountdownDisplay_good; [lia|].
      rewrite (clearIntervalTimer_tidy _ Tu). split; simpl.
      * intros ? ? [].
      * apply updateCountdownDisplay_text. lia.
    + assert (G1 : CountdownSpec.good s1).
      { split; [|exact Gtext]. simpl. intros i0 r0 Hin.
        apply in_map_iff in Hin. destruct Hin as ([i1 r1] & Heq & Hin).
        simpl in Heq. destruct (Nat.eqb i1 id).
        - injection Heq as _ <-. lia.
        - injection Heq as _ <-. destruct G as [G1 _].
          exact (G1 _ _ Hin). }
      apply updateCountdownDisplay_good; [lia | exact G1].
  - destruct (existsb _ _); [|exact G]. unfold delayElapsed. simpl.
    match goal with
    | |- CountdownSpec.good (setResolver None (clearTimeoutTimer (clearIntervalTimer ?s0))) =>
        assert (T0 : tidy s0)
    end.
    { destruct T as [Hi Ht]. split; [exact Hi|]. simpl.
      destruct Ht as [Ht|(i & Ht & Hv)]; rewrite Ht; simpl;
        [left; reflexivity|].
      destruct (Nat.eqb i id); simpl; [left; reflexivity|].
      right. exists i. split; [reflexivity | exact Hv]. }
    rewrite (clearTimers_tidy _ T0). split; simpl.
    + intros ? ? [].
    + destruct G as [_ G2]. exact G2.
  - destruct (skipButton s); [|exact G]. simpl.
    apply clearCountdown_good; assumption.
  - destruct (countdownElement s) as [d|] eqn:E; [|exact G].
    destruct (d_shown d); [|exact G]. simpl.
    destruct G as [G1 _]. split; [exact G1|]. simpl. right. left.
    reflexivity.
  - exact G.
  - destruct (countdownElement s) eqn:E; [|exact G].
    destruct (Education.isAutomating (script s)); [exact G|]. simpl.
    apply hideControlButtons_good, clearCountdown_good; assumption.
  - simpl. revert G. apply good_frame; simpl; [reflexivity|].
    destruct (countdownElement s); auto.
  - simpl. apply clearCountdown_good; assumption.
Qed.

Lemma run_good (s : State) (evs : list Event) :
  Forall sane evs -> tidy s -> CountdownSpec.good s -> CountdownSpec.good (fst (run s evs)).
Proof.
  revert s; induction evs as [|ev evs IH]; intros s Hs T G; [exact G|].
  inversion Hs as [|? ? H1 H2]; subst.
  rewrite run_cons. simpl. apply IH; [exact H2 | |].
  - apply step_tidy. exact T.
  - apply step_good; assumption.
Qed.

End CountdownText.

(** X17.  With settings that are not negative, a countdown that is running
    always has at least one second left, and the countdown element shows
    nothing, [Answered], or [Answering In] followed by a time that is
    not negative: the display never runs below [0:00]. *)
Theorem countdown_never_negative (evs : list Countdown.Event) :
  Forall CountdownSpec.sane evs ->
  let s := fst (Countdown.run Countdown.initial evs) in
  (forall id r, In (id, r) (Countdown.intervals s) -> (1 <= r)%Z)
  /\ match Countdown.countdownElement s with
     | Some d => CountdownSpec.countdownText (Countdown.d_text d)
     | None => True
     end.
Proof.
  intros Hs. apply run_good; [exact Hs | split; left; reflexivity |].
  split; [intros ? ? [] | exact I].
Qed.

Lemma countdown_never_negative_witness :
  match Countdown.countdownElement
          (fst (Countdown.run Countdown.initial Samples.round)) with
  | Some d => CountdownSpec.countdownText (Countdown.d_text d)
  | None => True
  end.
Proof.
  apply (countdown_never_negative Samples.round).
  unfold Samples.round, Samples.delaying, Samples.starting.
  repeat constructor; simpl; try (unfold Qle, Qlt; simpl; lia).
Defined.



(** ** The label pattern *)

Local Open Scope N_scope.

Lemma afterColon_group (r m : jsstring) :
  Grading.afterColon r = Some m ->
  m <> []
  /\ forallb (fun x => negb (Grading.isLineTerminator x)) m = true
  /\ exists pre, r = pre ++ m.
Proof.
  unfold Grading.afterColon.
  destruct (dropWhile isWhiteSpace r) as [|c d] eqn:D.
  - destruct (rev r) as [|c t] eqn:R; [discriminate|].
    destruct (Grading.isLineTerminator c) eqn:L; [discriminate|].
    intros H; injection H as <-. split; [discriminate|].
    split; [simpl; rewrite L; reflexivity|].
    exists (rev t). rewrite <- (rev_involutive r), R. reflexivity.
  - destruct (forallb _ (c :: d)) eqn:F; [|discriminate].
    intros H; injection H as <-. split; [discriminate|].
    split; [exact F|]. exists (takeWhile isWhiteSpace r).
    rewrite <- D. symmetry. apply takeWhile_dropWhile.
Qed.

Lemma colonRest_group (s m : jsstring) :
  Grading.colonRest s = Some m ->
  m <> []
  /\ forallb (fun x => negb (Grading.isLineTerminator x)) m = true
  /\ exists pre, s = pre ++ m.
Proof.
  induction s as [|c s IH]; simpl; [discriminate|].
  assert (K : Grading.colonRest s = Some m ->
              m <> []
              /\ forallb (fun x => negb (Grading.isLineTerminator x)) m
                 = true
              /\ exists pre, c :: s = pre ++ m).
  { intros H. destruct (IH H) as (H1 & H2 & pre & ->).
    split; [exact H1|]. split; [exact H2|]. exists (c :: pre). reflexivity. }
  destruct (c =? 58); [|exact K].
  destruct (Grading.afterColon s) as [g|] eqn:A; [|exact K].
  intros H; injection H as <-.
  destruct (afterColon_group s g A) as (H1 & H2 & pre & ->).
  split; [exact H1|]. split; [exact H2|]. exists (c :: pre). reflexivity.
Qed.

Lemma colonRest_none (s : jsstring) :
  ~ In 58 s -> Grading.colonRest s = None.
Proof.
  induction s as [|c s IH]; simpl; [reflexivity|]. intros H.
  destruct (N.eqb_spec c 58) as [->|_]; [tauto|]. apply IH. tauto.
Qed.

Lemma colonRest_label (label ws : jsstring) (c : N) (body : jsstring) :
  ~ In 58 label -> forallb isWhiteSpace ws = true ->
  isWhiteSpace c = false ->
  forallb (fun x => negb (Grading.isLineTerminator x)) (c :: body) = true ->
  Grading.colonRest (label ++ [58] ++ ws ++ c :: body) = Some (c :: body).
Proof.
  intros Hl Hw Hc Hb. induction label as [|x label IH]; simpl.
  - unfold Grading.afterColon.
    rewrite (dropWhile_app isWhiteSpace ws c body Hw Hc), Hb. reflexivity.
  - destruct (N.eqb_spec x 58) as [->|_]; [simpl in Hl; tauto|].
    apply IH. simpl in Hl. tauto.
Qed.

(** X18.  The pattern that strips the label of a revealed field: on a text
    made of a label without colon, a colon, white space and a body that
    starts with a visible character and holds no line break, the group is
    the body.  A text without colon does not match.  Whenever the pattern
    matches, the group is a non-empty end of the text without line
    break. *)
Theorem label_pattern :
  (forall (label ws : jsstring) (c : N) (body : jsstring),
      ~ In 58 label -> forallb isWhiteSpace ws = true ->
      isWhiteSpace c = false ->
      forallb (fun x => negb (Grading.isLineTerminator x)) (c :: body)
      = true ->
      Grading.colonRest (label ++ [58] ++ ws ++ c :: body)
      = Some (c :: body))
  /\ (forall s : jsstring, ~ In 58 s -> Grading.colonRest s = None)
  /\ (forall s m : jsstring,
         Grading.colonRest s = Some m ->
         m <> []
         /\ forallb (fun x => negb (Grading.isLineTerminator x)) m = true
         /\ exists pre, s = pre ++ m).
Proof.
  split; [exact colonRest_label|].
  split; [exact colonRest_none | exact colonRest_group].
Qed.

Lemma label_pattern_witness :
  Grading.colonRest (lit "Correct answer: Paris") = Some (lit "Paris").
Proof.
  apply (proj1 label_pattern (lit "Correct answer") [32%N] 80%N
           (lit "aris")).
  - vm_compute. intuition discriminate.
  - reflexivity.
  - reflexivity.
  - reflexivity.
Defined.

Local Close Scope N_scope.

(** ** What is revealed and what is stored *)

Lemma afterLabel_trimmed (t : jsstring) :
  trim t = t -> trim (Grading.afterLabel t) = Grading.afterLabel t.
Proof.
  intros H. unfold Grading.afterLabel.
  destruct (Grading.colonRest t); [apply trim_idem | exact H].
Qed.

Lemma fieldAnswer_trimmed (field : Grading.Revealed) :
  trim (Grading.fieldAnswer field) = Grading.fieldAnswer field.
Proof.
  unfold Grading.fieldAnswer. destruct (Grading.r_inner field).
  - apply trim_idem.
  - apply afterLabel_trimmed, trim_idem.
Qed.

Lemma choiceAnswer_trimmed (el : Grading.Revealed) :
  trim (Grading.choiceAnswer el) = Grading.choiceAnswer el.
Proof.
  unfold Grading.choiceAnswer. destruct (Grading.r_inner el);
    apply trim_idem.
Qed.

Lemma correctAnswer_result (questionType : jsstring) (f : Grading.Feedback)
  (a : Education.answer) :
  Grading.correctAnswer questionType f = Some a ->
  In questionType GradingSpec.gradedTypes
  /\ GradingSpec.trimmedAnswer a
  /\ (forall l, a = Education.AArr l -> l <> []).
Proof.
  unfold Grading.correctAnswer, GradingSpec.gradedTypes.
  destruct (eqb questionType (lit "multiple_choice")) eqn:E1.
  { apply eqb_eq in E1. simpl orb. cbv iota. intros H.
    split; [left; symmetry; exact E1|].
    destruct (Grading.answerChoiceText f) as [t|].
    - injection H as <-. split; [apply trim_idem | discriminate].
    - destruct (Grading.correctAnswerContainer f) as [[[t|] [u|]]|];
        try discriminate; injection H as <-;
        (split; [apply trim_idem | discriminate]). }
  destruct (eqb questionType (lit "true_false")) eqn:E2.
  { apply eqb_eq in E2. simpl orb. cbv iota. intros H.
    split; [right; left; symmetry; exact E2|].
    destruct (Grading.answerChoiceText f) as [t|].
    - injection H as <-. split; [apply trim_idem | discriminate].
    - destruct (Grading.correctAnswerContainer f) as [[[t|] [u|]]|];
        try discriminate; injection H as <-;
        (split; [apply trim_idem | discriminate]). }
  simpl orb. cbv iota.
  destruct (eqb questionType (lit "multiple_select")) eqn:E3.
  { apply eqb_eq in E3. intros H.
    split; [right; right; left; symmetry; exact E3|].
    destruct (Grading.correctChoices f) as [|x l]; [discriminate|].
    injection H as <-. split.
    - intros t Ht. apply (in_map_iff Grading.choiceAnswer (x :: l)) in Ht.
      destruct Ht as (el & <- & _). apply choiceAnswer_trimmed.
    - intros l' Hl. injection Hl as <-. discriminate. }
  destruct (eqb questionType (lit "fill_in_the_blank")) eqn:E4;
    [|discriminate].
  apply eqb_eq in E4. intros H.
  split; [right; right; right; left; symmetry; exact E4|].
  destruct (Grading.correctAnswers f) as [|one [|two l]]; [discriminate| |].
  - destruct (Grading.r_inner one) as [t|].
    + injection H as <-. split; [apply trim_idem | discriminate].
    + destruct (trim (Grading.r_textContent one)) as [|c t] eqn:T;
        [discriminate|].
      injection H as <-. split; [|discriminate].
      apply afterLabel_trimmed. rewrite <- T. apply trim_idem.
  - injection H as <-. split.
    + intros t Ht.
      apply (in_map_iff Grading.fieldAnswer (one :: two :: l)) in Ht.
      destruct Ht as (el & <- & _). apply fieldAnswer_trimmed.
    + intros l' Hl. injection Hl as <-. discriminate.
Qed.

Lemma extractCorrectAnswer_some (page : option Grading.Feedback)
  (d : Education.CorrectionData) :
  Grading.extractCorrectAnswer page = Some d ->
  exists f,
    page = Some f
    /\ Grading.incorrectMarker f = true
    /\ Education.cd_type d = Education.questionType (Grading.probe f)
    /\ In (Education.cd_type d) GradingSpec.gradedTypes
    /\ GradingSpec.trimmedAnswer (Education.cd_answer d)
    /\ (forall l, Education.cd_answer d = Education.AArr l -> l <> []).
Proof.
  unfold Grading.extractCorrectAnswer. destruct page as [f|]; [|discriminate].
  destruct (Grading.incorrectMarker f) eqn:M; [|discriminate].
  simpl negb. cbv iota.
  destruct (Grading.correctAnswer _ f) as [a|] eqn:A; [|discriminate].
  destruct (eqb _ (lit "matching")); [discriminate|].
  intros H; injection H as <-. simpl.
  destruct (correctAnswer_result _ f a A) as (H1 & H2 & H3).
  exists f. repeat split; try assumption; reflexivity.
Qed.

(** X19.  [extractCorrectAnswer] yields an answer only for a question that
    is marked incorrect and is a multiple-choice, true/false,
    multiple-select or fill-in-the-blank question: never for a matching
    question, for an unknown type, or without container.  Every string of
    the answer is trimmed, and an answer that is an array is not empty. *)
Theorem extractCorrectAnswer_result (page : option Grading.Feedback) :
  match Grading.extractCorrectAnswer page with
  | Some d =>
      exists f,
        page = Some f
        /\ Grading.incorrectMarker f = true
        /\ Education.cd_type d = Education.questionType (Grading.probe f)
        /\ In (Education.cd_type d) GradingSpec.gradedTypes
        /\ GradingSpec.trimmedAnswer (Education.cd_answer d)
        /\ (forall l, Education.cd_answer d = Education.AArr l -> l <> [])
  | None => True
  end.
Proof.
  destruct (Grading.extractCorrectAnswer page) as [d|] eqn:E; [|exact I].
  exact (extractCorrectAnswer_some page d E).
Qed.

Lemma extractCorrectAnswer_result_witness :
  exists d,
    Grading.extractCorrectAnswer (Some Samples.revealed) = Some d
    /\ Education.cd_answer d = Education.AStr (lit "Paris or paris")
    /\ GradingSpec.trimmedAnswer (Education.cd_answer d).
Proof.
  assert (H := extractCorrectAnswer_result (Some Samples.revealed)).
  destruct (Grading.extractCorrectAnswer (Some Samples.revealed))
    as [d|] eqn:E; [|vm_compute in E; discriminate E].
  destruct H as (f & _ & _ & _ & _ & T & _).
  exists d. split; [reflexivity|]. split; [|exact T].
  vm_compute in E. injection E as <-. vm_compute. reflexivity.
Defined.

Lemma cleanAnswer_cleanStored (a : Education.answer) :
  GradingSpec.cleanStored (Education.cleanAnswer a).
Proof.
  destruct a as [t|l]; simpl; [apply cleanString_clean|].
  intros t Ht. apply in_map_iff in Ht. destruct Ht as (s & <- & _).
  apply cleanString_clean.
Qed.

(** X20.  What the grading step stores, from the page to the variables:
    either nothing changes, or the page revealed a non-empty answer of a
    question of one of the four graded types, and the stored question and
    answer are the revealed ones, the answer cleaned: none of its strings
    has white space at an end or contains [" or "].  For a matching
    question nothing is ever stored. *)
Theorem grading_stores_clean_answer (f : Grading.Feedback)
  (s : Education.Script) :
  let s' :=
    Education.gradingCallback (Grading.incorrectMarker f)
      (Grading.extractCorrectAnswer (Some f)) s in
  (s' = s
   \/ exists d a,
        Grading.extractCorrectAnswer (Some f) = Some d
        /\ In (Education.cd_type d) GradingSpec.gradedTypes
        /\ Education.answerTruthy (Education.cd_answer d) = true
        /\ Education.lastIncorrectQuestion s' = Some (Education.cd_question d)
        /\ Education.lastCorrectAnswer s' = Some a
        /\ a = Education.cleanAnswer (Education.cd_answer d)
        /\ GradingSpec.cleanStored a)
  /\ (Education.questionType (Grading.probe f) = lit "matching" -> s' = s).
Proof.
  intros s'. unfold s', Education.gradingCallback.
  destruct (Grading.incorrectMarker f) eqn:M; [|split; auto].
  destruct (Grading.extractCorrectAnswer (Some f)) as [d|] eqn:E;
    [|split; auto].
  destruct (extractCorrectAnswer_some _ d E) as (f0 & Hf & _ & Ht & Hin & _).
  injection Hf as <-.
  split.
  - destruct (Education.answerTruthy (Education.cd_answer d)) eqn:T;
      [|left; reflexivity].
    right. exists d, (Education.cleanAnswer (Education.cd_answer d)).
    repeat split; try assumption; try reflexivity.
    apply cleanAnswer_cleanStored.
  - intros Hm. exfalso. rewrite Ht, Hm in Hin.
    unfold GradingSpec.gradedTypes in Hin. simpl in Hin.
    destruct Hin as [H|[H|[H|[H|[]]]]]; discriminate.
Qed.

Lemma grading_stores_clean_answer_witness :
  let s' :=
    Education.gradingCallback true
      (Grading.extractCorrectAnswer (Some Samples.revealed))
      Witness.script in
  Education.lastCorrectAnswer s' = Some (Education.AStr (lit "Paris"))
  /\ (s' = Witness.script
      \/ exists a, Education.lastCorrectAnswer s' = Some a
                   /\ GradingSpec.cleanStored a).
Proof.
  cbv zeta. split; [vm_compute; reflexivity|].
  destruct (proj1 (grading_stores_clean_answer Samples.revealed
                     Witness.script))
    as [H|(d & a & _ & _ & _ & _ & Ha & _ & C)].
  - left. exact H.
  - right. exists a. split; [exact Ha | exact C].
Defined.

(** ** Polling for an element *)

(** X21.  [waitForElement] resolves with what the first successful poll
    finds and rejects at the first unsuccessful poll that comes later
    than [timeout] after the start, whichever happens first.  So it is
    never rejected by a poll within the timeout, and an element that
    shows up late is still found as long as no poll after the timeout has
    missed it. *)
Theorem waitForElement_outcome {E : Type} (timeout startTime : Z)
  (polls : list (Z * option E)) :
  match Polling.waitForElement timeout startTime polls with
  | Some (Polling.Resolved el) =>
      exists before now after,
        polls = before ++ (now, Some el) :: after
        /\ Forall (PollingSpec.early timeout startTime) before
  | Some Polling.Rejected =>
      exists before now after,
        polls = before ++ (now, None) :: after
        /\ (timeout < now - startTime)%Z
        /\ Forall (PollingSpec.early timeout startTime) before
  | None => Forall (PollingSpec.early timeout startTime) polls
  end.
Proof.
  induction polls as [|[now found] rest IH]; simpl; [constructor|].
  destruct found as [el|].
  - exists [], now, rest. split; [reflexivity | constructor].
  - destruct (Z.gtb_spec (now - startTime) timeout) as [Hgt|Hle].
    + exists [], now, rest. split; [reflexivity|]. split; [lia|constructor].
    + assert (He : PollingSpec.early timeout startTime (now, @None E))
        by (split; [reflexivity | simpl; lia]).
      destruct (Polling.waitForElement timeout startTime rest) as [[el|]|].
      * destruct IH as (before & t & after & -> & F).
        exists ((now, None) :: before), t, after.
        split; [reflexivity | constructor; assumption].
      * destruct IH as (before & t & after & -> & Ht & F).
        exists ((now, None) :: before), t, after.
        split; [reflexivity|]. split; [exact Ht | constructor; assumption].
      * constructor; assumption.
Qed.


Section TaskFacts.

Import Handlers HandlersSpec.

Lemma safe_catch {A : Type} (t handler : Task A) :
  safe handler -> safe (catch t handler).
Proof.
  intros Hh. induction t as [a| |k IH|v k IH|op k IH|R op k IH]; simpl; auto.
Qed.

Lemma safe_exec {A : Type} (w : Browser) (t : Task A) h v :
  safe t -> fst (fst (exec w t h v)) <> None.
Proof.
  revert h v. induction t as [a| |k IH|v' k IH|op k IH|R op k IH];
    intros h v Hs; simpl in *; auto; try discriminate.
Qed.

Lemma only_andThen {A B : Type} P (t : Task A) (f : A -> Task B) :
  only P t -> (forall a, only P (f a)) -> only P (andThen t f).
Proof.
  intros Ht Hf. induction t as [a| |k IH|v k IH|op k IH|R op k IH];
    simpl in *; auto.
  - destruct Ht. auto.
  - destruct Ht. auto.
Qed.

Lemma only_catch {A : Type} P (t handler : Task A) :
  only P t -> only P handler -> only P (catch t handler).
Proof.
  intros Ht Hh. induction t as [a| |k IH|v k IH|op k IH|R op k IH];
    simpl in *; auto.
  - destruct Ht. auto.
  - destruct Ht. auto.
Qed.

Lemma only_lift {A : Type} P (p : Background.Prog A) :
  Footprint.only (fun R op => P R (Base op)) p -> only P (lift p).
Proof.
  induction p as [a| |k IH|g k IH|op k IH|R op k IH]; simpl; auto.
  - intros [H1 H2]. auto.
  - intros [H1 H2]. auto.
Qed.

Lemma task_only_exec {A : Type} P (w : Browser) (t : Task A) h v :
  only P t ->
  exists ext,
    snd (exec w t h v) = h ++ ext
    /\ Forall (fun d => match d with Asked op => P _ op end) ext.
Proof.
  revert h v. induction t as [a| |k IH|v' k IH|op k IH|R op k IH];
    intros h v Ht; simpl in *.
  - exists []. rewrite app_nil_r. split; [reflexivity | constructor].
  - exists []. rewrite app_nil_r. split; [reflexivity | constructor].
  - apply IH. apply Ht.
  - apply IH. exact Ht.
  - destruct Ht as [H1 H2].
    destruct (IH (h ++ [Asked op]) v H2) as (ext & E & F).
    exists (Asked op :: ext). rewrite E, <- app_assoc.
    split; [reflexivity | constructor; assumption].
  - destruct Ht as [H1 H2].
    destruct (IH (answer w h op) (h ++ [Asked op]) (meanwhile w h v)
                 (H2 _)) as (ext & E & F).
    exists (Asked op :: ext). rewrite E, <- app_assoc.
    split; [reflexivity | constructor; assumption].
Qed.

Lemma task_holds_weaken {A : Type} I (t : Task A)
  (Q Q' : option A -> Vars -> Prop) v :
  (forall r v', Q r v' -> Q' r v') -> holds t I Q v -> holds t I Q' v.
Proof.
  intros HQ. revert v. induction t as [a| |k IH|v' k IH|op k IH|R op k IH];
    intros v; simpl; auto.
  intros [Hv Hk]. split; [exact Hv|]. intros r v1 H1. apply IH. auto.
Qed.

Lemma holds_andThen {A B : Type} I (t : Task A) (f : A -> Task B)
  (Q : option B -> Vars -> Prop) v :
  holds t I (fun r v' => match r with
                         | Some a => holds (f a) I Q v'
                         | None => Q None v'
                         end) v ->
  holds (andThen t f) I Q v.
Proof.
  revert v. induction t as [a| |k IH|v' k IH|op k IH|R op k IH];
    intros v; simpl; auto.
  intros [Hv Hk]. split; [exact Hv|]. intros r v1 H1. apply IH. auto.
Qed.

Lemma holds_catch {A : Type} I (t handler : Task A)
  (Q : option A -> Vars -> Prop) v :
  holds t I (fun r v' => match r with
                         | Some a => Q (Some a) v'
                         | None => holds handler I Q v'
                         end) v ->
  holds (catch t handler) I Q v.
Proof.
  revert v. induction t as [a| |k IH|v' k IH|op k IH|R op k IH];
    intros v; simpl; auto.
  intros [Hv Hk]. split; [exact Hv|]. intros r v1 H1. apply IH. auto.
Qed.

Lemma holds_lift {A : Type} (I : Background.Globals -> Prop)
  (p : Background.Prog A) (Q : option A -> Background.Globals -> Prop) v :
  FlagSpec.holds p I Q (globals v) ->
  holds (lift p) (fun v' => I (globals v'))
        (fun r v' => Q r (globals v')) v.
Proof.
  revert v. induction p as [a| |k IH|g k IH|op k IH|R op k IH];
    intros v; simpl; auto.
  intros [Hv Hk]. split; [exact Hv|]. intros r v1 H1. apply IH. auto.
Qed.

Lemma keeps_done {A : Type} (a : A) : keeps (Done a).
Proof. intros v Hv. exact Hv. Qed.

Lemma keeps_fail {A : Type} : keeps (@Fail A).
Proof. intros v Hv. exact Hv. Qed.

Lemma keeps_read {A : Type} (k : Vars -> Task A) :
  (forall v, keeps (k v)) -> keeps (Read k).
Proof. intros H v Hv. simpl. apply H. exact Hv. Qed.

Lemma keeps_fire {A : Type} (op : Request unit) (k : Task A) :
  keeps k -> keeps (Fire op k).
Proof. intros H v Hv. simpl. apply H. exact Hv. Qed.

Lemma keeps_wait {R : Type} (op : Request R) : keeps (wait op).
Proof.
  intros v Hv. simpl. split; [exact Hv|]. intros [a|] v' Hv'; exact Hv'.
Qed.

Lemma keeps_update (f : Vars -> Vars) :
  (forall v, Background.processingQuestion (globals (f v))
             = Background.processingQuestion (globals v)) ->
  keeps (update f).
Proof. intros Hf v Hv. simpl. unfold inFlight. rewrite Hf. exact Hv. Qed.

Lemma keeps_andThen {A B : Type} (t : Task A) (f : A -> Task B) :
  keeps t -> (forall a, keeps (f a)) -> keeps (andThen t f).
Proof.
  intros Ht Hf v Hv. apply holds_andThen.
  apply (task_holds_weaken inFlight t (fun _ v' => inFlight v'));
    [|apply Ht; exact Hv].
  intros [a|] v' Hv'; [apply Hf|]; exact Hv'.
Qed.

Lemma keeps_catch {A : Type} (t handler : Task A) :
  keeps t -> keeps handler -> keeps (catch t handler).
Proof.
  intros Ht Hh v Hv. apply holds_catch.
  apply (task_holds_weaken inFlight t (fun _ v' => inFlight v'));
    [|apply Ht; exact Hv].
  intros [a|] v' Hv'; [|apply Hh]; exact Hv'.
Qed.

Lemma keeps_lift {A : Type} (p : Background.Prog A) :
  FlagSpec.keeps p -> keeps (lift p).
Proof.
  intros Hp v Hv.
  exact (holds_lift FlagSpec.inFlight p (fun _ g => FlagSpec.inFlight g) v
           (Hp (globals v) Hv)).
Qed.

Lemma attemptReply_keeps remaining tabId response delay :
  keeps (attemptReply remaining tabId response delay).
Proof.
  induction remaining as [|n IH]; intros v Hv; simpl;
    (split; [exact Hv|]); intros [a|] v' Hv'; simpl; auto.
Qed.

Lemma attemptReply_only (P : forall R : Type, Request R -> Prop)
  remaining tabId response delay :
  P _ (SendReply tabId response) -> P _ (Base (Background.Sleep delay)) ->
  only P (attemptReply remaining tabId response delay).
Proof.
  intros Hs Hd. induction remaining as [|n IH]; simpl.
  - split; [exact Hs|]. intros [a|]; exact I.
  - split; [exact Hs|]. intros [a|]; simpl; auto.
Qed.

End TaskFacts.

Ltac keepsT_step :=
  lazymatch goal with
  | |- HandlersSpec.keeps (Handlers.Done _) => apply keeps_done
  | |- HandlersSpec.keeps Handlers.Fail => apply keeps_fail
  | |- HandlersSpec.keeps (Handlers.wait _) => apply keeps_wait
  | |- HandlersSpec.keeps (Handlers.update _) =>
      apply keeps_update; intros ?; reflexivity
  | |- HandlersSpec.keeps (Handlers.andThen _ _) =>
      apply keeps_andThen; [|intros ?]
  | |- HandlersSpec.keeps (Handlers.Read _) => apply keeps_read; intros ?
  | |- HandlersSpec.keeps (Handlers.Fire _ _) => apply keeps_fire
  | |- HandlersSpec.keeps (Handlers.catch _ _) => apply keeps_catch
  | |- HandlersSpec.keeps (Handlers.lift Background.findAndStoreTabs) =>
      apply keeps_lift, findAndStoreTabs_keeps
  | |- HandlersSpec.keeps (Handlers.lift Background.shouldFocusTabs) =>
      apply keeps_lift, shouldFocusTabs_keeps
  | |- HandlersSpec.keeps (Handlers.lift (Background.focusTab _)) =>
      apply keeps_lift, focusTab_keeps
  | |- HandlersSpec.keeps
         (Handlers.lift (Background.sendMessageWithRetry _ _ _ _)) =>
      apply keeps_lift, sendMessageWithRetry_keeps
  | |- HandlersSpec.keeps (Handlers.attemptReply _ _ _ _) =>
      apply attemptReply_keeps
  | |- HandlersSpec.keeps (match ?x with _ => _ end) => destruct x
  | |- HandlersSpec.keeps (if ?x then _ else _) => destruct x
  end.

Lemma processResponse_keeps response :
  HandlersSpec.keeps (Handlers.processResponse response).
Proof.
  unfold Handlers.processResponse, Handlers.sendReplyWithRetry.
  repeat keepsT_step.
Qed.

Lemma injectContentScript_keeps tabId :
  HandlersSpec.keeps (Handlers.injectContentScript tabId).
Proof.
  unfold Handlers.injectContentScript. repeat keepsT_step.
Qed.

Lemma injectExisting_keeps :
  HandlersSpec.keeps Handlers.injectContentScriptsIntoExistingTabs.
Proof.
  unfold Handlers.injectContentScriptsIntoExistingTabs.
  repeat keepsT_step.
  match goal with
  | |- HandlersSpec.keeps (fold_right _ _ ?l) =>
      induction l; simpl; [apply keeps_done | apply keeps_fire; assumption]
  end.
Qed.

Lemma onUpdated_keeps tab : HandlersSpec.keeps (Handlers.onUpdated tab).
Proof.
  unfold Handlers.onUpdated.
  repeat first [apply injectContentScript_keeps | keepsT_step].
Qed.

Lemma initialize_keeps : HandlersSpec.keeps Handlers.initialize.
Proof.
  unfold Handlers.initialize.
  repeat first [apply injectExisting_keeps | keepsT_step].
Qed.

Lemma noteSender_flag message tab v :
  Background.processingQuestion
    (Handlers.globals (fst (Handlers.noteSender message tab v)))
  = Background.processingQuestion (Handlers.globals v).
Proof.
  unfold Handlers.noteSender.
  assert (A : Background.processingQuestion
                (Handlers.globals
                   match message with
                   | Handlers.ContentScriptReady =>
                       Handlers.add (Handlers.s_id tab) v
                   | _ => v
                   end)
              = Background.processingQuestion (Handlers.globals v))
    by (destruct message; reflexivity).
  revert A.
  generalize (match message with
              | Handlers.ContentScriptReady =>
                  Handlers.add (Handlers.s_id tab) v
              | _ => v
              end).
  intros v0 A.
  destruct (Handlers.isTextbookUrl tab (Handlers.globals v0)); simpl;
    destruct (includes (lit "chatgpt.com") _);
    destruct (includes (lit "gemini.google.com") _);
    destruct (includes (lit "chat.deepseek.com") _); simpl; exact A.
Qed.

(** X22.  None of the other handlers of the background script clears the
    in-flight flag: [processResponse], [injectContentScript], the
    listener of tab updates, [initialize] and
    [injectContentScriptsIntoExistingTabs] are in flight whenever they
    are suspended and when they end, if they were started in flight;
    the listeners of tab activation, of tab removal and of messages
    leave the flag as it is. *)
Theorem other_handlers_keep_flag :
  (forall response, HandlersSpec.keeps (Handlers.processResponse response))
  /\ (forall tabId, HandlersSpec.keeps (Handlers.injectContentScript tabId))
  /\ (forall tab, HandlersSpec.keeps (Handlers.onUpdated tab))
  /\ HandlersSpec.keeps Handlers.initialize
  /\ HandlersSpec.keeps Handlers.injectContentScriptsIntoExistingTabs
  /\ (forall tabId v,
         Background.processingQuestion
           (Handlers.globals (Handlers.onActivated tabId v))
         = Background.processingQuestion (Handlers.globals v))
  /\ (forall tabId v,
         Background.processingQuestion
           (Handlers.globals (Handlers.onRemoved tabId v))
         = Background.processingQuestion (Handlers.globals v))
  /\ (forall message sender v,
         Background.processingQuestion
           (Handlers.globals (fst (fst (Handlers.onMessage message sender v))))
         = Background.processingQuestion (Handlers.globals v)).
Proof.
  split; [exact processResponse_keeps|].
  split; [exact injectContentScript_keeps|].
  split; [exact onUpdated_keeps|].
  split; [exact initialize_keeps|].
  split; [exact injectExisting_keeps|].
  split; [reflexivity|]. split.
  - intros tabId v. unfold Handlers.onRemoved, Handlers.delete.
    cbn [Handlers.globals].
    repeat match goal with
      | |- context [if ?b then _ else _] => destruct b
      end; reflexivity.
  - intros message sender v. unfold Handlers.onMessage.
    destruct sender as [tab|].
    + assert (N := noteSender_flag message tab v).
      destruct (Handlers.noteSender message tab v) as [v0 started].
      simpl in N. destruct message; simpl; exact N.
    + destruct message; reflexivity.
Qed.

Lemma lookup_relaysReply response (R : Type) (op : Background.Op R) :
  Footprint.lookup R op ->
  HandlersSpec.relaysReply response R (Handlers.Base op).
Proof. destruct op; simpl; tauto. Qed.

Lemma processResponse_only response :
  HandlersSpec.only (HandlersSpec.relaysReply response)
    (Handlers.processResponse response).
Proof.
  assert (F : HandlersSpec.only (HandlersSpec.relaysReply response)
                (Handlers.lift Background.findAndStoreTabs)).
  { apply only_lift.
    exact (only_weaken _ _ _ (lookup_relaysReply response)
             findAndStoreTabs_lookup). }
  assert (S : HandlersSpec.only (HandlersSpec.relaysReply response)
                (Handlers.lift Background.shouldFocusTabs)).
  { apply only_lift. apply shouldFocusTabs_only.
    apply lookup_relaysReply. }
  unfold Handlers.processResponse, Handlers.sendReplyWithRetry.
  repeat lazymatch goal with
    | |- HandlersSpec.only _ (Handlers.lift Background.findAndStoreTabs) =>
        exact F
    | |- HandlersSpec.only _ (Handlers.lift Background.shouldFocusTabs) =>
        exact S
    | |- HandlersSpec.only _ (Handlers.lift (Background.focusTab _)) =>
        apply only_lift, focusTab_only; intros; exact I
    | |- HandlersSpec.only _ (Handlers.attemptReply _ _ _ _) =>
        apply attemptReply_only; simpl; auto
    | |- HandlersSpec.only _ (Handlers.wait _) =>
        simpl; split; [auto | intros [?|]; exact I]
    | |- HandlersSpec.only _ (Handlers.andThen _ _) =>
        apply only_andThen; [|intros ?]
    | |- HandlersSpec.only _ (Handlers.catch _ _) => apply only_catch
    | |- HandlersSpec.only _ (Handlers.Read _) => intros ?
    | |- HandlersSpec.only _ (Handlers.Done _) => exact I
    | |- HandlersSpec.only _ Handlers.Fail => exact I
    | |- HandlersSpec.only _ (match ?x with _ => _ end) => destruct x
    | |- HandlersSpec.only _ (if ?x then _ else _) => destruct x
    end.
Qed.

Lemma relaysReply_sent response (ext : list Handlers.Did) tabId m :
  Forall (fun d => match d with
                   | Handlers.Asked op =>
                       HandlersSpec.relaysReply response _ op
                   end) ext ->
  In (tabId, m) (Injection.sent ext) -> m = Injection.Reply response.
Proof.
  induction 1 as [|[R op] ext Hop _ IH]; simpl; [contradiction|].
  destruct op as [R op| | | |]; simpl in *; auto.
  - destruct op; simpl in *; auto. contradiction.
  - intros [E | H]; [|auto]. injection E as <- <-. rewrite Hop. reflexivity.
Qed.

(** X23.  [processResponse] never lets an exception escape.  Whatever
    the browser answers, the only message that it sends to a tab itself
    is the reply it was handed, unchanged; it sends no question and no
    alert, and it pauses only for 300 ms or 1000 ms.  Of all the messages
    that a run causes, every other one is the ping of an injection that
    the run started, sent to the tab of that injection. *)
Theorem processResponse_relays (w : Handlers.Browser)
  (response : jsstring) (h : list Handlers.Did) (v : Handlers.Vars) :
  let r := Handlers.exec w (Handlers.processResponse response) h v in
  fst (fst r) = Some tt
  /\ exists ext,
       snd r = h ++ ext
       /\ Forall (fun d => match d with
                           | Handlers.Asked op =>
                               HandlersSpec.relaysReply response _ op
                           end) ext
       /\ forall meets tabId m,
            In (tabId, m) (Injection.allSent meets ext) ->
            m = Injection.Reply response
            \/ (m = Injection.Plain Background.Ping
                /\ In tabId (Injection.started ext)).
Proof.
  intros r. split.
  - assert (S : fst (fst r) <> None).
    { apply safe_exec. unfold Handlers.processResponse.
      apply safe_catch. exact I. }
    destruct (fst (fst r)) as [[]|]; [reflexivity | congruence].
  - destruct (task_only_exec _ w (Handlers.processResponse response) h v
                (processResponse_only response)) as (ext & E & F).
    exists ext. split; [exact E|]. split; [exact F|].
    intros meets tabId m H. apply allSent_in in H.
    destruct H as [H | (t & Ht & Hx)].
    + left. exact (relaysReply_sent response ext tabId m F H).
    + injection Hx as -> ->. auto.
Qed.

(** ** Tracking the injected tabs *)

Lemma has_add (t' t : Z) (v : Handlers.Vars) :
  Handlers.has t' (Handlers.add t v)
  = (t' =? t)%Z || Handlers.has t' v.
Proof.
  unfold Handlers.add. destruct (Handlers.has t v) eqn:E.
  - unfold Handlers.has at 1. simpl. fold (Handlers.has t' v).
    destruct (Z.eqb_spec t' t) as [->|_]; [rewrite E|]; reflexivity.
  - unfold Handlers.has. simpl. rewrite existsb_app. simpl.
    rewrite orb_false_r. apply orb_comm.
Qed.

Lemma has_delete (t' t : Z) (v : Handlers.Vars) :
  Handlers.has t' (Handlers.delete t v)
  = negb (t' =? t)%Z && Handlers.has t' v.
Proof.
  unfold Handlers.has, Handlers.delete. simpl.
  induction (Handlers.injectedTabs v) as [|x l IH]; simpl.
  - rewrite andb_false_r. reflexivity.
  - destruct (Z.eqb_spec x t) as [->|Hx]; simpl.
    + rewrite IH. destruct (Z.eqb_spec t' t); simpl; reflexivity.
    + rewrite IH. destruct (Z.eqb_spec t' x) as [->|Hx']; simpl.
      * destruct (Z.eqb_spec x t); [contradiction | reflexivity].
      * reflexivity.
Qed.

(** X24.  [injectContentScript] never lets an exception escape.  In a
    steady browser it leaves the tab tracked in [injectedTabs] exactly
    when the tab exists and either it was tracked and its content script
    answers the ping, or the injection succeeds; the other tabs stay as
    they were, and so do the other variables. *)
Theorem injectContentScript_tracks (w : Handlers.Browser)
  (a : forall R : Type, Handlers.Request R -> option R)
  (tabId : Z) (h : list Handlers.Did) (v : Handlers.Vars) :
  (fst (fst (Handlers.exec w (Handlers.injectContentScript tabId) h v))
   = Some tt)
  /\ (HandlersSpec.steady w a ->
      let v' :=
        snd (fst (Handlers.exec w (Handlers.injectContentScript tabId) h v))
      in
      Handlers.globals v' = Handlers.globals v
      /\ forall t,
           Handlers.has t v'
           = if (t =? tabId)%Z
             then HandlersSpec.isSome
                    (a _ (Handlers.Base (Background.TabsGet tabId)))
                  && ((Handlers.has tabId v
                       && HandlersSpec.isSome
                            (a _ (Handlers.Base
                                    (Background.TabsSendMessage tabId
                                       Background.Ping))))
                      || HandlersSpec.isSome
                           (a _ (Handlers.ExecuteScript tabId)))
             else Handlers.has t v).
Proof.
  split.
  - assert (S : fst (fst (Handlers.exec w
                            (Handlers.injectContentScript tabId) h v))
                <> None).
    { apply safe_exec. unfold Handlers.injectContentScript.
      apply safe_catch. simpl. auto. }
    destruct (fst (fst _)) as [[]|]; [reflexivity | congruence].
  - intros [Ha Hm] v'. unfold v', Handlers.injectContentScript.
    cbn [Handlers.catch Handlers.andThen Handlers.wait Handlers.exec
         Handlers.update].
    rewrite Ha, Hm.
    destruct (a _ (Handlers.Base (Background.TabsGet tabId))) as [tab|];
      cbn [Handlers.catch Handlers.andThen Handlers.exec Handlers.update
           HandlersSpec.isSome andb fst snd].
    2:{ split; [reflexivity|]. intros t. rewrite has_delete.
        destruct (t =? tabId)%Z; reflexivity. }
    destruct (Handlers.has tabId v) eqn:Hh;
      cbn [Handlers.catch Handlers.andThen Handlers.exec Handlers.update
           Handlers.lift Background.sendMessageWithRetry Nat.sub
           Background.attemptSend andb orb fst snd].
    + rewrite Ha, Hm.
      destruct (a _ (Handlers.Base
                       (Background.TabsSendMessage tabId Background.Ping)))
        as [pong|];
        cbn [Handlers.catch Handlers.andThen Handlers.exec Handlers.update
             Handlers.lift HandlersSpec.isSome andb orb fst snd].
      * split; [reflexivity|]. intros t.
        destruct (Z.eqb_spec t tabId) as [->|_]; [exact Hh | reflexivity].
      * rewrite Ha, Hm.
        destruct (a _ (Handlers.ExecuteScript tabId)) as [[]|];
          cbn [Handlers.catch Handlers.andThen Handlers.exec Handlers.update
               HandlersSpec.isSome andb orb fst snd].
        -- split; [reflexivity|]. intros t.
           rewrite has_add, has_delete.
           destruct (t =? tabId)%Z; reflexivity.
        -- split; [reflexivity|]. intros t.
           rewrite !has_delete.
           destruct (t =? tabId)%Z; simpl; reflexivity.
    + rewrite Ha, Hm.
      destruct (a _ (Handlers.ExecuteScript tabId)) as [[]|];
        cbn [Handlers.catch Handlers.andThen Handlers.exec Handlers.update
             HandlersSpec.isSome andb orb fst snd].
      * split; [reflexivity|]. intros t. rewrite has_add.
        destruct (t =? tabId)%Z; reflexivity.
      * split; [reflexivity|]. intros t. rewrite has_delete.
        destruct (Z.eqb_spec t tabId) as [->|_]; simpl; [|reflexivity].
        reflexivity.
Qed.

Lemma injectContentScript_tracks_witness :
  let v' :=
    snd (fst (Handlers.exec Samples.quietBrowser
                (Handlers.injectContentScript 3) [] Samples.injected)) in
  Handlers.has 3 Samples.injected = true
  /\ Handlers.has 3 v' = true
  /\ Handlers.has 5 v' = false.
Proof.
  cbv zeta. split; [reflexivity|].
  destruct (proj2 (injectContentScript_tracks Samples.quietBrowser
                     Samples.replies 3 [] Samples.injected))
    as (_ & H).
  - split; [intros R h op | intros h v]; reflexivity.
  - rewrite (H 3%Z), (H 5%Z). split; reflexivity.
Defined.



Local Open Scope Z_scope.


(** X26.  When a delay input loses the focus after the inputs were saved,
    the stored delays are in order unless the minimum is zero or
    negative: a positive minimum above the maximum raises the maximum to
    it, with an alert, and otherwise both are stored as they were
    entered. *)
Theorem blur_orders_delays (i : Settings.Inputs) (st : Settings.Stored) :
  let r := Settings.onBlur i (Settings.onInput i st) in
  let m := Settings.orNumber (Settings.minValue i) 0 in
  let M := Settings.orNumber (Settings.maxValue i) 0 in
  Settings.minDelay (snd (fst r)) = Some m
  /\ Settings.maxDelay (snd (fst r))
     = Some (if snd r then m else M)
  /\ (snd r = true <-> 0 < m /\ M < m)
  /\ (m <= 0 \/ m <= (if snd r then m else M)).
Proof.
  simpl. unfold Settings.onBlur, Settings.onInput.
  set (m := Settings.orNumber (Settings.minValue i) 0).
  set (M := Settings.orNumber (Settings.maxValue i) 0).
  destruct (Z.leb_spec m 0); destruct (Z.leb_spec m M); simpl;
    repeat split; try reflexivity; try lia; try discriminate;
    intros; try lia; auto.
Qed.

Lemma blur_orders_delays_witness :
  let i := {| Settings.minValue := Some 30%Z; Settings.maxValue := Some 10%Z |} in
  let st := {| Settings.minDelay := None; Settings.maxDelay := None;
               Settings.originalMinDelay := None;
               Settings.originalMaxDelay := None;
               Settings.turboMode := None |} in
  snd (Settings.onBlur i (Settings.onInput i st)) = true
  /\ Settings.maxDelay (snd (fst (Settings.onBlur i (Settings.onInput i st))))
     = Some 30%Z.
Proof.
  cbv zeta.
  destruct (blur_orders_delays
              {| Settings.minValue := Some 30%Z; Settings.maxValue := Some 10%Z |}
              {| Settings.minDelay := None; Settings.maxDelay := None;
                 Settings.originalMinDelay := None;
                 Settings.originalMaxDelay := None;
                 Settings.turboMode := None |})
    as (_ & M & A & _).
  assert (B := proj2 A (conj (eq_refl : (0 ?= 30)%Z = Lt)
                             (eq_refl : (10 ?= 30)%Z = Lt))).
  split; [exact B|]. rewrite M, B. reflexivity.
Defined.

(** ** Versions *)

Lemma newerFrom_spec (n i : nat) (c l : list (option Z)) :
  Settings.newerFrom n i c l = true
  <-> exists k, (i <= k < i + n)%nat
                /\ Settings.part c k < Settings.part l k
                /\ forall j, (i <= j < k)%nat ->
                             Settings.part c j = Settings.part l j.
Proof.
  revert i; induction n as [|n IH]; intros i; simpl.
  - split; [discriminate | intros (k & Hk & _); lia].
  - destruct (Z.gtb_spec (Settings.part l i) (Settings.part c i)) as [G|G].
    + split; [intros _ | reflexivity].
      exists i. split; [lia|]. split; [lia|]. intros j Hj. lia.
    + destruct (Z.gtb_spec (Settings.part c i) (Settings.part l i))
        as [G'|G'].
      * split; [discriminate|]. intros (k & Hk & Hlt & Heq).
        destruct (Nat.eq_dec k i) as [->|Hne]; [lia|].
        specialize (Heq i ltac:(lia)). lia.
      * rewrite IH. split.
        -- intros (k & Hk & Hlt & Heq). exists k.
           split; [lia|]. split; [exact Hlt|]. intros j Hj.
           destruct (Nat.eq_dec j i) as [->|Hne]; [lia|].
           apply Heq. lia.
        -- intros (k & Hk & Hlt & Heq).
           destruct (Nat.eq_dec k i) as [->|Hne]; [lia|].
           exists k. split; [lia|]. split; [exact Hlt|].
           intros j Hj. apply Heq. lia.
Qed.

Lemma part_beyond (parts : list (option Z)) (k : nat) :
  (List.length parts <= k)%nat -> Settings.part parts k = 0.
Proof.
  intros H. unfold Settings.part. rewrite nth_overflow by exact H.
  reflexivity.
Qed.

Lemma isUpdateAvailable_spec (c l : list (option Z)) :
  Settings.isUpdateAvailable c l = true
  <-> exists k, Settings.part c k < Settings.part l k
                /\ forall j, (j < k)%nat ->
                             Settings.part c j = Settings.part l j.
Proof.
  unfold Settings.isUpdateAvailable. rewrite newerFrom_spec. split.
  - intros (k & Hk & Hlt & Heq). exists k. split; [exact Hlt|].
    intros j Hj. apply Heq. lia.
  - intros (k & Hlt & Heq). exists k. split.
    + split; [lia|]. simpl.
      destruct (Nat.lt_ge_cases k (Nat.max (List.length c) (List.length l)))
        as [Hk|Hk]; [exact Hk|].
      rewrite (part_beyond c k), (part_beyond l k) in Hlt by lia. lia.
    + split; [exact Hlt|]. intros j Hj. apply Heq. lia.
Qed.

(** X27.  For versions whose parts are whole numbers, [checkForUpdates]
    offers an update exactly when the latest version is greater than the
    current one at the first position where they differ, a missing part
    and a part that is no number counting as zero.  So no update is
    offered between versions that differ only by a zero at the end, and
    never in both directions. *)
Theorem update_offered_iff_newer :
  (forall current latest : list (option Z),
      Settings.isUpdateAvailable current latest = true
      <-> exists k, Settings.part current k < Settings.part latest k
                    /\ forall j, (j < k)%nat ->
                                 Settings.part current j
                                 = Settings.part latest j)
  /\ (forall version : list (option Z),
         Settings.isUpdateAvailable version version = false
         /\ Settings.isUpdateAvailable version (version ++ [Some 0]) = false
         /\ Settings.isUpdateAvailable (version ++ [Some 0]) version = false)
  /\ (forall a b : list (option Z),
         Settings.isUpdateAvailable a b = true ->
         Settings.isUpdateAvailable b a = false).
Proof.
  split; [exact isUpdateAvailable_spec|].
  assert (Pz : forall version k,
             Settings.part (version ++ [Some 0]) k = Settings.part version k).
  { intros version k. unfold Settings.part.
    destruct (Nat.lt_ge_cases k (List.length version)) as [Hk|Hk].
    - rewrite app_nth1 by exact Hk. reflexivity.
    - rewrite app_nth2 by exact Hk. rewrite (nth_overflow version) by exact Hk.
      destruct (k - List.length version)%nat as [|[|n]]; reflexivity. }
  split.
  - intros version.
    repeat split;
      (destruct (Settings.isUpdateAvailable _ _) eqn:E; [|reflexivity];
       apply isUpdateAvailable_spec in E; destruct E as (k & Hlt & _);
       try rewrite Pz in Hlt; lia).
  - intros a b Hab.
    destruct (Settings.isUpdateAvailable b a) eqn:Hba; [|reflexivity].
    apply isUpdateAvailable_spec in Hab, Hba.
    destruct Hab as (k & Hk & Ek), Hba as (k' & Hk' & Ek').
    destruct (Nat.lt_trichotomy k k') as [H|[H|H]].
    + specialize (Ek' k H). lia.
    + subst k'. lia.
    + specialize (Ek k' H). lia.
Qed.

Lemma update_offered_iff_newer_witness :
  Settings.isUpdateAvailable [Some 2; Some 0]%Z [Some 2; Some 0; Some 1]%Z
  = true
  /\ Settings.isUpdateAvailable [Some 2; Some 0; Some 1]%Z [Some 2; Some 0]%Z
     = false.
Proof.
  assert (H : Settings.isUpdateAvailable [Some 2; Some 0]%Z
                [Some 2; Some 0; Some 1]%Z = true).
  { apply (proj1 update_offered_iff_newer). exists 2%nat.
    split; [reflexivity|].
    intros [|[|j]] Hj; [reflexivity | reflexivity | lia]. }
  split; [exact H|].
  apply (proj2 (proj2 update_offered_iff_newer)). exact H.
Defined.

Local Close Scope Z_scope.

(** ** The website name *)

Section PatternFacts.

Import Pattern.

Lemma matchK_atMost_class (p : N -> bool) (k : jsstring -> bool) (n : nat)
  (s : jsstring) :
  matchK (AtMost n (Class p)) s k = true
  <-> exists j, (j <= n)%nat /\ (j <= List.length s)%nat
                /\ forallb p (firstn j s) = true
                /\ k (skipn j s) = true.
Proof.
  simpl. revert s. induction n as [|n IH]; intros s.
  - split.
    + intros H. exists 0%nat. repeat split; try lia; assumption.
    + intros (j & Hj & _ & _ & Hk). replace j with 0%nat in Hk by lia.
      exact Hk.
  - rewrite orb_true_iff. split.
    + intros [H|H].
      * destruct s as [|c s']; [discriminate|].
        apply andb_true_iff in H. destruct H as [Hc H].
        apply IH in H. destruct H as (j & Hj & Hl & Hp & Hk).
        exists (S j). simpl. rewrite Hc, Hp.
        repeat split; try lia; assumption.
      * exists 0%nat. simpl. repeat split; try lia; assumption.
    + intros (j & Hj & Hl & Hp & Hk). destruct j as [|j].
      * right. exact Hk.
      * left. destruct s as [|c s']; [simpl in Hl; lia|].
        simpl in Hp, Hk, Hl. apply andb_true_iff in Hp.
        destruct Hp as [Hc Hp]. rewrite Hc. simpl. apply IH.
        exists j. repeat split; try lia; assumption.
Qed.

End PatternFacts.

Section WebsiteFacts.

Import Pattern Website WebsiteSpec.

Local Open Scope N_scope.

Lemma alnum_iff (c : N) :
  alnum c = true <-> alnumHyphen c = true /\ c <> 45.
Proof.
  unfold alnum, alnumHyphen.
  rewrite !orb_true_iff, !andb_true_iff, !N.leb_le, N.eqb_eq. lia.
Qed.

Lemma forallb_In (p : N -> bool) (l : jsstring) :
  forallb p l = true <-> forall c, In c l -> p c = true.
Proof. apply forallb_forall. Qed.

Lemma subdomainRegex_label (s : jsstring) :
  test subdomainRegex s = true <-> label s.
Proof.
  unfold test, subdomainRegex.
  change (matchK (Seq (Class alnum) ?r) s ?k)
    with (match s with
          | c :: s' => alnum c && matchK r s' k
          | [] => false
          end).
  destruct s as [|c s'].
  - split; [discriminate|]. intros ((H & _) & _). simpl in H. lia.
  - rewrite andb_true_iff.
    change (matchK (Opt ?r) s' ?k) with (matchK r s' k || k s').
    rewrite orb_true_iff.
    change (matchK (Seq (AtMost 61 (Class alnumHyphen)) (Class alnum)) s' ?k)
      with (matchK (AtMost 61 (Class alnumHyphen)) s'
              (fun s0 => matchK (Class alnum) s0 k)).
    rewrite matchK_atMost_class. rewrite alnum_iff. split.
    + intros [[Hc Hn] [(j & Hj & Hl & Hp & Hk)|He]].
      * simpl in Hk. destruct (skipn j s') as [|d [|? ?]] eqn:Es;
          try discriminate; [|rewrite andb_false_r in Hk; discriminate].
        rewrite andb_true_r in Hk. apply alnum_iff in Hk.
        destruct Hk as [Hd Hdn].
        assert (E : s' = firstn j s' ++ [d])
          by (rewrite <- Es; symmetry; apply firstn_skipn).
        assert (L : List.length s' = S j).
        { rewrite E at 1. rewrite length_app, firstn_length_le by lia.
          simpl. lia. }
        repeat split.
        -- simpl. lia.
        -- simpl. lia.
        -- intros x [<-|Hx]; [exact Hc|]. rewrite E in Hx.
           apply in_app_or in Hx. destruct Hx as [Hx|[<-|[]]];
             [|exact Hd].
           rewrite forallb_forall in Hp. apply Hp, Hx.
        -- exact Hn.
        -- rewrite E. change (c :: firstn j s' ++ [d])
             with ((c :: firstn j s') ++ [d]).
           rewrite last_last. exact Hdn.
      * destruct s' as [|? ?]; [|discriminate].
        repeat split; simpl; try lia; try assumption.
        intros x [<-|[]]. exact Hc.
    + intros ((L1 & L2) & Hall & Hh & Hl). simpl in Hh.
      split; [split; [apply Hall; left; reflexivity | exact Hh]|].
      destruct s' as [|x s0] using rev_ind; [right; reflexivity|].
      left. clear IHs0. exists (List.length s0).
      change (c :: s0 ++ [x]) with ((c :: s0) ++ [x]) in Hl.
      rewrite last_last in Hl.
      simpl in L2. rewrite length_app in L2 |- *. simpl in L2 |- *.
      split; [lia|]. split; [lia|].
      rewrite firstn_app, Nat.sub_diag, firstn_all, app_nil_r.
      rewrite skipn_app, Nat.sub_diag, skipn_all. simpl.
      split.
      * apply forallb_forall. intros y Hy. apply Hall. right.
        apply in_or_app. left. exact Hy.
      * rewrite andb_true_r. apply alnum_iff. split; [|exact Hl].
        apply Hall. right. apply in_or_app. right. left. reflexivity.
Qed.

Lemma label_chars (s : jsstring) (c : N) :
  label s -> In c s ->
  c <> 46 /\ c <> 47 /\ c <> 42 /\ c <> 58 /\ isWhiteSpace c = false.
Proof.
  intros (_ & Hall & _) Hc. apply Hall in Hc. revert Hc.
  unfold alnumHyphen.
  rewrite !orb_true_iff, !andb_true_iff, !N.leb_le, N.eqb_eq.
  intros H.
  assert (R : 45 <= c <= 122) by lia.
  repeat split; try lia.
  unfold isWhiteSpace.
  repeat match goal with
         | |- context [N.eqb c ?n] =>
             destruct (N.eqb_spec c n); [lia|]
         | |- context [N.leb ?a ?b] =>
             destruct (N.leb_spec a b); try lia
         end; reflexivity.
Qed.

End WebsiteFacts.

(** X28.  The settings page stores a website name, and tells the
    background script about it, only if the trimmed input is a DNS
    label: 1 to 63 letters, digits and hyphens, with no hyphen at either
    end.  What it stores and sends is the trimmed input; the update is
    sent exactly when the name is a label and the write to sync storage
    succeeded.  For any other input the autosave does nothing and the
    save button only alerts.  A stored name holds no dot, slash, star,
    colon or white space. *)
Theorem website_name_is_label (value : jsstring) (showVisualFeedback
  lastError : bool) :
  let u := trim value in
  let saved :=
    Website.saveWebsiteUrlWithValidation value showVisualFeedback
      lastError in
  (fst saved = true <-> WebsiteSpec.label u)
  /\ (forall e w,
         In e (snd saved) -> WebsiteSpec.carried e = Some w ->
         w = u /\ WebsiteSpec.label u)
  /\ (In (Website.SendUpdateWebsiteUrl u) (snd saved)
      <-> WebsiteSpec.label u /\ lastError = false)
  /\ (WebsiteSpec.label u ->
      In (Website.StorageLocalSet u) (snd saved)
      /\ In (Website.StorageSyncSet u) (snd saved)
      /\ Website.onSaveClick value lastError
         = snd (Website.saveWebsiteUrlWithValidation value true lastError)
      /\ forall c, In c u ->
           (c <> 46 /\ c <> 47 /\ c <> 42 /\ c <> 58
            /\ isWhiteSpace c = false)%N)
  /\ (~ WebsiteSpec.label u ->
      snd saved = []
      /\ Website.onAutosave value lastError = []
      /\ exists text, Website.onSaveClick value lastError
                      = [Website.Alert text]).
Proof.
  intros u saved.
  assert (D : (Pattern.test Website.subdomainRegex u = true
               /\ WebsiteSpec.label u /\ u <> [])
              \/ ((u = [] \/ Pattern.test Website.subdomainRegex u = false)
                  /\ ~ WebsiteSpec.label u)).
  { destruct (Pattern.test Website.subdomainRegex u) eqn:T.
    - left. assert (L := proj1 (subdomainRegex_label u) T).
      split; [reflexivity|]. split; [exact L|].
      intros E. rewrite E in T. discriminate T.
    - right. split; [right; reflexivity|]. intros L.
      apply subdomainRegex_label in L. congruence. }
  unfold saved, Website.onAutosave, Website.onSaveClick,
    Website.saveWebsiteUrlWithValidation.
  rewrite trim_idem. fold u.
  destruct D as [(T & L & N)|(T & L)].
  - destruct u as [|c r] eqn:Eu; [contradiction|]. rewrite T. simpl.
    split; [tauto|]. split.
    { intros e w He Hw.
      destruct He as [<-|[<-|He]]; simpl in Hw;
        try (injection Hw as <-; split; [reflexivity | exact L]).
      destruct lastError, showVisualFeedback; simpl in He;
        repeat match goal with
               | H : _ \/ _ |- _ => destruct H as [<-|H]
               | H : False |- _ => destruct H
               end; simpl in Hw; try discriminate;
        injection Hw as <-; (split; [reflexivity | exact L]). }
    split.
    { split.
      - intros [H|[H|H]]; try discriminate. split; [exact L|].
        destruct lastError; [|reflexivity].
        destruct showVisualFeedback; simpl in H;
          repeat match goal with
                 | H : _ \/ _ |- _ => destruct H as [H|H]
                 | H : False |- _ => destruct H
                 end; discriminate.
      - intros [_ ->]. right. right.
        destruct showVisualFeedback; simpl; auto. }
    split.
    { intros _. split; [left; reflexivity|].
      split; [right; left; reflexivity|]. split; [reflexivity|].
      intros x Hx. exact (label_chars _ _ L Hx). }
    intros NL. contradiction.
  - assert (R : (match u with
                 | [] => (false, @nil Website.Effect)
                 | _ :: _ =>
                     if negb (Pattern.test Website.subdomainRegex u)
                     then (false, [])
                     else (true,
                           [Website.StorageLocalSet u;
                            Website.StorageSyncSet u]
                           ++ (if lastError
                               then if showVisualFeedback
                                    then [Website.Alert
                                            (lit "Error saving website URL. Please try again.")]
                                    else []
                               else (if showVisualFeedback
                                     then [Website.ShowSaved] else [])
                                    ++ [Website.SendUpdateWebsiteUrl u]))
                 end) = (false, [])).
    { destruct u as [|c r]; [reflexivity|].
      destruct T as [T|T]; [discriminate|]. rewrite T. reflexivity. }
    rewrite R. simpl.
    split; [split; [discriminate | contradiction]|].
    split; [intros e w []|].
    split; [split; [intros [] | intros [H _]; contradiction]|].
    split; [intros H; contradiction|].
    intros _. split; [reflexivity|].
    destruct u as [|c r]; [split; [reflexivity | eexists; reflexivity]|].
    destruct T as [T|T]; [discriminate|]. rewrite T. simpl.
    split; [reflexivity | eexists; reflexivity].
Qed.

Lemma website_name_is_label_witness :
  fst (Website.saveWebsiteUrlWithValidation (lit " my-school ") false false)
  = true
  /\ In (Website.SendUpdateWebsiteUrl (lit "my-school"))
        (snd (Website.saveWebsiteUrlWithValidation (lit " my-school ")
                false false))
  /\ fst (Website.saveWebsiteUrlWithValidation (lit "my.school") false false)
     = false.
Proof.
  assert (L : WebsiteSpec.label (trim (lit " my-school "))).
  { repeat split; try (vm_compute; lia); try (vm_compute; discriminate).
    intros c Hc. vm_compute in Hc.
    repeat destruct Hc as [<-|Hc]; try reflexivity. destruct Hc. }
  destruct (website_name_is_label (lit " my-school ") false false)
    as (A & _ & B & _).
  split; [apply A; exact L|]. split; [apply B; split; [exact L | reflexivity]|].
  vm_compute. reflexivity.
Defined.
